(** * Headlamp plugin management: a verification development

    A shallow embedding of [app/electron/plugin-management.ts]: the
    validators, the checksum gate, the plugin directory store and the
    install / update / uninstall / list operations of [PluginManager],
    followed by the properties established about them. *)

From Stdlib Require Import ZArith NArith List Ascii String Bool Lia.
From Stdlib.Strings Require Byte.
From stdpp Require Import gmap strings list fin_maps pretty.

Open Scope string_scope.
Open Scope list_scope.

(* ===================================================================== *)
(** * Part I. Definitions                                                 *)
(* ===================================================================== *)

(** ** Regular expressions

    The source uses four regular-expression literals.  They are embedded as
    syntax trees and run by a derivative matcher.  A string holds its text
    in UTF-8, one byte to an [ascii]: the classes of the four literals are
    classes of bytes, but for the [.], which has two characters of three
    bytes to leave out. *)

Module Regex.

Inductive re : Type :=
| Void                          (* matches nothing *)
| Eps                           (* the empty string *)
| Sym (p : ascii -> bool)       (* one byte of a class *)
| Cat (r1 r2 : re)
| Alt (r1 r2 : re)
| Star (r : re).

(** [r+] *)
Definition Plus (r : re) : re := Cat r (Star r).

(** A literal character, and a literal string. *)
Definition Chr (c : ascii) : re := Sym (Ascii.eqb c).

Fixpoint Lit (s : string) : re :=
  match s with
  | EmptyString => Eps
  | String c s' => Cat (Chr c) (Lit s')
  end.

(** [[^/]]: any character but the slash (line terminators included); byte
    by byte, as no byte of a longer character is the slash. *)
Definition not_slash (c : ascii) : bool := negb (Ascii.eqb c "/").

(** Neither LF nor CR. *)
Definition not_newline (c : ascii) : bool :=
  negb (Ascii.eqb c "010") && negb (Ascii.eqb c "013").

(** A byte that continues a character of several bytes: [0x80] to [0xBF]. *)
Definition continuation (c : ascii) : bool :=
  (128 <=? nat_of_ascii c)%nat && (nat_of_ascii c <=? 191)%nat.

(** [.] without the [s] flag: one character other than the four ECMAScript
    line terminators LF, CR, U+2028 and U+2029.  In UTF-8 the last two are
    the bytes [E2 80 A8] and [E2 80 A9], and the byte [E2] (226) leads
    characters of three bytes only.  So [dot] takes one byte other than LF,
    CR and [E2], or the three bytes of a character led by [E2] other than
    those two. *)
Definition dot : re :=
  Alt (Sym (fun c => not_newline c && negb (Ascii.eqb c "226")))
      (Cat (Chr "226")
           (Alt (Cat (Sym (fun c => continuation c && negb (Ascii.eqb c "128")))
                     (Sym continuation))
                (Cat (Chr "128")
                     (Sym (fun c => continuation c
                                    && negb (Ascii.eqb c "168" || Ascii.eqb c "169")))))).

Definition any_char (c : ascii) : bool := true.

Fixpoint nullable (r : re) : bool :=
  match r with
  | Void => false
  | Eps => true
  | Sym _ => false
  | Cat r1 r2 => nullable r1 && nullable r2
  | Alt r1 r2 => nullable r1 || nullable r2
  | Star _ => true
  end.

Fixpoint deriv (c : ascii) (r : re) : re :=
  match r with
  | Void => Void
  | Eps => Void
  | Sym p => if p c then Eps else Void
  | Cat r1 r2 =>
      if nullable r1
      then Alt (Cat (deriv c r1) r2) (deriv c r2)
      else Cat (deriv c r1) r2
  | Alt r1 r2 => Alt (deriv c r1) (deriv c r2)
  | Star r1 => Cat (deriv c r1) (Star r1)
  end.

(** Whole-string match. *)
Fixpoint matchb (r : re) (s : string) : bool :=
  match s with
  | EmptyString => nullable r
  | String c s' => matchb (deriv c r) s'
  end.

(** A regular-expression literal: its body and whether it carries the
    [^] and [$] anchors at its two ends. *)
Record RegExp : Type := mkRegExp {
  re_bol : bool;
  re_body : re;
  re_eol : bool
}.

(** [RegExp.prototype.test] (no flags): some substring matches the body,
    starting at the beginning when anchored by [^] and ending at the end
    when anchored by [$]. *)
Definition test (x : RegExp) (s : string) : bool :=
  let pre := if re_bol x then Eps else Star (Sym any_char) in
  let post := if re_eol x then Eps else Star (Sym any_char) in
  matchb (Cat pre (Cat (re_body x) post)) s.

(** The language of an expression, as a relation. *)
Inductive matches : re -> string -> Prop :=
| MEps : matches Eps ""
| MSym p c : p c = true -> matches (Sym p) (String c "")
| MCat r1 r2 s1 s2 :
    matches r1 s1 -> matches r2 s2 -> matches (Cat r1 r2) (s1 +:+ s2)
| MAltL r1 r2 s : matches r1 s -> matches (Alt r1 r2) s
| MAltR r1 r2 s : matches r2 s -> matches (Alt r1 r2) s
| MStar0 r : matches (Star r) ""
| MStarS r s1 s2 :
    matches r s1 -> matches (Star r) s2 -> matches (Star r) (s1 +:+ s2).

End Regex.

(** ** String predicates used by the statements *)

(** [sub] occurs somewhere in [s]. *)
Definition contains (sub s : string) : Prop :=
  exists pre post, s = pre +:+ sub +:+ post.

(** Every character of [s] satisfies [p]. *)
Fixpoint all_chars (p : ascii -> bool) (s : string) : bool :=
  match s with
  | EmptyString => true
  | String c s' => p c && all_chars p s'
  end.

(** [drop_prefix pre s = Some rest] iff [s] is [pre] followed by [rest]. *)
Fixpoint drop_prefix (pre s : string) : option string :=
  match pre, s with
  | EmptyString, _ => Some s
  | String a pre', String b s' =>
      if Ascii.eqb a b then drop_prefix pre' s' else None
  | String _ _, EmptyString => None
  end.

(** [String.prototype.startsWith]. *)
Definition startsWith (s pre : string) : bool :=
  match drop_prefix pre s with
  | Some _ => true
  | None => false
  end.

(** [String.prototype.replace] with a string pattern and a replacement
    free of [$]: the first occurrence only. *)
Fixpoint replace_first (s pat rep : string) : string :=
  match drop_prefix pat s with
  | Some rest => rep +:+ rest
  | None =>
      match s with
      | EmptyString => EmptyString
      | String c s' => String c (replace_first s' pat rep)
      end
  end.

(** [String.prototype.toLowerCase] as it acts on ASCII text, where it
    changes the letters A to Z only. *)
Definition lower_char (c : ascii) : ascii :=
  let n := nat_of_ascii c in
  if (65 <=? n)%nat && (n <=? 90)%nat then ascii_of_nat (n + 32) else c.

Fixpoint toLowerCase (s : string) : string :=
  match s with
  | EmptyString => EmptyString
  | String c s' => String (lower_char c) (toLowerCase s')
  end.

(** [s] holds no line terminator: neither LF nor CR, nor U+2028 nor U+2029,
    which are the characters [E2 80 A8] and [E2 80 A9] of the three-byte
    characters that [E2] leads. *)
Fixpoint single_line (s : string) : bool :=
  match s with
  | EmptyString => true
  | String c s' =>
      if Ascii.eqb c "226" then
        match s' with
        | String c1 (String c2 s'') =>
            Regex.continuation c1 && Regex.continuation c2
            && negb (Ascii.eqb c1 "128" && (Ascii.eqb c2 "168" || Ascii.eqb c2 "169"))
            && single_line s''
        | _ => false
        end
      else Regex.not_newline c && single_line s'
  end.

(** ** Name and archive-URL validators *)

(** [const invalidPattern = /[\/\\]|(\.\.)/] *)
Definition invalidPattern : Regex.RegExp :=
  Regex.mkRegExp false
    (Regex.Alt
       (Regex.Sym (fun c => Ascii.eqb c "/" || Ascii.eqb c "\"))
       (Regex.Lit ".."))
    false.

Definition validatePluginName (pluginName : string) : bool :=
  negb (Regex.test invalidPattern pluginName).

(** The shape shared by the three provider patterns,
    [^https:\/\/HOST\/[^/]+\/[^/]+\/(K1|K2)\/.*$]. *)
Definition providerRegex (host k1 k2 : string) : Regex.RegExp :=
  Regex.mkRegExp true
    (Regex.Cat (Regex.Lit ("https://" +:+ host +:+ "/"))
    (Regex.Cat (Regex.Plus (Regex.Sym Regex.not_slash))
    (Regex.Cat (Regex.Chr "/")
    (Regex.Cat (Regex.Plus (Regex.Sym Regex.not_slash))
    (Regex.Cat (Regex.Chr "/")
    (Regex.Cat (Regex.Alt (Regex.Lit k1) (Regex.Lit k2))
    (Regex.Cat (Regex.Chr "/")
               (Regex.Star Regex.dot))))))))
    true.

Definition githubRegex : Regex.RegExp :=
  providerRegex "github.com" "releases" "archive".
Definition bitbucketRegex : Regex.RegExp :=
  providerRegex "bitbucket.org" "downloads" "get".
Definition gitlabRegex : Regex.RegExp :=
  providerRegex "gitlab.com" "-/archive" "releases".

Definition fixturePrefix : string :=
  "https://github.com/yolossn/headlamp-plugins/".

Definition validateArchiveURL (archiveURL : string) : bool :=
  Regex.test githubRegex archiveURL
  || Regex.test bitbucketRegex archiveURL
  || Regex.test gitlabRegex archiveURL
  || startsWith archiveURL fixturePrefix.

(** The allow-list in the words of the specification: a release or archive
    endpoint [https://HOST/<owner>/<repo>/<kind>/<rest>] of one of the three
    providers, on one line, or anything under the pinned fixture origin. *)
Definition hosted (host : string) (kinds : list string) (url : string) : Prop :=
  exists owner repo kind rest,
    url = "https://" +:+ host +:+ "/" +:+ owner +:+ "/" +:+ repo +:+ "/"
          +:+ kind +:+ "/" +:+ rest
    /\ owner <> "" /\ all_chars Regex.not_slash owner = true
    /\ repo <> "" /\ all_chars Regex.not_slash repo = true
    /\ In kind kinds
    /\ single_line rest = true.

Definition allow_listed (url : string) : Prop :=
  hosted "github.com" ["releases"; "archive"] url
  \/ hosted "bitbucket.org" ["downloads"; "get"] url
  \/ hosted "gitlab.com" ["-/archive"; "releases"] url
  \/ exists rest, url = fixturePrefix +:+ rest.

(** ** SHA-256 and hexadecimal digests

    [crypto.createHash('sha256').update(buf).digest('hex')], after
    FIPS 180-4, on 32-bit words held in [N]. *)

Module SHA256.
Local Open Scope N_scope.

Definition wrap32 (x : N) : N := x mod 2 ^ 32.
Definition add32 (x y : N) : N := wrap32 (x + y).
Definition rotr (n x : N) : N :=
  N.lor (N.shiftr x n) (wrap32 (N.shiftl x (32 - n))).
Definition not32 (x : N) : N := N.lxor x 0xffffffff.

Definition Ch (x y z : N) : N := N.lxor (N.land x y) (N.land (not32 x) z).
Definition Maj (x y z : N) : N :=
  N.lxor (N.lxor (N.land x y) (N.land x z)) (N.land y z).
Definition bsig0 (x : N) : N := N.lxor (N.lxor (rotr 2 x) (rotr 13 x)) (rotr 22 x).
Definition bsig1 (x : N) : N := N.lxor (N.lxor (rotr 6 x) (rotr 11 x)) (rotr 25 x).
Definition ssig0 (x : N) : N := N.lxor (N.lxor (rotr 7 x) (rotr 18 x)) (N.shiftr x 3).
Definition ssig1 (x : N) : N := N.lxor (N.lxor (rotr 17 x) (rotr 19 x)) (N.shiftr x 10).

(** The first sixty-four primes. *)
Definition primes : list N :=
  [ 2; 3; 5; 7; 11; 13; 17; 19; 23; 29; 31; 37; 41; 43; 47; 53; 59; 61; 67;
    71; 73; 79; 83; 89; 97; 101; 103; 107; 109; 113; 127; 131; 137; 139; 149;
    151; 157; 163; 167; 173; 179; 181; 191; 193; 197; 199; 211; 223; 227; 229;
    233; 239; 241; 251; 257; 263; 269; 271; 277; 281; 283; 293; 307; 311 ].

(** The integer cube root, bit by bit from bit [bits - 1] down. *)
Fixpoint cube_root (bits : nat) (n r : N) : N :=
  match bits with
  | O => r
  | S b =>
      let c := r + 2 ^ N.of_nat b in
      cube_root b n (if c * c * c <=? n then c else r)
  end.

(** The round constants: the first 32 bits of the fractional parts of the
    cube roots of the primes. *)
Definition K : list N :=
  Eval vm_compute in map (fun p => wrap32 (cube_root 36 (p * 2 ^ 96) 0)) primes.

(** The initial hash value: the first 32 bits of the fractional parts of the
    square roots of the first eight primes. *)
Definition H0 : list N :=
  Eval vm_compute in map (fun p => wrap32 (N.sqrt (p * 2 ^ 64))) (firstn 8 primes).

(** Big-endian bytes of the low [8 * n] bits of [x]. *)
Fixpoint be_bytes (n : nat) (x : N) : list N :=
  match n with
  | O => []
  | S n' => be_bytes n' (N.shiftr x 8) ++ [x mod 256]
  end.

(** Padding: a [1] bit, zeros up to 56 modulo 64 bytes, then the bit
    length as a 64-bit big-endian integer. *)
Definition pad (msg : list N) : list N :=
  let len := N.of_nat (length msg) in
  let zeros := N.to_nat ((119 - len mod 64) mod 64) in
  msg ++ [0x80] ++ repeat 0 zeros ++ be_bytes 8 (8 * len).

Fixpoint words (fuel : nat) (bs : list N) : list N :=
  match fuel, bs with
  | S f, b0 :: b1 :: b2 :: b3 :: rest =>
      (N.shiftl b0 24 + N.shiftl b1 16 + N.shiftl b2 8 + b3) :: words f rest
  | _, _ => []
  end.

Fixpoint blocks (fuel : nat) (ws : list N) : list (list N) :=
  match fuel, ws with
  | S f, _ :: _ => firstn 16 ws :: blocks f (skipn 16 ws)
  | _, _ => []
  end.

(** The message schedule, most recent word first. *)
Fixpoint schedule (n : nat) (rev_w : list N) : list N :=
  match n with
  | O => rev_w
  | S n' =>
      let w := add32 (add32 (ssig1 (nth 1 rev_w 0)) (nth 6 rev_w 0))
                     (add32 (ssig0 (nth 14 rev_w 0)) (nth 15 rev_w 0)) in
      schedule n' (w :: rev_w)
  end.

Definition round (st : list N) (kw : N * N) : list N :=
  match st with
  | [a; b; c; d; e; f; g; h] =>
      let t1 := add32 (add32 (add32 h (bsig1 e)) (add32 (Ch e f g) (fst kw))) (snd kw) in
      let t2 := add32 (bsig0 a) (Maj a b c) in
      [add32 t1 t2; a; b; c; add32 d t1; e; f; g]
  | _ => st
  end.

Definition compress (h : list N) (block : list N) : list N :=
  let w := rev (schedule 48 (rev block)) in
  let st := fold_left round (combine K w) h in
  map (fun p => add32 (fst p) (snd p)) (combine h st).

Definition digest_words (msg : list N) : list N :=
  let p := pad msg in
  let ws := words (length p) p in
  fold_left compress (blocks (length ws) ws) H0.

(** The 32 digest bytes. *)
Definition digest (msg : list Byte.byte) : list N :=
  flat_map (be_bytes 4) (digest_words (map Byte.to_N msg)).

Definition hex_digit (n : N) : ascii :=
  match n with
  | 0 => "0" | 1 => "1" | 2 => "2" | 3 => "3" | 4 => "4" | 5 => "5"
  | 6 => "6" | 7 => "7" | 8 => "8" | 9 => "9" | 10 => "a" | 11 => "b"
  | 12 => "c" | 13 => "d" | 14 => "e" | _ => "f"
  end%char.

(** [digest('hex')]: two lowercase digits per byte. *)
Fixpoint hex (bs : list N) : string :=
  match bs with
  | [] => ""
  | b :: bs' => String (hex_digit (b / 16)) (String (hex_digit (b mod 16)) (hex bs'))
  end.

Definition sha256_hex (msg : list Byte.byte) : string := hex (digest msg).

End SHA256.

(** ** JavaScript values, JSON and errors *)

(** A parsed JSON document.  Numbers are kept to the integers. *)
Unset Elimination Schemes.
Inductive JSON : Type :=
| JNull
| JBool (b : bool)
| JNum (n : Z)
| JStr (s : string)
| JArr (items : list JSON)
| JObj (fields : list (string * JSON)).
Set Elimination Schemes.

(** A JavaScript value coming from JSON: [None] is [undefined]. *)
Abbreviation JsVal := (option JSON).

(** ToBoolean. *)
Definition truthy (v : JsVal) : bool :=
  match v with
  | None => false
  | Some JNull => false
  | Some (JBool b) => b
  | Some (JNum n) => negb (Z.eqb n 0)
  | Some (JStr s) => negb (String.eqb s "")
  | Some (JArr _) => true
  | Some (JObj _) => true
  end.

(** [a || b] *)
Definition js_or (a b : JsVal) : JsVal := if truthy a then a else b.

(** [v === s] for a string [s]. *)
Definition strict_eq_string (v : JsVal) (s : string) : bool :=
  match v with
  | Some (JStr t) => String.eqb t s
  | _ => false
  end.

Inductive JsError : Type :=
| Error (msg : string)
| TypeError (msg : string)
| SyntaxError (msg : string)
| AbortError
| SystemError (code : string).

(** [e.message] *)
Definition message (e : JsError) : string :=
  match e with
  | Error m => m
  | TypeError m => m
  | SyntaxError m => m
  | AbortError => "This operation was aborted"
  | SystemError code => code
  end.

Inductive Result (A : Type) : Type :=
| Ok (a : A)
| Throw (e : JsError).
Arguments Ok {A} a.
Arguments Throw {A} e.

Fixpoint assoc (k : string) (l : list (string * JSON)) : option JSON :=
  match l with
  | [] => None
  | (k', v) :: l' => if String.eqb k k' then Some v else assoc k l'
  end.

Fixpoint assoc_set (k : string) (v : JSON) (l : list (string * JSON))
  : list (string * JSON) :=
  match l with
  | [] => [(k, v)]
  | (k', v') :: l' =>
      if String.eqb k k' then (k, v) :: l' else (k', v') :: assoc_set k v l'
  end.

(** Property read [v.k].  The keys read by the program are own data
    properties only, so a primitive or an array has none of them. *)
Definition get_prop (v : JsVal) (k : string) : Result JsVal :=
  match v with
  | None =>
      Throw (TypeError ("Cannot read properties of undefined (reading '" +:+ k +:+ "')"))
  | Some JNull =>
      Throw (TypeError ("Cannot read properties of null (reading '" +:+ k +:+ "')"))
  | Some (JObj fields) => Ok (assoc k fields)
  | Some _ => Ok None
  end.

(** Property write [v.k = x] in strict mode, up to what [JSON.stringify]
    keeps of the result: a named property set on an array is not
    serialised. *)
Definition set_prop (v : JSON) (k : string) (x : JSON) : Result JSON :=
  match v with
  | JObj fields => Ok (JObj (assoc_set k x fields))
  | JArr items => Ok (JArr items)
  | JNull => Throw (TypeError ("Cannot set properties of null (setting '" +:+ k +:+ "')"))
  | _ => Throw (TypeError ("Cannot create property '" +:+ k +:+ "'"))
  end.

(** ** Paths *)

(** An absolute, normalised path: its segments from the root. *)
Abbreviation Path := (list string).

Fixpoint segments (s : string) : list string :=
  match s with
  | EmptyString => [""]
  | String c s' =>
      if Ascii.eqb c "/" then "" :: segments s'
      else match segments s' with
           | h :: t => String c h :: t
           | [] => [String c ""]
           end
  end.

Definition join_step (acc : Path) (seg : string) : Path :=
  if String.eqb seg "" || String.eqb seg "." then acc
  else if String.eqb seg ".." then removelast acc
  else acc ++ [seg].

(** POSIX [path.join(dir, s)] for an absolute normalised [dir]. *)
Definition path_join (dir : Path) (s : string) : Path :=
  fold_left join_step (segments s) dir.

(** POSIX [path.basename(s)]: the last non-empty segment. *)
Definition basename (s : string) : string :=
  List.last (filter (fun seg => negb (String.eqb seg "")) (segments s)) "".

(** A name a directory entry can have. *)
Definition valid_segment (n : string) : bool :=
  negb (String.eqb n "") && negb (String.eqb n ".") && negb (String.eqb n "..")
  && all_chars Regex.not_slash n.

(** [strip_prefix p k = Some q] iff [k = p ++ q]. *)
Fixpoint strip_prefix (p k : Path) : option Path :=
  match p, k with
  | [], _ => Some k
  | a :: p', b :: k' => if String.eqb a b then strip_prefix p' k' else None
  | _ :: _, [] => None
  end.

(** ** The file system *)

(** A file holds either a JSON document, kept as its parsed value, or text
    that [JSON.parse] rejects. *)
Inductive FileData : Type :=
| JsonDoc (v : JSON)
| Raw (text : string).

Inductive Node : Type :=
| NDir
| NFile (d : FileData).

(** The file system: a finite map from paths to nodes. *)
Abbreviation FS := (gmap (list string) Node).

(** The root always is a directory. *)
Definition node_at (fs : FS) (p : Path) : option Node :=
  match p with
  | [] => Some NDir
  | _ => fs !! p
  end.

Definition is_dir (fs : FS) (p : Path) : bool :=
  match node_at fs p with Some NDir => true | _ => false end.

(** The entries of directory [p]: name and whether it is a directory. *)
Definition children (fs : FS) (p : Path) : list (string * bool) :=
  omap (fun kn : Path * Node =>
          match strip_prefix p (fst kn) with
          | Some [n] => Some (n, match snd kn with NDir => true | NFile _ => false end)
          | _ => None
          end)
       (map_to_list fs).

(** The tree below (and including) [p], by paths relative to [p]. *)
Definition subtree (fs : FS) (p : Path) : list (Path * Node) :=
  omap (fun kn : Path * Node =>
          match strip_prefix p (fst kn) with
          | Some q => Some (q, snd kn)
          | None => None
          end)
       (map_to_list fs).

(** Recursive removal of [p]. *)
Definition rm_tree (p : Path) (fs : FS) : FS :=
  filter (fun kn : Path * Node => strip_prefix p (fst kn) = None) fs.

(** Every path of the file system is made of entry names. *)
Definition wf_fs (fs : FS) : Prop :=
  map_Forall (fun (p : Path) (_ : Node) => forallb valid_segment p = true) fs.

(** ** Pure file-system operations, after Node's [fs] module

    The failures are those that the file system itself decides (a missing
    path, a file where a directory is expected, ...).  For [rmSync], whose
    failure would leave a move half done, the platform may in addition stop
    the removal. *)

Definition ENOENT : JsError := SystemError "ENOENT".
Definition ENOTDIR : JsError := SystemError "ENOTDIR".
Definition EISDIR : JsError := SystemError "EISDIR".
Definition EEXIST : JsError := SystemError "EEXIST".
Definition EINVAL : JsError := SystemError "ERR_FS_CP_EINVAL".

Definition fs_exists (fs : FS) (p : Path) : bool :=
  match node_at fs p with Some _ => true | None => false end.

Definition fs_readFile (fs : FS) (p : Path) : Result FileData :=
  match node_at fs p with
  | None => Throw ENOENT
  | Some NDir => Throw EISDIR
  | Some (NFile d) => Ok d
  end.

Definition fs_readdir (fs : FS) (p : Path) : Result (list (string * bool)) :=
  match node_at fs p with
  | None => Throw ENOENT
  | Some (NFile _) => Throw ENOTDIR
  | Some NDir => Ok (children fs p)
  end.

(** [mkdirSync(p, {recursive: true})]: creates the missing directories along
    [p] and returns the first one created, if any. *)
Fixpoint mkdir_walk (fs : FS) (pre : Path) (rest : list string)
    (first : option Path) : Result (FS * option Path) :=
  match rest with
  | [] => Ok (fs, first)
  | seg :: rest' =>
      let p := pre ++ [seg] in
      match fs !! p with
      | Some NDir => mkdir_walk fs p rest' first
      | Some (NFile _) =>
          Throw (match rest' with [] => EEXIST | _ => ENOTDIR end)
      | None =>
          mkdir_walk (<[p := NDir]> fs) p rest'
                     (match first with None => Some p | Some _ => first end)
      end
  end.

Definition fs_mkdir_p (fs : FS) (p : Path) : Result (FS * option Path) :=
  mkdir_walk fs [] p None.

(** [mkdtempSync]: a new directory named by the prefix and the suffix the
    platform picked. *)
Definition fs_mkdtemp (fs : FS) (dir : Path) (prefix suffix : string)
  : Result (FS * Path) :=
  if is_dir fs dir then
    let p := dir ++ [prefix +:+ suffix] in
    match fs !! p with
    | Some _ => Throw EEXIST
    | None => Ok (<[p := NDir]> fs, p)
    end
  else Throw ENOENT.

(** [rmSync(p, {recursive: true})].  [stopped] is what the platform has to
    say of this removal: nothing, or the error that stops it (a permission,
    a lock) together with the entries below [p] that are still there when
    it does.  What a stopped removal has already removed stays removed. *)
Definition fs_rm (fs : FS) (p : Path) (stopped : option (JsError * (Path -> bool)))
  : FS * option JsError :=
  match node_at fs p with
  | None => (fs, Some ENOENT)
  | Some _ =>
      match stopped with
      | None => (rm_tree p fs, None)
      | Some (e, spared) =>
          (filter (fun kn : Path * Node =>
                     strip_prefix p (fst kn) = None \/ spared (fst kn) = true) fs,
           Some e)
      end
  end.

(** [rmdirSync(p, {recursive: true})] *)
Definition fs_rmdir (fs : FS) (p : Path) : Result FS :=
  match node_at fs p with
  | None => Throw ENOENT
  | Some (NFile _) => Throw ENOTDIR
  | Some NDir => Ok (rm_tree p fs)
  end.

Definition fs_writeFile (fs : FS) (p : Path) (d : FileData) : Result FS :=
  match p with
  | [] => Throw EISDIR
  | _ =>
      if is_dir fs (removelast p) then
        match fs !! p with
        | Some NDir => Throw EISDIR
        | _ => Ok (<[p := NFile d]> fs)
        end
      else Throw ENOENT
  end.

(** One entry of a recursive copy onto [dst], overwriting files
    ([force: true]); a directory never replaces a file, nor a file a
    directory.  Once an entry has failed nothing more is copied. *)
Definition cp_step (dst : Path) (acc : FS * option JsError) (e : Path * Node)
  : FS * option JsError :=
  match acc with
  | (fs, Some err) => (fs, Some err)
  | (fs, None) =>
      let t := dst ++ fst e in
      match snd e, node_at fs t with
      | NDir, Some (NFile _) => (fs, Some (SystemError "ERR_FS_CP_DIR_TO_NON_DIR"))
      | NFile _, Some NDir => (fs, Some (SystemError "ERR_FS_CP_NON_DIR_TO_DIR"))
      | n, _ => (<[t := n]> fs, None)
      end
  end.

(** [dst] lies strictly below [src]. *)
Definition strictly_below (src dst : Path) : bool :=
  match strip_prefix src dst with
  | Some (_ :: _) => true
  | _ => false
  end.

(** [cpSync(src, dst, {recursive: true, force: true})].  What a failed copy
    has already written stays. *)
Definition fs_cp (fs : FS) (src dst : Path) : FS * option JsError :=
  match node_at fs src with
  | None => (fs, Some ENOENT)
  | Some n =>
      if decide (src = dst) then (fs, Some EINVAL)
      else
        match n, node_at fs dst with
        | NDir, Some (NFile _) => (fs, Some (SystemError "ERR_FS_CP_DIR_TO_NON_DIR"))
        | NFile _, Some NDir => (fs, Some (SystemError "ERR_FS_CP_NON_DIR_TO_DIR"))
        | _, _ =>
            if strictly_below src dst then (fs, Some EINVAL)
            else
              match fs_mkdir_p fs (removelast dst) with
              | Throw e => (fs, Some e)
              | Ok (fs1, _) => fold_left (cp_step dst) (subtree fs src) (fs1, None)
              end
        end
  end.

(** Unpacking writes the archive's entries below [cwd]. *)
Definition fs_unpack (fs : FS) (cwd : Path) (entries : list (Path * Node)) : FS :=
  fold_left (fun acc (e : Path * Node) => <[cwd ++ fst e := snd e]> acc) entries fs.

(** ** Records of the program *)

Record PluginData : Type := mkPluginData {
  pluginName : JsVal;
  pluginTitle : JsVal;
  pluginVersion : JsVal;
  folderName : string;
  artifacthubURL : JsVal;
  repoName : JsVal;
  author : JsVal;
  artifacthubVersion : JsVal
}.

Record Repository : Type := mkRepository {
  repo_name : string;      (* repository.name *)
  user_alias : string
}.

(** Package metadata, at the type the source declares for it. *)
Record ArtifactHubHeadlampPkg : Type := mkPkg {
  name : string;
  display_name : string;
  repository : Repository;
  version : string;
  archiveURL : string;
  archiveChecksum : string;
  distroCompat : string;
  versionCompat : string
}.

Record ProgressResp : Type := mkProgress {
  pr_type : string;                        (* type *)
  pr_message : string;                     (* message *)
  pr_data : option (list PluginData)       (* data? *)
}.

(** An attached progress callback records the events it is handed.  The
    callbacks covered are those that return normally from every call and do
    nothing else to the run: they throw nothing, and they leave the signal
    and the file system alone. *)
Inductive ProgressCallback : Type := Recorder.

(** An [AbortSignal]: whether it has fired, at each instant. *)
Definition AbortSignal : Type := nat -> bool.

(** The body of an HTTP response: the chunks it yields and the error that
    ends the stream, if any. *)
Record BodyStream : Type := mkBody {
  chunks : list (list Byte.byte);
  stream_error : option JsError
}.

(** An HTTP response.  [resp_json] is what [response.json()] and the mapping
    of its fields onto [ArtifactHubHeadlampPkg] give: the package or the
    error either of them raises. *)
Record Response : Type := mkResponse {
  resp_ok : bool;
  resp_status : nat;
  resp_json : Result ArtifactHubHeadlampPkg;
  resp_body : option BodyStream
}.

(** What the program asks of the outside world. *)
Inductive Action : Type :=
| AFetch (url : string)         (* [fetch] called with this string *)
| AExists (p : Path)
| AReadFile (p : Path)
| AReaddir (p : Path)
| AMkdir (p : Path)
| AMkdtemp (dir : Path)
| ARmdir (p : Path)
| ARm (p : Path)
| ACp (src dst : Path)
| AWriteFile (p : Path)
| AExtract (cwd : Path).

(** ** The platform

    The libraries and the environment the module imports: [os], [semver],
    [tar] with [zlib], [env-paths], the process and the network. *)
Class Platform : Type := {
  os_tmpdir : Path;
  process_cwd : Path;
  (** the characters [mkdtemp] appends, given the current file system *)
  mkdtemp_suffix : FS -> string;
  (** what stops the recursive removal of a path, if anything does (a
      permission or a lock: [EACCES], [EPERM], [EBUSY]): the error thrown,
      and which of the entries below the path are still there when it is *)
  rm_stopped : FS -> Path -> option (JsError * (Path -> bool));
  (** the outcome of a request to a URL issued at an instant *)
  http : string -> nat -> Result Response;
  (** [semver.lte], [None] when it throws on an invalid version *)
  semver_lte : string -> string -> option bool;
  (** [semver.satisfies] *)
  semver_satisfies : string -> string -> bool;
  (** gunzip and untar with one leading path component stripped: the
      entries written, and the error of the tar stream that stopped the
      unpacking, if any *)
  tar_extract : list Byte.byte -> list (Path * Node) * option JsError;
  (** [envPaths('Headlamp', {suffix: ''})] *)
  env_data : Path;
  env_config : Path
}.

(** ** State and the monad of the program *)

Record State : Type := mkState {
  st_fs : FS;
  st_clock : nat;
  st_events : list ProgressResp;
  st_actions : list Action
}.

Definition M (A : Type) : Type := State -> Result A * State.

#[global] Instance M_ret : MRet M := fun A a st => (Ok a, st).
#[global] Instance M_bind : MBind M := fun A B f m st =>
  match m st with
  | (Ok a, st') => f a st'
  | (Throw e, st') => (Throw e, st')
  end.

Definition throw {A : Type} (e : JsError) : M A := fun st => (Throw e, st).

Definition lift {A : Type} (r : Result A) : M A := fun st => (r, st).

#[global] Instance Result_ret : MRet Result := fun A a => Ok a.
#[global] Instance Result_bind : MBind Result := fun A B f r =>
  match r with
  | Ok a => f a
  | Throw e => Throw e
  end.

(** [try { body } catch (e) { handler e }] *)
Definition try_catch {A : Type} (body : M A) (handler : JsError -> M A) : M A :=
  fun st =>
    match body st with
    | (Ok a, st') => (Ok a, st')
    | (Throw e, st') => handler e st'
    end.

Definition tick (st : State) : State :=
  mkState (st_fs st) (S (st_clock st)) (st_events st) (st_actions st).

(** [await m]: the continuation resumes at a later instant. *)
Definition await {A : Type} (m : M A) : M A :=
  fun st => let (r, st') := m st in (r, tick st').

Definition act (a : Action) : M unit :=
  fun st => (Ok tt, mkState (st_fs st) (st_clock st) (st_events st) (st_actions st ++ [a])).

Definition set_fs (fs : FS) : M unit :=
  fun st => (Ok tt, mkState fs (st_clock st) (st_events st) (st_actions st)).

Definition get_fs : M FS := fun st => (Ok (st_fs st), st).

Definition get_clock : M nat := fun st => (Ok (st_clock st), st).

(** Calling the progress callback: the event is recorded and the call
    returns. *)
Definition call (cb : ProgressCallback) (p : ProgressResp) : M unit :=
  fun st => (Ok tt, mkState (st_fs st) (st_clock st) (st_events st ++ [p]) (st_actions st)).

(** [if (progressCallback) { progressCallback(p) }] *)
Definition notify (progressCallback : option ProgressCallback) (p : ProgressResp) : M unit :=
  match progressCallback with
  | Some cb => call cb p
  | None => mret tt
  end.

Definition info (m : string) : ProgressResp := mkProgress "info" m None.
Definition success (m : string) : ProgressResp := mkProgress "success" m None.
Definition error (m : string) : ProgressResp := mkProgress "error" m None.

(** The handler shared by the operations:
    [if (progressCallback) progressCallback({type: 'error', ...}) else throw e]. *)
Definition report (progressCallback : option ProgressCallback) (e : JsError) : M unit :=
  match progressCallback with
  | Some cb => call cb (error (message e))
  | None => throw e
  end.

(** Whether [signal] is there and has fired at instant [t]. *)
Definition fired_at (signal : option AbortSignal) (t : nat) : bool :=
  match signal with
  | Some s => s t
  | None => false
  end.

(** [signal && signal.aborted] *)
Definition aborted (signal : option AbortSignal) : M bool :=
  fun st => (Ok (fired_at signal (st_clock st)), st).

(** ** File-system and network calls *)

Definition existsSync (p : Path) : M bool :=
  act (AExists p);; fs ← get_fs; mret (fs_exists fs p).

Definition readFileSync (p : Path) : M FileData :=
  act (AReadFile p);; fs ← get_fs; lift (fs_readFile fs p).

Definition JSON_parse (d : FileData) : M JSON :=
  match d with
  | JsonDoc v => mret v
  | Raw _ => throw (SyntaxError "Unexpected token in JSON")
  end.

Definition readdirSync (p : Path) : M (list (string * bool)) :=
  act (AReaddir p);; fs ← get_fs; lift (fs_readdir fs p).

Definition mkdirSync (p : Path) : M (option Path) :=
  act (AMkdir p);; fs ← get_fs;
  r ← lift (fs_mkdir_p fs p);
  set_fs (fst r);; mret (snd r).

Definition rmdirSync (p : Path) : M unit :=
  act (ARmdir p);; fs ← get_fs; fs' ← lift (fs_rmdir fs p); set_fs fs'.

Definition rmSync `{Platform} (p : Path) : M unit :=
  act (ARm p);; fs ← get_fs;
  let r := fs_rm fs p (rm_stopped fs p) in
  set_fs (fst r);;
  match snd r with
  | Some e => throw e
  | None => mret tt
  end.

Definition cpSync (src dst : Path) : M unit :=
  act (ACp src dst);; fs ← get_fs;
  let r := fs_cp fs src dst in
  set_fs (fst r);;
  match snd r with
  | Some e => throw e
  | None => mret tt
  end.

Definition writeFileSync (p : Path) (d : FileData) : M unit :=
  act (AWriteFile p);; fs ← get_fs; fs' ← lift (fs_writeFile fs p d); set_fs fs'.

(** ** The program *)

Section Program.
Context `{Platform}.

(** [fetch(url, {redirect: 'follow', signal})], awaited.  By the Fetch
    standard a signal that has already fired rejects the call at once,
    with no request made.  [AFetch url] records the call and the string it
    is handed; which requests that string leads to, once its dot segments
    are resolved and redirects followed, is the platform's part, and [http]
    gives their outcome. *)
Definition fetch (url : string) (signal : option AbortSignal) : M Response :=
  await (
    a ← aborted signal;
    if a : bool then throw AbortError
    else
      act (AFetch url);;
      now ← get_clock;
      lift (http url now)).

Definition mkdtempSync (dir : Path) (prefix : string) : M Path :=
  act (AMkdtemp dir);; fs ← get_fs;
  r ← lift (fs_mkdtemp fs dir prefix (mkdtemp_suffix fs));
  set_fs (fst r);; mret (snd r).

(** The archive bytes piped through gunzip into [tar.extract] with
    [strip: 1], until the tar stream finishes or fails (lines 505-520).  The
    promise that the source awaits is settled by the tar stream alone, and
    the error of [tar_extract] is the one that stream emits.  An error of
    the gunzip stage, to which the source does not listen, would leave the
    promise pending for ever: the runs covered are those in which it is
    settled. *)
Definition tarExtract (archBuffer : list Byte.byte) (cwd : Path) : M unit :=
  act (AExtract cwd);; fs ← get_fs;
  let r := tar_extract archBuffer in
  set_fs (fs_unpack fs cwd (fst r));;
  match snd r with
  | Some e => throw e
  | None => mret tt
  end.

(** [moveDirs]: lines 74-83. *)
Definition moveDirs (currentPath newPath : Path) : M unit :=
  try_catch
    (cpSync currentPath newPath;;
     rmSync currentPath)
    (fun err => throw err).

(** An [fs] call handed the empty string finds no file. *)
Definition at_path {A : Type} (p : option Path) (k : Path -> M A) : M A :=
  match p with
  | Some q => k q
  | None => throw ENOENT
  end.

(** [checkValidPluginFolder]: lines 599-616. *)
Definition checkValidPluginFolder (folder : Path) : M bool :=
  e ← existsSync folder;
  if negb e then mret false
  else
    let mainJsPath := path_join folder "main.js" in
    let packageJsonPath := path_join folder "package.json" in
    e1 ← existsSync mainJsPath;
    missing ← (if negb e1 then mret true
               else e2 ← existsSync packageJsonPath; mret (negb e2));
    if missing : bool then mret false
    else
      d ← readFileSync packageJsonPath;
      packageJSON ← JSON_parse d;
      flag ← lift (get_prop (Some packageJSON) "isManagedByHeadlampPlugin");
      if truthy flag then mret true else mret false.

(** [defaultPluginsDir]: lines 626-630. *)
Definition defaultPluginsDir : M Path :=
  e ← existsSync env_data;
  let configDir := if e : bool then env_data else env_config in
  mret (path_join configDir "plugins").

Definition artifacthubPrefix : string := "https://artifacthub.io/packages/headlamp/".
Definition artifacthubApiPrefix : string :=
  "https://artifacthub.io/api/v1/packages/headlamp/".

(** The error of line 554. *)
Definition invalidURL : JsError :=
  Error "Invalid URL. Please provide a valid URL from ArtifactHub.".

(** The receiver of [URL.startsWith(...)]. *)
Definition string_receiver (v : JsVal) : Result string :=
  match v with
  | Some (JStr s) => Ok s
  | None => Throw (TypeError "Cannot read properties of undefined (reading 'startsWith')")
  | Some JNull => Throw (TypeError "Cannot read properties of null (reading 'startsWith')")
  | Some _ => Throw (TypeError "URL.startsWith is not a function")
  end.

(** [fetchPluginInfo]: lines 551-589. *)
Definition fetchPluginInfo (URL : JsVal)
    (progressCallback : option ProgressCallback)
    (signal : option AbortSignal) : M ArtifactHubHeadlampPkg :=
  try_catch
    (url ← lift (string_receiver URL);
     if negb (startsWith url artifacthubPrefix)
     then throw invalidURL
     else
       let apiURL := replace_first url artifacthubPrefix artifacthubApiPrefix in
       notify progressCallback (info "Fetching Plugin Metadata");;
       response ← fetch apiURL signal;
       if negb (resp_ok response)
       then throw (Error ("HTTP error! status: " +:+ pretty (resp_status response)))
       else
         pkg ← await (lift (resp_json response));
         mret pkg)
    (fun e =>
       notify progressCallback (error (message e));;
       throw e).

(** [if (signal && signal.aborted) throw new Error('Download cancelled')] *)
Definition checkCancelled (signal : option AbortSignal) : M unit :=
  a ← aborted signal;
  if a : bool then throw (Error "Download cancelled") else mret tt.

(** Lines 426-429. *)
Definition stripChecksumPrefix (checksum : string) : string :=
  if startsWith checksum "sha256:" || startsWith checksum "SHA256:"
  then replace_first (replace_first checksum "sha256:" "") "SHA256:" ""
  else checksum.

Definition is_empty (s : string) : bool := String.eqb s "".

(** [downloadExtractArchive], lines 407-447: the checks made before
    anything is created or fetched.  Gives the plugin name, the archive
    URL and the checksum to compare with. *)
Definition da_validate (pluginInfo : option ArtifactHubHeadlampPkg)
    (headlampVersion : string)
    (progressCallback : option ProgressCallback)
    (signal : option AbortSignal) : M (ArtifactHubHeadlampPkg * string) :=
  checkCancelled signal;;
  pkg ← match pluginInfo with
        | Some pkg => mret pkg
        | None => throw (TypeError "Cannot read properties of undefined (reading 'name')")
        end;
  let pluginName := name pkg in
  if negb (validatePluginName pluginName)
  then throw (Error "Invalid plugin name")
  else
    let archiveURL := archiveURL pkg in
    if negb (validateArchiveURL archiveURL)
    then throw (Error ("Invalid plugin/archive-url:" +:+ archiveURL))
    else
      let checksum := archiveChecksum pkg in
      if is_empty archiveURL || is_empty checksum
      then throw (Error "Invalid plugin metadata. Please check the plugin details.")
      else
        let checksum := stripChecksumPrefix checksum in
        (if negb (is_empty headlampVersion)
         then
           notify progressCallback (info "Checking compatibility with Headlamp version");;
           if semver_satisfies headlampVersion (versionCompat pkg)
           then notify progressCallback (info "Headlamp version is compatible")
           else throw (Error "Headlamp version is not compatible with the plugin")
         else mret tt);;
        checkCancelled signal;;
        mret (pkg, checksum).

(** [for await (const chunk of archResponse.body)] *)
Fixpoint read_chunks (cs : list (list Byte.byte)) (end_error : option JsError)
    (archChunks : list (list Byte.byte)) : M (list (list Byte.byte)) :=
  match cs with
  | [] =>
      await (match end_error with
             | Some e => throw e
             | None => mret archChunks
             end)
  | chunk :: cs' =>
      await (mret tt);;
      read_chunks cs' end_error (archChunks ++ [chunk])
  end.

(** Lines 449-487: the temporary folder and the download.  Gives
    [tempFolder] ([None] for the empty string) and [archBuffer]. *)
Definition da_download (pkg : ArtifactHubHeadlampPkg)
    (progressCallback : option ProgressCallback)
    (signal : option AbortSignal) : M (option Path * list Byte.byte) :=
  tempDir ← await (mkdtempSync os_tmpdir "headlamp-plugin-temp-");
  tempFolder ← mkdirSync (path_join tempDir (name pkg));
  notify progressCallback (info "Downloading Plugin");;
  checkCancelled signal;;
  archResponse ← fetch (archiveURL pkg) signal;
  if negb (resp_ok archResponse)
  then throw (Error ("Failed to download tarball. Status code: "
                     +:+ pretty (resp_status archResponse)))
  else
    checkCancelled signal;;
    notify progressCallback (info "Plugin Downloaded");;
    match resp_body archResponse with
    | None => throw (Error "Download empty")
    | Some body =>
        archChunks ← read_chunks (chunks body) (stream_error body) [];
        let archBuffer := concat archChunks in
        mret (tempFolder, archBuffer)
    end.

(** Lines 489-493: the checksum gate. *)
Definition da_verify (archBuffer : list Byte.byte) (checksum : string) : M unit :=
  let archiveChecksum := SHA256.sha256_hex archBuffer in
  if negb (String.eqb archiveChecksum checksum)
  then throw (Error "Checksum mismatch.")
  else mret tt.

Definition artifacthubRecord (pkg : ArtifactHubHeadlampPkg) : JSON :=
  JObj [ ("name", JStr (name pkg));
         ("title", JStr (display_name pkg));
         ("url", JStr ("https://artifacthub.io/packages/headlamp/"
                       +:+ repo_name (repository pkg) +:+ "/" +:+ name pkg));
         ("version", JStr (version pkg));
         ("repoName", JStr (repo_name (repository pkg)));
         ("author", JStr (user_alias (repository pkg))) ].

(** [`${tempFolder}/package.json`] *)
Definition manifestIn (tempFolder : option Path) : Path :=
  match tempFolder with
  | Some t => t ++ ["package.json"]
  | None => ["package.json"]
  end.

(** Lines 495-541: extraction and the provenance stamp. *)
Definition da_extract (pkg : ArtifactHubHeadlampPkg)
    (tempFolder : option Path) (archBuffer : list Byte.byte)
    (progressCallback : option ProgressCallback)
    (signal : option AbortSignal) : M (string * option Path) :=
  checkCancelled signal;;
  notify progressCallback (info "Extracting Plugin");;
  await (tarExtract archBuffer
           (match tempFolder with Some t => t | None => process_cwd end));;
  checkCancelled signal;;
  notify progressCallback (info "Plugin Extracted");;
  d ← readFileSync (manifestIn tempFolder);
  packageJSON ← JSON_parse d;
  packageJSON ← lift (set_prop packageJSON "artifacthub" (artifacthubRecord pkg));
  packageJSON ← lift (set_prop packageJSON "isManagedByHeadlampPlugin" (JBool true));
  writeFileSync (manifestIn tempFolder) (JsonDoc packageJSON);;
  mret (name pkg, tempFolder).

(** [downloadExtractArchive]: lines 401-542. *)
Definition downloadExtractArchive (pluginInfo : option ArtifactHubHeadlampPkg)
    (headlampVersion : string)
    (progressCallback : option ProgressCallback)
    (signal : option AbortSignal) : M (string * option Path) :=
  v ← da_validate pluginInfo headlampVersion progressCallback signal;
  d ← da_download (fst v) progressCallback signal;
  da_verify (snd d) (snd v);;
  da_extract (fst v) (fst d) (snd d) progressCallback signal.

End Program.

Definition extracting (a : Action) : Prop :=
  match a with
  | AExtract _ => True
  | _ => False
  end.

Definition not_extracting (a : Action) : Prop := ~ extracting a.

(** Between [st] and [st'] the archive was handed to the extractor. *)
Definition extracted (st st' : State) : Prop :=
  exists pre cwd post, st_actions st' = st_actions st ++ pre ++ AExtract cwd :: post.

(** The outcome of [checkValidPluginFolder] as a function of the file
    system alone. *)
Definition folder_validity (fs : FS) (folder : Path) : Result bool :=
  if negb (fs_exists fs folder) then Ok false
  else if negb (fs_exists fs (path_join folder "main.js")) then Ok false
  else if negb (fs_exists fs (path_join folder "package.json")) then Ok false
  else
    d ← fs_readFile fs (path_join folder "package.json");
    match d with
    | Raw _ => Throw (SyntaxError "Unexpected token in JSON")
    | JsonDoc v =>
        flag ← get_prop (Some v) "isManagedByHeadlampPlugin";
        Ok (truthy flag)
    end.

(** Entry [f] of [folder] is a valid plugin folder. *)
Definition is_valid (fs : FS) (folder : Path) (f : string) : bool :=
  match folder_validity fs (path_join folder f) with
  | Ok true => true
  | _ => false
  end.

(** The names of the sub-directories of [folder], in directory order. *)
Definition directories (fs : FS) (folder : Path) : list string :=
  map fst (filter (fun e : string * bool => snd e) (children fs folder)).

(** The [options] of the static [fetchPluginInfo]; a field left out is
    [None]. *)
Record FetchOptions : Type := mkFetchOptions {
  opt_progressCallback : option ProgressCallback;
  opt_signal : option AbortSignal
}.

(** ** [class PluginManager] *)

Module PluginManager.
Section Operations.
Context `{Platform}.

(** Lines 313-332: the entry pushed for a valid plugin folder. *)
Definition pluginEntry (packageJson : JSON) (pluginFolder : string)
  : Result PluginData :=
  nm ← get_prop (Some packageJson) "name";
  let pluginName := js_or nm (Some (JStr pluginFolder)) in
  artifacthub ← get_prop (Some packageJson) "artifacthub";
  pluginTitle ← get_prop artifacthub "title";
  ver ← get_prop (Some packageJson) "version";
  let pluginVersion := js_or ver (Some JNull) in
  artifacthubURL ←
    (if truthy artifacthub then get_prop artifacthub "url" else Ok (Some JNull));
  repoName ←
    (if truthy artifacthub then get_prop artifacthub "repoName" else Ok (Some JNull));
  author ←
    (if truthy artifacthub then get_prop artifacthub "author" else Ok (Some JNull));
  artifacthubVersion ←
    (if truthy artifacthub then get_prop artifacthub "version" else Ok (Some JNull));
  mret (mkPluginData pluginName pluginTitle pluginVersion pluginFolder
                     artifacthubURL repoName author artifacthubVersion).

(** Lines 306-334: [for (const pluginFolder of pluginFolders)]. *)
Fixpoint list_loop (folder : Path) (pluginFolders : Datatypes.list string)
    (pluginsData : Datatypes.list PluginData) : M (Datatypes.list PluginData) :=
  match pluginFolders with
  | [] => mret pluginsData
  | pluginFolder :: rest =>
      let pluginDir := path_join folder pluginFolder in
      valid ← checkValidPluginFolder pluginDir;
      pluginsData' ←
        (if valid : bool
         then
           let packageJsonPath := path_join pluginDir "package.json" in
           d ← readFileSync packageJsonPath;
           packageJson ← JSON_parse d;
           entry ← lift (pluginEntry packageJson pluginFolder);
           mret (pluginsData ++ [entry])
         else mret pluginsData);
      list_loop folder rest pluginsData'
  end.

(** [PluginManager.list]: lines 295-348.  [None] is [undefined]. *)
Definition list (folder : Path) (progressCallback : option ProgressCallback)
  : M (option (Datatypes.list PluginData)) :=
  try_catch
    (entries ← readdirSync folder;
     let pluginFolders := map fst (filter (fun e : string * bool => snd e) entries) in
     pluginsData ← list_loop folder pluginFolders [];
     match progressCallback with
     | Some cb =>
         call cb (mkProgress "success" "Plugins Listed" (Some pluginsData));;
         mret None
     | None => mret (Some pluginsData)
     end)
    (fun e => report progressCallback e;; mret None).

(** [installedPlugins.find(p => p.pluginName === pluginName)], after the
    [if (!installedPlugins)] guard. *)
Definition findInstalled (installedPlugins : option (Datatypes.list PluginData))
    (wanted : string) : M PluginData :=
  match installedPlugins with
  | None => throw (Error "InstalledPlugins not found")
  | Some plugins =>
      match List.find (fun p => strict_eq_string (pluginName p) wanted) plugins with
      | None => throw (Error "Plugin not found")
      | Some plugin => mret plugin
      end
  end.

(** [if (!fs.existsSync(d)) fs.mkdirSync(d, {recursive: true})] *)
Definition ensureDir (d : Path) : M unit :=
  e ← existsSync d;
  if e : bool then mret tt else (mkdirSync d;; mret tt).

(** [PluginManager.installFromPluginPkg]: lines 131-164. *)
Definition installFromPluginPkg (pluginData : option ArtifactHubHeadlampPkg)
    (destinationFolder : Path) (headlampVersion : string)
    (progressCallback : option ProgressCallback)
    (signal : option AbortSignal) : M unit :=
  try_catch
    (r ← await (downloadExtractArchive pluginData headlampVersion
                                       progressCallback signal);
     let nm := fst r in
     let tempFolder := snd r in
     ensureDir destinationFolder;;
     at_path tempFolder
       (fun t => moveDirs t (path_join destinationFolder (basename nm)));;
     notify progressCallback (success "Plugin Installed"))
    (report progressCallback).

(** [PluginManager.install]: lines 95-120. *)
Definition install (URL : string) (destinationFolder : Path)
    (headlampVersion : string)
    (progressCallback : option ProgressCallback)
    (signal : option AbortSignal) : M unit :=
  pluginInfo ←
    try_catch
      (p ← await (fetchPluginInfo (Some (JStr URL)) progressCallback signal);
       mret (Some p))
      (fun e => report progressCallback e;; mret None);
  installFromPluginPkg pluginInfo destinationFolder headlampVersion
                       progressCallback signal.

(** [semver.lte(latestVersion, currentVersion)] on what the manifest
    holds: anything but a string is refused with a [TypeError]. *)
Definition semver_lte_js (latestVersion : string) (currentVersion : JsVal)
  : Result bool :=
  match currentVersion with
  | Some (JStr cur) =>
      match semver_lte latestVersion cur with
      | Some b => Ok b
      | None => Throw (TypeError "Invalid Version")
      end
  | _ => Throw (TypeError "Invalid version. Must be a string.")
  end.

(** [PluginManager.update], lines 186-203: the installed plugin, its
    directory, the registry's metadata and the installed version. *)
Definition update_lookup (wanted : string) (destinationFolder : Path)
    (progressCallback : option ProgressCallback)
    (signal : option AbortSignal)
  : M (Path * ArtifactHubHeadlampPkg * JsVal) :=
  installedPlugins ← list destinationFolder None;
  plugin ← findInstalled installedPlugins wanted;
  let pluginDir := path_join destinationFolder (folderName plugin) in
  let packageJsonPath := path_join pluginDir "package.json" in
  d ← readFileSync packageJsonPath;
  packageJson ← JSON_parse d;
  pluginData ← await (fetchPluginInfo (artifacthubURL plugin) progressCallback signal);
  artifacthub ← lift (get_prop (Some packageJson) "artifacthub");
  currentVersion ← lift (get_prop artifacthub "version");
  mret (pluginDir, pluginData, currentVersion).

(** Lines 210-234: download, then replace the plugin folder. *)
Definition update_replace (pluginDir : Path) (pluginData : ArtifactHubHeadlampPkg)
    (destinationFolder : Path) (headlampVersion : string)
    (progressCallback : option ProgressCallback)
    (signal : option AbortSignal) : M unit :=
  r ← await (downloadExtractArchive (Some pluginData) headlampVersion
                                    progressCallback signal);
  let tempFolder := snd r in
  ensureDir destinationFolder;;
  rmdirSync pluginDir;;
  mkdirSync pluginDir;;
  at_path tempFolder (fun t => moveDirs t pluginDir);;
  notify progressCallback (success "Plugin Updated").

(** The [try] block of [update]: lines 184-234. *)
Definition update_try (wanted : string) (destinationFolder : Path)
    (headlampVersion : string)
    (progressCallback : option ProgressCallback)
    (signal : option AbortSignal) : M unit :=
  l ← update_lookup wanted destinationFolder progressCallback signal;
  let pluginDir := fst (fst l) in
  let pluginData := snd (fst l) in
  let latestVersion := version pluginData in
  let currentVersion := snd l in
  lte ← lift (semver_lte_js latestVersion currentVersion);
  if lte : bool
  then throw (Error "No updates available")
  else update_replace pluginDir pluginData destinationFolder headlampVersion
                      progressCallback signal.

(** [PluginManager.update]: lines 177-242. *)
Definition update (wanted : string) (destinationFolder : Path)
    (headlampVersion : string)
    (progressCallback : option ProgressCallback)
    (signal : option AbortSignal) : M unit :=
  try_catch
    (update_try wanted destinationFolder headlampVersion progressCallback signal)
    (report progressCallback).

(** The [try] block of [uninstall]: lines 256-279. *)
Definition uninstall_try (wanted : string) (folder : Path)
    (progressCallback : option ProgressCallback) : M unit :=
  installedPlugins ← list folder None;
  plugin ← findInstalled installedPlugins wanted;
  let pluginDir := path_join folder (folderName plugin) in
  valid ← checkValidPluginFolder pluginDir;
  if negb valid
  then throw (Error "Invalid plugin folder")
  else
    e ← existsSync pluginDir;
    (if e : bool then rmdirSync pluginDir else throw (Error "Plugin not found"));;
    notify progressCallback (success "Plugin Uninstalled").

(** [PluginManager.uninstall]: lines 251-287. *)
Definition uninstall (wanted : string) (folder : Path)
    (progressCallback : option ProgressCallback) : M unit :=
  try_catch (uninstall_try wanted folder progressCallback)
            (report progressCallback).

(** The static [PluginManager.fetchPluginInfo]: lines 350-356.  [options]
    defaults to [{}] and each of its two fields to [null]. *)
Definition fetchPluginInfo (URL : JsVal) (options : option FetchOptions)
  : M ArtifactHubHeadlampPkg :=
  let progressCallback :=
    match options with Some o => opt_progressCallback o | None => None end in
  let signal :=
    match options with Some o => opt_signal o | None => None end in
  fetchPluginInfo URL progressCallback signal.

End Operations.
End PluginManager.

(** ** A concrete platform and concrete file systems

    Used to run the program on explicit inputs. *)

Module Sample.

(** Versions [MAJOR.MINOR.PATCH] only. *)
Fixpoint digits (s : string) (acc : nat) : option nat :=
  match s with
  | EmptyString => Some acc
  | String c s' =>
      let n := nat_of_ascii c in
      if (48 <=? n)%nat && (n <=? 57)%nat
      then digits s' (10 * acc + (n - 48))
      else None
  end.

Fixpoint dotted (s : string) : list string :=
  match s with
  | EmptyString => [""]
  | String c s' =>
      if Ascii.eqb c "." then "" :: dotted s'
      else match dotted s' with
           | h :: t => String c h :: t
           | [] => [String c ""]
           end
  end.

Definition number (s : string) : option nat :=
  if String.eqb s "" then None else digits s 0.

Definition parse (v : string) : option (nat * nat * nat) :=
  match dotted v with
  | [a; b; c] =>
      match number a, number b, number c with
      | Some x, Some y, Some z => Some (x, y, z)
      | _, _, _ => None
      end
  | _ => None
  end.

Definition triple_le (a b : nat * nat * nat) : bool :=
  let '(a1, a2, a3) := a in
  let '(b1, b2, b3) := b in
  (a1 <? b1)%nat
  || ((a1 =? b1)%nat && ((a2 <? b2)%nat || ((a2 =? b2)%nat && (a3 <=? b3)%nat))).

Definition lte (a b : string) : option bool :=
  match parse a, parse b with
  | Some x, Some y => Some (triple_le x y)
  | _, _ => None
  end.

(** Only the range [*]. *)
Definition satisfies (v range : string) : bool :=
  match parse v with
  | Some _ => String.eqb range "*"
  | None => false
  end.

Definition registryURL : string :=
  "https://artifacthub.io/packages/headlamp/test-repo/demo".
Definition apiURL : string :=
  "https://artifacthub.io/api/v1/packages/headlamp/test-repo/demo".
Definition tarballURL : string :=
  "https://github.com/acme/demo/releases/download/v2/demo.tar.gz".

Definition tarball : list Byte.byte := [].

Definition bytes_of_string (s : string) : list Byte.byte :=
  map byte_of_ascii (list_ascii_of_string s).

Definition demoPkg (checksum : string) : ArtifactHubHeadlampPkg :=
  mkPkg "demo" "Demo" (mkRepository "test-repo" "acme") "2.0.0"
        tarballURL checksum "" "*".

Definition manifest (fields : list (string * JSON)) : Node :=
  NFile (JsonDoc (JObj fields)).

Definition provenance (ver : string) : JSON :=
  JObj [ ("name", JStr "demo"); ("title", JStr "Demo");
         ("url", JStr registryURL); ("version", JStr ver);
         ("repoName", JStr "test-repo"); ("author", JStr "acme") ].

(** What the demo archive unpacks to. *)
Definition unpacked : list (Path * Node) :=
  [ (["main.js"], NFile (Raw "registerPlugin()"));
    (["package.json"], manifest [("name", JStr "demo"); ("version", JStr "2.0.0")]) ].

(** The registry answers with [pkg]; the archive host serves [served]. *)
Definition platform_with (served : list Byte.byte) (pkg : ArtifactHubHeadlampPkg)
  : Platform := {|
  os_tmpdir := ["tmp"];
  process_cwd := ["work"];
  mkdtemp_suffix := fun _ => "k3x9Qa";
  rm_stopped := fun _ _ => None;
  http := fun url _ =>
    if String.eqb url apiURL
    then Ok (mkResponse true 200 (Ok pkg) None)
    else if String.eqb url tarballURL
    then Ok (mkResponse true 200 (Throw (SyntaxError "Unexpected token"))
                        (Some (mkBody [served] None)))
    else Ok (mkResponse false 404 (Throw (SyntaxError "Unexpected token")) None);
  semver_lte := lte;
  semver_satisfies := satisfies;
  tar_extract := fun _ => (unpacked, None);
  env_data := ["home"; "data"];
  env_config := ["home"; "config"]
|}.

(** The archive host serves the demo archive. *)
Definition platform (pkg : ArtifactHubHeadlampPkg) : Platform :=
  platform_with tarball pkg.

(** The same platform, on which a directory is busy: [rmSync] empties it
    and is stopped when it comes to the directory itself. *)
Definition busy_platform (pkg : ArtifactHubHeadlampPkg) : Platform :=
  let host := platform pkg in {|
  os_tmpdir := @os_tmpdir host;
  process_cwd := @process_cwd host;
  mkdtemp_suffix := @mkdtemp_suffix host;
  rm_stopped := fun _ p => Some (SystemError "EBUSY", fun k => bool_decide (k = p));
  http := @http host;
  semver_lte := @semver_lte host;
  semver_satisfies := @semver_satisfies host;
  tar_extract := @tar_extract host;
  env_data := @env_data host;
  env_config := @env_config host
|}.

Definition root : Path := ["home"; "plugins"].

Definition base : FS :=
  <[ ["tmp"] := NDir ]> (<[ ["home"] := NDir ]> (<[ root := NDir ]> ∅)).

(** [base] with one plugin folder [root/dir] holding [main.js] and the
    given manifest. *)
Definition with_plugin (dir : string) (fields : list (string * JSON)) (fs : FS) : FS :=
  <[ root ++ [dir; "package.json"] := manifest fields ]>
    (<[ root ++ [dir; "main.js"] := NFile (Raw "registerPlugin()") ]>
       (<[ root ++ [dir] := NDir ]> fs)).

Definition start (fs : FS) : State := mkState fs 0 [] [].

(** The manifest of a plugin installed by the manager. *)
Definition managed (nm ver : string) : list (string * JSON) :=
  [ ("name", JStr nm); ("version", JStr ver);
    ("artifacthub", provenance ver);
    ("isManagedByHeadlampPlugin", JBool true) ].

(** One installed plugin, in folder [demo], whose manifest carries a
    scoped package name. *)
Definition scopedFS : FS := with_plugin "demo" (managed "@acme/demo" "1.0.0") base.

(** A folder that passes the validity check but was never stamped with
    provenance, and a foreign folder whose [package.json] is not JSON. *)
Definition unstampedFS : FS :=
  with_plugin "plain"
    [ ("name", JStr "plain"); ("version", JStr "0.1.0");
      ("isManagedByHeadlampPlugin", JBool true) ] base.

Definition foreignFS : FS :=
  <[ root ++ ["notes"; "package.json"] := NFile (Raw "TODO: write me") ]>
    (<[ root ++ ["notes"; "main.js"] := NFile (Raw "console.log(1)") ]>
       (<[ root ++ ["notes"] := NDir ]>
          (with_plugin "demo" (managed "demo" "1.0.0") base))).

(** An extracted plugin waiting in its temporary folder. *)
Definition staged : Path := ["tmp"; "stage"; "demo"].

Definition stagedFS : FS :=
  <[ staged ++ ["main.js"] := NFile (Raw "registerPlugin()") ]>
    (<[ staged := NDir ]> (<[ ["tmp"; "stage"] := NDir ]> base)).

(** A folder that holds a folder of its own name. *)
Definition nestedFS : FS :=
  <[ ["tmp"; "demo"; "demo"; "main.js"] := NFile (Raw "registerPlugin()") ]>
    (<[ ["tmp"; "demo"; "demo"] := NDir ]> (<[ ["tmp"; "demo"] := NDir ]> base)).

(** The demo plugin installed at version 1.0.0, and registry metadata that
    still reports 1.0.0. *)
Definition installedFS : FS := with_plugin "demo" (managed "demo" "1.0.0") base.

Definition stalePkg : ArtifactHubHeadlampPkg :=
  mkPkg "demo" "Demo" (mkRepository "test-repo" "acme") "1.0.0"
        tarballURL "00" "" "*".

(** A folder with [main.js] and a manifest that lacks the managed flag,
    next to a managed plugin. *)
Definition unmanagedFS : FS :=
  with_plugin "legacy" [ ("name", JStr "legacy"); ("version", JStr "0.9.0") ]
    (with_plugin "demo" (managed "demo" "1.0.0") base).

(** A folder that lacks the managed flag next to a managed folder that was
    never stamped with provenance. *)
Definition mixedFS : FS :=
  with_plugin "legacy" [ ("name", JStr "legacy"); ("version", JStr "0.9.0") ]
    unstampedFS.

(** A plugin folder whose manifest sets the managed flag to a string. *)
Definition truthyFS : FS :=
  with_plugin "demo"
    [ ("name", JStr "demo"); ("version", JStr "1.0.0");
      ("artifacthub", provenance "1.0.0");
      ("isManagedByHeadlampPlugin", JStr "yes") ] base.

(** The SHA-256 digest of the (empty) demo archive, as [digest('hex')]
    prints it and in upper case. *)
Definition digestLower : string :=
  "e3b0c44298fc1c149afbf4c8996fb92427ae41e4649b934ca495991b7852b855".
Definition digestUpper : string :=
  "E3B0C44298FC1C149AFBF4C8996FB92427AE41E4649B934CA495991B7852B855".
Definition digestPrefixed : string := "sha256:" +:+ digestLower.

(** Package metadata with a traversing name, and with an archive on an
    unknown host. *)
Definition traversingPkg : ArtifactHubHeadlampPkg :=
  mkPkg "../evil" "Evil" (mkRepository "test-repo" "acme") "2.0.0"
        tarballURL "00" "" "*".
Definition foreignPkg : ArtifactHubHeadlampPkg :=
  mkPkg "demo" "Demo" (mkRepository "test-repo" "acme") "2.0.0"
        "https://downloads.example.org/demo.tar.gz" "00" "" "*".

(** Package metadata with both: a traversing name and an archive on an
    unknown host. *)
Definition roguePkg : ArtifactHubHeadlampPkg :=
  mkPkg "../evil" "Evil" (mkRepository "test-repo" "acme") "2.0.0"
        "https://downloads.example.org/demo.tar.gz" "00" "" "*".

(** A release URL whose last part holds the line separator U+2028. *)
Definition twoLineURL : string :=
  "https://github.com/acme/demo/releases/v2"
  +:+ String "226" (String "128" (String "168" "")) +:+ "demo.tar.gz".

(** A plugin extracted and stamped, waiting in its temporary folder. *)
Definition readyFS : FS :=
  <[ staged ++ ["package.json"] := manifest (managed "demo" "2.0.0") ]> stagedFS.

(** The same, with a destination folder that already holds a file. *)
Definition occupiedFS : FS :=
  <[ root ++ ["demo"; "old.js"] := NFile (Raw "legacy()") ]>
    (<[ root ++ ["demo"] := NDir ]> readyFS).

(** The demo plugin installed at version 1.0.0 with a file that later
    versions no longer ship. *)
Definition staleFS : FS :=
  <[ root ++ ["demo"; "old.js"] := NFile (Raw "legacy()") ]> installedFS.

(** Package metadata that asks for a Headlamp version no release has. *)
Definition pickyPkg : ArtifactHubHeadlampPkg :=
  mkPkg "demo" "Demo" (mkRepository "test-repo" "acme") "2.0.0"
        tarballURL digestLower "" ">=99.0.0".

Definition never : AbortSignal := fun _ => false.
Definition fired : AbortSignal := fun _ => true.

End Sample.

(** ** Vocabulary of the statements: relations between states *)

(** Every run of [m] relates the state before to the state after by [R]. *)
Definition respects (R : State -> State -> Prop) {A : Type} (m : M A) : Prop :=
  forall st r st', m st = (r, st') -> R st st'.

Class Frame (R : State -> State -> Prop) : Prop := {
  frame_refl : forall st, R st st;
  frame_trans : forall a b c, R a b -> R b c -> R a c
}.

(** What a relation between states has to allow for the calls of the
    program to respect it. *)
Class ActFrame (P : Action -> Prop) (R : State -> State -> Prop) : Prop :=
  act_ok : forall st a, P a ->
    R st (mkState (st_fs st) (st_clock st) (st_events st) (st_actions st ++ [a])).

Class EventFrame (R : State -> State -> Prop) : Prop :=
  event_ok : forall st p,
    R st (mkState (st_fs st) (st_clock st) (st_events st ++ [p]) (st_actions st)).

Class TickFrame (R : State -> State -> Prop) : Prop :=
  tick_ok : forall st, R st (tick st).

Class FsFrame (R : State -> State -> Prop) : Prop :=
  fs_ok : forall st fs',
    R st (mkState fs' (st_clock st) (st_events st) (st_actions st)).

Definition reading (a : Action) : Prop :=
  match a with
  | AExists _ | AReadFile _ | AReaddir _ => True
  | _ => False
  end.

Definition requesting (a : Action) : Prop :=
  match a with
  | AFetch _ => True
  | _ => False
  end.

(** The file system is left as it was. *)
Definition same_fs (st st' : State) : Prop := st_fs st' = st_fs st.

(** Only progress events were added: no request, no file-system call, no
    instant passed. *)
Definition only_events (st st' : State) : Prop :=
  st_fs st' = st_fs st /\ st_actions st' = st_actions st
  /\ st_clock st' = st_clock st.

(** The actions added all satisfy [P]. *)
Definition acted (P : Action -> Prop) (st st' : State) : Prop :=
  exists l, st_actions st' = st_actions st ++ l /\ Forall P l.

(** The errors a run may throw. *)
Definition throws_only (E : JsError -> Prop) {A : Type} (m : M A) : Prop :=
  forall st e st', m st = (Throw e, st') -> E e.

(** An error raised by the platform or the language, not by a
    [throw new Error(...)] of the program. *)
Definition not_plain (e : JsError) : Prop := forall m, e <> Error m.

(** Reads only: the file system and the clock are left as they were and
    the actions added are look-ups. *)
Definition reads_only (st st' : State) : Prop :=
  st_fs st' = st_fs st /\ st_clock st' = st_clock st /\ acted reading st st'.

(** The progress events are left as they were. *)
Definition quiet (st st' : State) : Prop := st_events st' = st_events st.

(** The events added all satisfy [Q]. *)
Definition told (Q : ProgressResp -> Prop) (st st' : State) : Prop :=
  exists l, st_events st' = st_events st ++ l /\ Forall Q l.

Definition is_info (p : ProgressResp) : Prop := pr_type p = "info".



(** Every entry of the file system lies in a directory. *)
Definition closed_fs (fs : FS) : Prop :=
  forall (p : Path) (x : string), is_Some (fs !! (p ++ [x])) -> is_dir fs p = true.

(** Outside the tree of [p] the file system is left as it was. *)
Definition untouched_outside (p : Path) (st st' : State) : Prop :=
  forall k, strip_prefix p k = None -> st_fs st' !! k = st_fs st !! k.

(** [fetch] was called once at most, and then with the prefix of the
    registry's API followed by what follows the package prefix in [URL],
    as it stands; the file system was left as it was. *)
Definition calls_fetch_at_most_once (URL : JsVal) (st st' : State) : Prop :=
  st_fs st' = st_fs st
  /\ (st_actions st' = st_actions st
      \/ exists rest,
           URL = Some (JStr ("https://artifacthub.io/packages/headlamp/" +:+ rest))
           /\ st_actions st'
              = st_actions st
                ++ [AFetch ("https://artifacthub.io/api/v1/packages/headlamp/" +:+ rest)]).

(** The temporary directory [downloadExtractArchive] makes when it starts on
    file system [fs]. *)
Definition tempDirOn `{Platform} (fs : FS) : Path :=
  os_tmpdir ++ ["headlamp-plugin-temp-" +:+ mkdtemp_suffix fs].

(** Whatever archive has the digest that [pkg] declares unpacks to a
    [main.js] and a [package.json] holding a JSON object, and has no entry
    for the folder it is unpacked into. *)
Definition archive_holds_plugin `{Platform} (pkg : ArtifactHubHeadlampPkg) : Prop :=
  forall archBuffer,
    SHA256.sha256_hex archBuffer = stripChecksumPrefix (archiveChecksum pkg) ->
    fs_unpack ∅ [] (fst (tar_extract archBuffer)) !! [] = None
    /\ is_Some (fs_unpack ∅ [] (fst (tar_extract archBuffer)) !! ["main.js"])
    /\ exists fields,
         fs_unpack ∅ [] (fst (tar_extract archBuffer)) !! ["package.json"]
         = Some (NFile (JsonDoc (JObj fields))).

(** What was at path [k] has not been removed. *)
Definition kept (k : Path) (st st' : State) : Prop :=
  is_Some (st_fs st !! k) -> is_Some (st_fs st' !! k).

(** [closed_fs], decided. *)
Definition closedb (fs : FS) : bool :=
  forallb (fun kn : Path * Node => is_dir fs (removelast (fst kn))) (map_to_list fs).

(** A digit of lowercase hexadecimal. *)
Definition lower_hex (c : ascii) : bool :=
  let n := nat_of_ascii c in
  ((48 <=? n)%nat && (n <=? 57)%nat) || ((97 <=? n)%nat && (n <=? 102)%nat).

(* ===================================================================== *)
(** * Part II. Properties                                                 *)
(* ===================================================================== *)

(** ** Strings *)

#[local] Arguments String.append !s1 s2 : simpl nomatch.

Lemma append_nil_r (s : string) : s +:+ "" = s.
Proof. induction s as [|c s IH]; simpl; [reflexivity | now rewrite IH]. Qed.

Lemma append_assoc (a b c : string) : (a +:+ b) +:+ c = a +:+ (b +:+ c).
Proof. induction a as [|x a IH]; simpl; [reflexivity | now rewrite IH]. Qed.

Lemma append_eq_nil (a b : string) : a +:+ b = "" -> a = "" /\ b = "".
Proof. destruct a; simpl; intros E; [auto | discriminate]. Qed.

Lemma drop_prefix_spec (pre s rest : string) :
  drop_prefix pre s = Some rest <-> s = pre +:+ rest.
Proof.
  revert s. induction pre as [|a pre IH]; intros s; simpl.
  - split; intros E; [now inversion E | now subst].
  - destruct s as [|b s]; [split; discriminate |].
    destruct (Ascii.eqb_spec a b) as [->|Hne].
    + rewrite IH. split; intros E; [now subst | now inversion E].
    + split; [discriminate | intros E; inversion E; congruence].
Qed.

Lemma startsWith_spec (s pre : string) :
  startsWith s pre = true <-> exists rest, s = pre +:+ rest.
Proof.
  unfold startsWith. destruct (drop_prefix pre s) as [rest|] eqn:E.
  - apply drop_prefix_spec in E. split; eauto.
  - split; [discriminate |]. intros [rest Hr].
    apply drop_prefix_spec in Hr. congruence.
Qed.

Lemma all_chars_app (p : ascii -> bool) (a b : string) :
  all_chars p (a +:+ b) = all_chars p a && all_chars p b.
Proof.
  induction a as [|c a IH]; simpl; [reflexivity |].
  now rewrite IH, andb_assoc.
Qed.

(** ** SHA-256: the test vectors of FIPS 180-4 *)

Lemma sha256_test_vectors :
  SHA256.sha256_hex [] = Sample.digestLower
  /\ SHA256.sha256_hex (Sample.bytes_of_string "abc")
     = "ba7816bf8f01cfea414140de5dae2223b00361a396177a9cb410ff61f20015ad"
  /\ SHA256.sha256_hex
       (Sample.bytes_of_string
          "abcdbcdecdefdefgefghfghighijhijkijkljklmklmnlmnomnopnopq")
     = "248d6a61d20638b8e5c026930c3e6039a33ce45964ff2167f6ecedd419db06c1".
Proof. repeat split; vm_compute; reflexivity. Qed.

(** ** The derivative matcher decides the language *)

Module RegexFacts.
Import Regex.

Lemma nullable_spec (r : re) : nullable r = true <-> matches r "".
Proof.
  induction r as [| |p|r1 IH1 r2 IH2|r1 IH1 r2 IH2|r IH]; simpl.
  - split; [discriminate | intros Hm; inversion Hm].
  - split; [constructor | reflexivity].
  - split; [discriminate | intros Hm; inversion Hm].
  - rewrite andb_true_iff, IH1, IH2. split.
    + intros [H1 H2]. exact (MCat _ _ "" "" H1 H2).
    + intros Hm. inversion Hm as [| |? ? s1 s2 H1 H2 E| | | |]; subst.
      match goal with E : _ +:+ _ = "" |- _ => apply append_eq_nil in E as [-> ->] end.
      now split.
  - rewrite orb_true_iff, IH1, IH2. split.
    + intros [H1|H2]; [now apply MAltL | now apply MAltR].
    + intros Hm. inversion Hm; subst; [now left | now right].
  - split; [constructor | reflexivity].
Qed.

(** A non-empty match of [r*] starts with a non-empty match of [r]. *)
Lemma star_cons (r : re) (w : string) :
  matches (Star r) w ->
  forall c s, w = String c s ->
  exists s1 s2, s = s1 +:+ s2 /\ matches r (String c s1) /\ matches (Star r) s2.
Proof.
  intros Hm. remember (Star r) as r' eqn:Er.
  induction Hm as [| | | | | |r0 s1 s2 H1 _ H2 IH2]; try discriminate.
  inversion Er; subst r0. intros c s E.
  destruct s1 as [|c1 s1]; simpl in E.
  - now apply IH2.
  - inversion E; subst. now exists s1, s2.
Qed.

Lemma deriv_sound (c : ascii) (r : re) :
  forall s, matches (deriv c r) s -> matches r (String c s).
Proof.
  induction r as [| |p|r1 IH1 r2 IH2|r1 IH1 r2 IH2|r IH]; simpl; intros s Hm.
  - inversion Hm.
  - inversion Hm.
  - destruct (p c) eqn:Ep; inversion Hm; subst. now constructor.
  - assert (Hcat : forall w, matches (Cat (deriv c r1) r2) w ->
                             matches (Cat r1 r2) (String c w)).
    { intros w Hw. inversion Hw as [| |? ? s1 s2 H1 H2| | | |]; subst.
      exact (MCat _ _ (String c s1) s2 (IH1 _ H1) H2). }
    destruct (nullable r1) eqn:En.
    + apply nullable_spec in En.
      inversion Hm as [| | |? ? ? HL|? ? ? HR| |]; subst; [now apply Hcat |].
      exact (MCat _ _ "" (String c s) En (IH2 _ HR)).
    + now apply Hcat.
  - inversion Hm; subst; [apply MAltL | apply MAltR]; auto.
  - inversion Hm as [| |? ? s1 s2 H1 H2| | | |]; subst.
    exact (MStarS _ (String c s1) s2 (IH _ H1) H2).
Qed.

Lemma deriv_complete (c : ascii) (r : re) :
  forall s, matches r (String c s) -> matches (deriv c r) s.
Proof.
  induction r as [| |p|r1 IH1 r2 IH2|r1 IH1 r2 IH2|r IH]; simpl; intros s Hm.
  - inversion Hm.
  - inversion Hm.
  - inversion Hm; subst.
    match goal with E : p c = true |- _ => rewrite E end. constructor.
  - inversion Hm as [| |? ? s1 s2 H1 H2| | | |]; subst.
    match goal with E : _ +:+ _ = String _ _ |- _ => rename E into Es end.
    destruct s1 as [|c1 s1]; simpl in Es.
    + subst s2. apply nullable_spec in H1 as En. rewrite En.
      apply MAltR. now apply IH2.
    + inversion Es; subst.
      assert (Hc : matches (Cat (deriv c r1) r2) (s1 +:+ s2))
        by (constructor; auto).
      destruct (nullable r1); [now apply MAltL | exact Hc].
  - inversion Hm; subst; [apply MAltL | apply MAltR]; auto.
  - destruct (star_cons r _ Hm c s eq_refl) as (s1 & s2 & -> & H1 & H2).
    constructor; auto.
Qed.

Theorem matchb_spec (r : re) (s : string) : matchb r s = true <-> matches r s.
Proof.
  revert r. induction s as [|c s IH]; intros r; simpl.
  - apply nullable_spec.
  - rewrite IH. split; [apply deriv_sound | apply deriv_complete].
Qed.

Lemma matches_cat (r1 r2 : re) (s : string) :
  matches (Cat r1 r2) s <->
  exists s1 s2, s = s1 +:+ s2 /\ matches r1 s1 /\ matches r2 s2.
Proof.
  split.
  - intros Hm. inversion Hm; subst. eauto.
  - intros (s1 & s2 & -> & H1 & H2). now constructor.
Qed.

Lemma matches_alt (r1 r2 : re) (s : string) :
  matches (Alt r1 r2) s <-> matches r1 s \/ matches r2 s.
Proof.
  split.
  - intros Hm. inversion Hm; subst; auto.
  - intros [H1|H2]; [now apply MAltL | now apply MAltR].
Qed.

Lemma matches_eps (s : string) : matches Eps s <-> s = "".
Proof. split; [intros Hm; now inversion Hm | intros ->; constructor]. Qed.

Lemma matches_sym (p : ascii -> bool) (s : string) :
  matches (Sym p) s <-> exists c, s = String c "" /\ p c = true.
Proof.
  split.
  - intros Hm. inversion Hm; subst. eauto.
  - intros (c & -> & Hp). now constructor.
Qed.

Lemma matches_chr (c : ascii) (s : string) :
  matches (Chr c) s <-> s = String c "".
Proof.
  unfold Chr. rewrite matches_sym. split.
  - intros (d & -> & Hd). apply Ascii.eqb_eq in Hd. now subst.
  - intros ->. exists c. split; [reflexivity | apply Ascii.eqb_refl].
Qed.

Lemma matches_lit (t s : string) : matches (Lit t) s <-> s = t.
Proof.
  revert s. induction t as [|c t IH]; intros s; simpl.
  - apply matches_eps.
  - rewrite matches_cat. split.
    + intros (s1 & s2 & -> & H1 & H2).
      apply matches_chr in H1. apply IH in H2. now subst.
    + intros ->. exists (String c ""), t. repeat split.
      * now apply matches_chr.
      * now apply IH.
Qed.

Lemma matches_star_sym (p : ascii -> bool) (s : string) :
  matches (Star (Sym p)) s <-> all_chars p s = true.
Proof.
  split.
  - intros Hm. remember (Star (Sym p)) as r eqn:Er.
    induction Hm as [| | | | | |r0 s1 s2 H1 _ H2 IH2]; try discriminate.
    + reflexivity.
    + inversion Er; subst r0. apply matches_sym in H1 as (c & -> & Hp).
      simpl. rewrite Hp. now apply IH2.
  - induction s as [|c s IH]; simpl; intros Ha.
    + constructor.
    + apply andb_true_iff in Ha as [Hp Hs].
      exact (MStarS _ (String c "") s (MSym p c Hp) (IH Hs)).
Qed.

Lemma matches_plus_sym (p : ascii -> bool) (s : string) :
  matches (Plus (Sym p)) s <-> s <> "" /\ all_chars p s = true.
Proof.
  unfold Plus. rewrite matches_cat. split.
  - intros (s1 & s2 & -> & H1 & H2).
    apply matches_sym in H1 as (c & -> & Hp).
    apply matches_star_sym in H2. simpl. rewrite Hp, H2. now split.
  - intros [Hne Ha]. destruct s as [|c s]; [contradiction |].
    simpl in Ha. apply andb_true_iff in Ha as [Hp Hs].
    exists (String c ""), s. repeat split.
    + now constructor.
    + now apply matches_star_sym.
Qed.

(** What one [.] takes. *)
Lemma matches_dot (s : string) :
  matches dot s <->
  (exists c, s = String c "" /\ not_newline c = true /\ Ascii.eqb c "226" = false)
  \/ (exists c1 c2,
        s = String "226" (String c1 (String c2 ""))
        /\ continuation c1 = true /\ continuation c2 = true
        /\ (Ascii.eqb c1 "128" && (Ascii.eqb c2 "168" || Ascii.eqb c2 "169")) = false).
Proof.
  unfold dot. rewrite matches_alt, matches_sym, matches_cat. split.
  - intros [(c & -> & Hc)|(s1 & s2 & -> & H1 & H2)].
    + left. exists c. apply andb_true_iff in Hc as [Hn He].
      apply negb_true_iff in He. auto.
    + right. apply matches_chr in H1. subst s1.
      apply matches_alt in H2 as [H2|H2];
        apply matches_cat in H2 as (t1 & t2 & -> & Ht1 & Ht2).
      * apply matches_sym in Ht1 as (c1 & -> & Hc1).
        apply matches_sym in Ht2 as (c2 & -> & Hc2).
        apply andb_true_iff in Hc1 as [Hc1 Hne]. apply negb_true_iff in Hne.
        exists c1, c2. rewrite Hne. auto.
      * apply matches_chr in Ht1. subst t1.
        apply matches_sym in Ht2 as (c2 & -> & Hc2).
        apply andb_true_iff in Hc2 as [Hc2 Hne]. apply negb_true_iff in Hne.
        exists "128"%char, c2. rewrite Hne. auto.
  - intros [(c & -> & Hn & He)|(c1 & c2 & -> & H1 & H2 & Hne)].
    + left. exists c. split; [reflexivity |]. now rewrite Hn, He.
    + right. exists (String "226" ""), (String c1 (String c2 "")).
      split; [reflexivity |]. split; [now apply matches_chr |].
      apply matches_alt. destruct (Ascii.eqb_spec c1 "128") as [->|Hc].
      * right. apply matches_cat. exists (String "128" ""), (String c2 "").
        split; [reflexivity |]. split; [now apply matches_chr |].
        apply matches_sym. exists c2. split; [reflexivity |].
        simpl in Hne. now rewrite H2, Hne.
      * left. apply matches_cat. exists (String c1 ""), (String c2 "").
        split; [reflexivity |]. split; apply matches_sym.
        -- exists c1. split; [reflexivity |]. rewrite H1. simpl.
           apply negb_true_iff. now apply Ascii.eqb_neq.
        -- now exists c2.
Qed.

(** [.*] takes exactly the strings that hold no line terminator. *)
Lemma matches_star_dot (s : string) :
  matches (Star dot) s <-> single_line s = true.
Proof.
  split.
  - intros Hm. remember (Star dot) as r eqn:Er.
    induction Hm as [| | | | | |r0 s1 s2 H1 _ H2 IH2]; try discriminate.
    + reflexivity.
    + inversion Er; subst r0. specialize (IH2 eq_refl).
      apply matches_dot in H1
        as [(c & -> & Hn & He)|(c1 & c2 & -> & Hc1 & Hc2 & Hne)]; simpl.
      * now rewrite He, Hn.
      * now rewrite Hc1, Hc2, Hne.
  - remember (String.length s) as n eqn:En. revert s En.
    induction n as [n IH] using lt_wf_ind. intros s En Hs.
    destruct s as [|c s]; [constructor |]. simpl in Hs.
    destruct (Ascii.eqb c "226") eqn:He.
    + apply Ascii.eqb_eq in He. subst c.
      destruct s as [|c1 [|c2 s2]]; try discriminate.
      apply andb_true_iff in Hs as [Hs Hrest].
      apply andb_true_iff in Hs as [Hs Hne].
      apply andb_true_iff in Hs as [Hc1 Hc2]. apply negb_true_iff in Hne.
      apply (MStarS dot (String "226" (String c1 (String c2 ""))) s2).
      * apply matches_dot. right. now exists c1, c2.
      * apply (IH (String.length s2)); [subst n; simpl; lia | reflexivity | exact Hrest].
    + apply andb_true_iff in Hs as [Hn Hrest].
      apply (MStarS dot (String c "") s).
      * apply matches_dot. left. now exists c.
      * apply (IH (String.length s)); [subst n; simpl; lia | reflexivity | exact Hrest].
Qed.

(** A string without line terminator has neither LF nor CR, and nowhere the
    bytes of U+2028 or of U+2029. *)
Lemma single_line_sound (s : string) :
  single_line s = true ->
  all_chars not_newline s = true
  /\ forall c, c = "168"%char \/ c = "169"%char ->
       ~ contains (String "226" (String "128" (String c ""))) s.
Proof.
  remember (String.length s) as n eqn:En. revert s En.
  induction n as [n IH] using lt_wf_ind. intros s En Hs.
  destruct s as [|c s].
  { split; [reflexivity |]. intros c _ (pre & post & E).
    destruct pre; discriminate. }
  simpl in Hs. destruct (Ascii.eqb c "226") eqn:He.
  - apply Ascii.eqb_eq in He. subst c.
    destruct s as [|c1 [|c2 s2]]; try discriminate.
    apply andb_true_iff in Hs as [Hs Hrest].
    apply andb_true_iff in Hs as [Hs Hne].
    apply andb_true_iff in Hs as [Hc1 Hc2]. apply negb_true_iff in Hne.
    destruct (IH (String.length s2)) with (s := s2) as [Hall Hno];
      [subst n; simpl; lia | reflexivity | exact Hrest |].
    assert (Hcont : forall b, continuation b = true -> not_newline b = true
                               /\ b <> "226"%char).
    { intros b Hb. unfold continuation in Hb. apply andb_true_iff in Hb as [Hlo Hhi].
      apply Nat.leb_le in Hlo, Hhi. split.
      - unfold not_newline.
        destruct (Ascii.eqb_spec b "010") as [->|_]; [vm_compute in Hlo; lia |].
        destruct (Ascii.eqb_spec b "013") as [->|_]; [vm_compute in Hlo; lia | reflexivity].
      - intros ->. vm_compute in Hhi. lia. }
    destruct (Hcont c1 Hc1) as [Hn1 Hd1]. destruct (Hcont c2 Hc2) as [Hn2 Hd2].
    split; [simpl; now rewrite Hn1, Hn2, Hall |].
    intros c Hc (pre & post & E).
    destruct pre as [|p0 pre]; simpl in E.
    { inversion E; subst c1 c2. simpl in Hne.
      destruct Hc as [->| ->]; discriminate. }
    inversion E as [[Hp0 E1]]. clear E.
    destruct pre as [|p1 pre]; simpl in E1; [inversion E1; congruence |].
    inversion E1 as [[Hp1 E2]]. clear E1.
    destruct pre as [|p2 pre]; simpl in E2; [inversion E2; congruence |].
    inversion E2 as [[Hp2 E3]]. clear E2.
    apply (Hno c Hc). now exists pre, post.
  - apply andb_true_iff in Hs as [Hn Hrest].
    destruct (IH (String.length s)) with (s := s) as [Hall Hno];
      [subst n; simpl; lia | reflexivity | exact Hrest |].
    split; [simpl; now rewrite Hn, Hall |].
    intros c0 Hc (pre & post & E).
    destruct pre as [|p0 pre]; simpl in E.
    { inversion E; subst c. discriminate. }
    inversion E as [[Hp0 E1]]. apply (Hno c0 Hc). now exists pre, post.
Qed.

Lemma matches_any (s : string) : matches (Star (Sym any_char)) s.
Proof.
  apply matches_star_sym. induction s; simpl; auto.
Qed.

(** [/^R$/.test(s)]: the whole string matches. *)
Lemma test_anchored (r : re) (s : string) :
  test (mkRegExp true r true) s = true <-> matches r s.
Proof.
  unfold test; simpl. rewrite matchb_spec, matches_cat. split.
  - intros (s1 & s2 & -> & H1 & H2).
    apply matches_eps in H1. subst s1.
    apply matches_cat in H2 as (t1 & t2 & -> & H3 & H4).
    apply matches_eps in H4. subst t2. simpl. now rewrite append_nil_r.
  - intros Hm. exists "", s. repeat split; [constructor |].
    apply matches_cat. exists s, "". rewrite append_nil_r.
    repeat split; [assumption | constructor].
Qed.

(** [/R/.test(s)]: some substring matches. *)
Lemma test_search (r : re) (s : string) :
  test (mkRegExp false r false) s = true <->
  exists pre m post, s = pre +:+ m +:+ post /\ matches r m.
Proof.
  unfold test; simpl. rewrite matchb_spec, matches_cat. split.
  - intros (s1 & s2 & -> & _ & H2).
    apply matches_cat in H2 as (m & post & -> & Hm & _).
    now exists s1, m, post.
  - intros (pre & m & post & -> & Hm).
    exists pre, (m +:+ post). repeat split; [apply matches_any |].
    apply matches_cat. exists m, post. repeat split; [assumption | apply matches_any].
Qed.

End RegexFacts.

(** ** The validators *)

Section Validators.
Import Regex RegexFacts.

Lemma invalidPattern_spec (s : string) :
  test invalidPattern s = true <->
  contains "/" s \/ contains "\" s \/ contains ".." s.
Proof.
  unfold invalidPattern, contains. rewrite test_search. split.
  - intros (pre & m & post & -> & Hm). apply matches_alt in Hm as [Hm|Hm].
    + apply matches_sym in Hm as (c & -> & Hc).
      apply orb_true_iff in Hc as [Hc|Hc]; apply Ascii.eqb_eq in Hc; subst c;
        [left | right; left]; now exists pre, post.
    + apply matches_lit in Hm. subst m. right; right. now exists pre, post.
  - intros [(pre & post & ->)|[(pre & post & ->)|(pre & post & ->)]].
    + exists pre, "/", post. split; [reflexivity |].
      apply matches_alt; left. now apply matches_sym; exists "/"%char.
    + exists pre, "\", post. split; [reflexivity |].
      apply matches_alt; left. now apply matches_sym; exists "\"%char.
    + exists pre, "..", post. split; [reflexivity |].
      apply matches_alt; right. now apply matches_lit.
Qed.

Lemma validatePluginName_false (pluginName : string) :
  validatePluginName pluginName = false <->
  contains "/" pluginName \/ contains "\" pluginName \/ contains ".." pluginName.
Proof.
  unfold validatePluginName. rewrite negb_false_iff. apply invalidPattern_spec.
Qed.

Lemma providerRegex_spec (host k1 k2 url : string) :
  test (providerRegex host k1 k2) url = true <-> hosted host [k1; k2] url.
Proof.
  unfold providerRegex, hosted. rewrite test_anchored. split.
  - intros Hm.
    apply matches_cat in Hm as (a & s1 & -> & Ha & Hm). apply matches_lit in Ha.
    apply matches_cat in Hm as (owner & s2 & -> & Ho & Hm).
    apply matches_plus_sym in Ho as [Ho1 Ho2].
    apply matches_cat in Hm as (b & s3 & -> & Hb & Hm). apply matches_chr in Hb.
    apply matches_cat in Hm as (repo & s4 & -> & Hr & Hm).
    apply matches_plus_sym in Hr as [Hr1 Hr2].
    apply matches_cat in Hm as (c & s5 & -> & Hc & Hm). apply matches_chr in Hc.
    apply matches_cat in Hm as (kind & s6 & -> & Hk & Hm).
    apply matches_cat in Hm as (d & rest & -> & Hd & Hm). apply matches_chr in Hd.
    apply matches_star_dot in Hm. subst a b c d.
    exists owner, repo, kind, rest. repeat split; try assumption.
    + now rewrite !append_assoc.
    + apply matches_alt in Hk as [Hk|Hk]; apply matches_lit in Hk; subst kind;
        simpl; auto.
  - intros (owner & repo & kind & rest & -> & Ho1 & Ho2 & Hr1 & Hr2 & Hk & Hrest).
    apply matches_cat. exists ("https://" +:+ host +:+ "/"), (owner +:+ "/" +:+ repo +:+ "/" +:+ kind +:+ "/" +:+ rest).
    split; [now rewrite !append_assoc |]. split; [now apply matches_lit |].
    apply matches_cat. exists owner, ("/" +:+ repo +:+ "/" +:+ kind +:+ "/" +:+ rest).
    split; [reflexivity |]. split; [now apply matches_plus_sym |].
    apply matches_cat. exists "/", (repo +:+ "/" +:+ kind +:+ "/" +:+ rest).
    split; [reflexivity |]. split; [now apply matches_chr |].
    apply matches_cat. exists repo, ("/" +:+ kind +:+ "/" +:+ rest).
    split; [reflexivity |]. split; [now apply matches_plus_sym |].
    apply matches_cat. exists "/", (kind +:+ "/" +:+ rest).
    split; [reflexivity |]. split; [now apply matches_chr |].
    apply matches_cat. exists kind, ("/" +:+ rest).
    split; [reflexivity |]. split.
    { apply matches_alt. destruct Hk as [<-|[<-|[]]]; [left | right]; now apply matches_lit. }
    apply matches_cat. exists "/", rest.
    split; [reflexivity |]. split; [now apply matches_chr | now apply matches_star_dot].
Qed.

Lemma validateArchiveURL_spec (archiveURL : string) :
  validateArchiveURL archiveURL = true <-> allow_listed archiveURL.
Proof.
  unfold validateArchiveURL, allow_listed, githubRegex, bitbucketRegex, gitlabRegex.
  rewrite !orb_true_iff, !providerRegex_spec, startsWith_spec. tauto.
Qed.

End Validators.

(** ** Running the program: how a computation may change the state *)

Ltac unfold_m :=
  unfold mbind, M_bind, mret, M_ret, Result_bind, Result_ret, throw, lift,
    try_catch, await, act, set_fs, get_fs, get_clock, call, notify, report,
    aborted in *.

Section Respects.
Context (R : State -> State -> Prop) `{!Frame R}.

Lemma respects_ret {A : Type} (a : A) : respects R (mret a).
Proof. intros st r st' E. inversion E; subst. apply frame_refl. Qed.

Lemma respects_throw {A : Type} (e : JsError) : respects R (@throw A e).
Proof. intros st r st' E. inversion E; subst. apply frame_refl. Qed.

Lemma respects_lift {A : Type} (x : Result A) : respects R (lift x).
Proof. intros st r st' E. inversion E; subst. apply frame_refl. Qed.

Lemma respects_bind {A B : Type} (m : M A) (k : A -> M B) :
  respects R m -> (forall a, respects R (k a)) -> respects R (m ≫= k).
Proof.
  intros Hm Hk st r st' E. unfold mbind, M_bind in E.
  destruct (m st) as [[a|e] st1] eqn:Em.
  - eapply frame_trans; [exact (Hm _ _ _ Em) | exact (Hk _ _ _ _ E)].
  - inversion E; subst. exact (Hm _ _ _ Em).
Qed.

Lemma respects_try_catch {A : Type} (m : M A) (h : JsError -> M A) :
  respects R m -> (forall e, respects R (h e)) -> respects R (try_catch m h).
Proof.
  intros Hm Hh st r st' E. unfold try_catch in E.
  destruct (m st) as [[a|e] st1] eqn:Em.
  - inversion E; subst. exact (Hm _ _ _ Em).
  - eapply frame_trans; [exact (Hm _ _ _ Em) | exact (Hh _ _ _ _ E)].
Qed.

Lemma respects_await {A : Type} (m : M A) :
  (forall st, R st (tick st)) -> respects R m -> respects R (await m).
Proof.
  intros Ht Hm st r st' E. unfold await in E.
  destruct (m st) as [r1 st1] eqn:Em. inversion E; subst.
  eapply frame_trans; [exact (Hm _ _ _ Em) | apply Ht].
Qed.

Lemma respects_aborted (signal : option AbortSignal) : respects R (aborted signal).
Proof. intros st r st' E. inversion E; subst. apply frame_refl. Qed.

Lemma respects_get_fs : respects R get_fs.
Proof. intros st r st' E. inversion E; subst. apply frame_refl. Qed.

Lemma respects_get_clock : respects R get_clock.
Proof. intros st r st' E. inversion E; subst. apply frame_refl. Qed.

Lemma respects_JSON_parse (d : FileData) : respects R (JSON_parse d).
Proof. destruct d; [apply respects_ret | apply respects_throw]. Qed.

Lemma respects_checkCancelled (signal : option AbortSignal) :
  respects R (checkCancelled signal).
Proof.
  apply respects_bind; [apply respects_aborted |].
  intros [|]; [apply respects_throw | apply respects_ret].
Qed.

End Respects.

Section Calls.
Context (P : Action -> Prop) (R : State -> State -> Prop) `{!Frame R}.

Lemma respects_act `{!ActFrame P R} (a : Action) : P a -> respects R (act a).
Proof. intros Ha st r st' E. inversion E; subst. now apply act_ok. Qed.

Lemma respects_call `{!EventFrame R} (cb : ProgressCallback) (p : ProgressResp) :
  respects R (call cb p).
Proof. intros st r st' E. inversion E; subst. apply event_ok. Qed.

Lemma respects_notify `{!EventFrame R} (cb : option ProgressCallback) (p : ProgressResp) :
  respects R (notify cb p).
Proof. destruct cb; [apply respects_call | now apply respects_ret]. Qed.

Lemma respects_report `{!EventFrame R} (cb : option ProgressCallback) (e : JsError) :
  respects R (report cb e).
Proof. destruct cb; [apply respects_call | now apply respects_throw]. Qed.

Lemma respects_set_fs `{!FsFrame R} (fs : FS) : respects R (set_fs fs).
Proof. intros st r st' E. inversion E; subst. apply fs_ok. Qed.

Lemma respects_existsSync `{!ActFrame P R} (p : Path) :
  P (AExists p) -> respects R (existsSync p).
Proof.
  intros Ha. unfold existsSync.
  apply respects_bind; [assumption | now apply respects_act |].
  intros _. apply respects_bind; [assumption | now apply respects_get_fs |].
  intros fs. now apply respects_ret.
Qed.

Lemma respects_readFileSync `{!ActFrame P R} (p : Path) :
  P (AReadFile p) -> respects R (readFileSync p).
Proof.
  intros Ha. unfold readFileSync.
  apply respects_bind; [assumption | now apply respects_act |].
  intros _. apply respects_bind; [assumption | now apply respects_get_fs |].
  intros fs. now apply respects_lift.
Qed.

Lemma respects_readdirSync `{!ActFrame P R} (p : Path) :
  P (AReaddir p) -> respects R (readdirSync p).
Proof.
  intros Ha. unfold readdirSync.
  apply respects_bind; [assumption | now apply respects_act |].
  intros _. apply respects_bind; [assumption | now apply respects_get_fs |].
  intros fs. now apply respects_lift.
Qed.

Lemma respects_fetch `{!Platform} `{!ActFrame P R} `{!TickFrame R}
    (url : string) (signal : option AbortSignal) :
  P (AFetch url) -> respects R (fetch url signal).
Proof.
  intros Ha. unfold fetch. apply respects_await; [assumption | apply tick_ok |].
  apply respects_bind; [assumption | now apply respects_aborted |].
  intros [|]; [now apply respects_throw |].
  apply respects_bind; [assumption | now apply respects_act |].
  intros _. apply respects_bind; [assumption | now apply respects_get_clock |].
  intros now. now apply respects_lift.
Qed.

Lemma respects_checkValidPluginFolder `{!ActFrame P R} (folder : Path) :
  (forall a, reading a -> P a) -> respects R (checkValidPluginFolder folder).
Proof.
  intros Hr. unfold checkValidPluginFolder.
  apply respects_bind; [assumption | apply respects_existsSync; now apply Hr |].
  intros [|]; simpl; [| now apply respects_ret].
  apply respects_bind; [assumption | apply respects_existsSync; now apply Hr |].
  intros e1. apply respects_bind; [assumption | |].
  { destruct e1; simpl; [| now apply respects_ret].
    apply respects_bind; [assumption | apply respects_existsSync; now apply Hr |].
    intros e2. now apply respects_ret. }
  intros [|]; [now apply respects_ret |].
  apply respects_bind; [assumption | apply respects_readFileSync; now apply Hr |].
  intros d. apply respects_bind; [assumption | now apply respects_JSON_parse |].
  intros v. apply respects_bind; [assumption | now apply respects_lift |].
  intros flag. destruct (truthy flag); now apply respects_ret.
Qed.

Lemma respects_fetchPluginInfo `{!Platform} `{!ActFrame P R} `{!TickFrame R}
    `{!EventFrame R} (URL : JsVal) (cb : option ProgressCallback)
    (signal : option AbortSignal) :
  (forall a, requesting a -> P a) -> respects R (fetchPluginInfo URL cb signal).
Proof.
  intros Hq. unfold fetchPluginInfo. apply respects_try_catch; [assumption | |].
  - apply respects_bind; [assumption | now apply respects_lift |].
    intros url. destruct (negb (startsWith url artifacthubPrefix));
      [now apply respects_throw |].
    apply respects_bind; [assumption | now apply respects_notify |].
    intros _. apply respects_bind; [assumption | apply respects_fetch; now apply Hq |].
    intros resp. destruct (negb (resp_ok resp)); [now apply respects_throw |].
    apply respects_bind; [assumption | | intros pkg; now apply respects_ret].
    apply respects_await; [assumption | apply tick_ok | now apply respects_lift].
  - intros e. apply respects_bind; [assumption | now apply respects_notify |].
    intros _. now apply respects_throw.
Qed.

End Calls.

#[global] Instance same_fs_frame : Frame same_fs.
Proof. split; unfold same_fs; congruence. Qed.
#[global] Instance same_fs_act : ActFrame (fun _ => True) same_fs.
Proof. intros st a _. reflexivity. Qed.
#[global] Instance same_fs_event : EventFrame same_fs.
Proof. intros st p. reflexivity. Qed.
#[global] Instance same_fs_tick : TickFrame same_fs.
Proof. intros st. reflexivity. Qed.

#[global] Instance only_events_frame : Frame only_events.
Proof.
  split; unfold only_events.
  - auto.
  - intros a b c (H1 & H2 & H3) (H4 & H5 & H6). repeat split; congruence.
Qed.
#[global] Instance only_events_event : EventFrame only_events.
Proof. intros st p. now repeat split. Qed.

#[global] Instance acted_frame (P : Action -> Prop) : Frame (acted P).
Proof.
  split; unfold acted.
  - intros st. exists []. now rewrite app_nil_r.
  - intros a b c (l1 & E1 & F1) (l2 & E2 & F2). exists (l1 ++ l2).
    split; [now rewrite E2, E1, <- app_assoc | now apply Forall_app].
Qed.
#[global] Instance acted_act (P : Action -> Prop) : ActFrame P (acted P).
Proof. intros st a Ha. exists [a]. split; [reflexivity | now constructor]. Qed.
#[global] Instance acted_event (P : Action -> Prop) : EventFrame (acted P).
Proof. intros st p. exists []. simpl. now rewrite app_nil_r. Qed.
#[global] Instance acted_tick (P : Action -> Prop) : TickFrame (acted P).
Proof. intros st. exists []. simpl. now rewrite app_nil_r. Qed.
#[global] Instance acted_fs (P : Action -> Prop) : FsFrame (acted P).
Proof. intros st fs'. exists []. simpl. now rewrite app_nil_r. Qed.

Ltac frame := first [assumption | typeclasses eauto].

(** ** The checks that precede any download (lines 407-447) *)

Section Validate.
Context `{Platform}.

Lemma da_validate_only_events (pluginInfo : option ArtifactHubHeadlampPkg)
    (hv : string) (cb : option ProgressCallback) (signal : option AbortSignal) :
  respects only_events (da_validate pluginInfo hv cb signal).
Proof.
  unfold da_validate.
  apply respects_bind; [frame | apply respects_checkCancelled; frame |].
  intros _. apply respects_bind; [frame | |].
  { destruct pluginInfo; [apply respects_ret | apply respects_throw]; frame. }
  intros pkg.
  destruct (negb (validatePluginName (name pkg))); [apply respects_throw; frame |].
  destruct (negb (validateArchiveURL (archiveURL pkg))); [apply respects_throw; frame |].
  destruct (is_empty (archiveURL pkg) || is_empty (archiveChecksum pkg));
    [apply respects_throw; frame |].
  apply respects_bind; [frame | |].
  { destruct (negb (is_empty hv)); [| apply respects_ret; frame].
    apply respects_bind; [frame | apply respects_notify; frame |].
    intros _. destruct (semver_satisfies hv (versionCompat pkg));
      [apply respects_notify | apply respects_throw]; frame. }
  intros _. apply respects_bind; [frame | apply respects_checkCancelled; frame |].
  intros _. apply respects_ret; frame.
Qed.

Lemma da_validate_cancelled (pluginInfo : option ArtifactHubHeadlampPkg)
    (hv : string) (cb : option ProgressCallback) (signal : option AbortSignal)
    (st : State) :
  fired_at signal (st_clock st) = true ->
  da_validate pluginInfo hv cb signal st = (Throw (Error "Download cancelled"), st).
Proof.
  intros Hf. unfold da_validate, checkCancelled. unfold_m. now rewrite Hf.
Qed.

Lemma da_validate_bad_name (pkg : ArtifactHubHeadlampPkg)
    (hv : string) (cb : option ProgressCallback) (signal : option AbortSignal)
    (st : State) :
  fired_at signal (st_clock st) = false ->
  validatePluginName (name pkg) = false ->
  da_validate (Some pkg) hv cb signal st = (Throw (Error "Invalid plugin name"), st).
Proof.
  intros Hf Hn. unfold da_validate, checkCancelled. unfold_m.
  now rewrite Hf, Hn.
Qed.

Lemma da_validate_bad_url (pkg : ArtifactHubHeadlampPkg)
    (hv : string) (cb : option ProgressCallback) (signal : option AbortSignal)
    (st : State) :
  fired_at signal (st_clock st) = false ->
  validatePluginName (name pkg) = true ->
  validateArchiveURL (archiveURL pkg) = false ->
  da_validate (Some pkg) hv cb signal st
  = (Throw (Error ("Invalid plugin/archive-url:" +:+ archiveURL pkg)), st).
Proof.
  intros Hf Hn Hu. unfold da_validate, checkCancelled. unfold_m.
  now rewrite Hf, Hn, Hu.
Qed.

(** What the first stage throws, the whole function throws, in the same
    state. *)
Lemma downloadExtractArchive_early (pluginInfo : option ArtifactHubHeadlampPkg)
    (hv : string) (cb : option ProgressCallback) (signal : option AbortSignal)
    (st st' : State) (e : JsError) :
  da_validate pluginInfo hv cb signal st = (Throw e, st') ->
  downloadExtractArchive pluginInfo hv cb signal st = (Throw e, st').
Proof.
  intros E. unfold downloadExtractArchive. unfold mbind at 1. unfold M_bind.
  now rewrite E.
Qed.

Lemma installFromPluginPkg_early (pluginInfo : option ArtifactHubHeadlampPkg)
    (dest : Path) (hv : string) (cb : option ProgressCallback)
    (signal : option AbortSignal) (st st' : State) (e : JsError) :
  downloadExtractArchive pluginInfo hv cb signal st = (Throw e, st') ->
  PluginManager.installFromPluginPkg pluginInfo dest hv cb signal st
  = report cb e (tick st').
Proof.
  intros E. unfold PluginManager.installFromPluginPkg, try_catch.
  unfold mbind at 1. unfold M_bind, await. now rewrite E.
Qed.

Lemma update_replace_early (pluginDir : Path) (pkg : ArtifactHubHeadlampPkg)
    (dest : Path) (hv : string) (cb : option ProgressCallback)
    (signal : option AbortSignal) (st st' : State) (e : JsError) :
  downloadExtractArchive (Some pkg) hv cb signal st = (Throw e, st') ->
  PluginManager.update_replace pluginDir pkg dest hv cb signal st
  = (Throw e, tick st').
Proof.
  intros E. unfold PluginManager.update_replace.
  unfold mbind at 1. unfold M_bind, await. now rewrite E.
Qed.

(** After a metadata fetch that succeeded, [install] goes the same way. *)
Lemma install_after_fetch (URL : string) (dest : Path) (hv : string)
    (cb : option ProgressCallback) (signal : option AbortSignal)
    (st st1 : State) (pkg : ArtifactHubHeadlampPkg) :
  fetchPluginInfo (Some (JStr URL)) cb signal st = (Ok pkg, st1) ->
  PluginManager.install URL dest hv cb signal st
  = PluginManager.installFromPluginPkg (Some pkg) dest hv cb signal (tick st1).
Proof.
  intros E. unfold PluginManager.install, try_catch.
  unfold mbind at 1. unfold M_bind at 1.
  unfold mbind at 1. unfold M_bind at 1. unfold await. now rewrite E.
Qed.

End Validate.

(** ** Plugin names (claim C2) *)

(** C2, as amended.  For every package whose name contains [/], [\] or [..],
    [validatePluginName] returns false, and [downloadExtractArchive], through
    which install and update obtain the archive, throws 'Invalid plugin name'
    (or 'Download cancelled' when the signal has already fired) in the very
    state it was called in: no request, no file-system call, no event.
    [installFromPluginPkg] then reports that error and [update] stops before
    replacing anything. *)
Theorem invalid_name_aborts_download `{Platform}
    (pkg : ArtifactHubHeadlampPkg) (dest : Path) (hv : string)
    (cb : option ProgressCallback) (signal : option AbortSignal) (st : State) :
  contains "/" (name pkg) \/ contains "\" (name pkg) \/ contains ".." (name pkg) ->
  validatePluginName (name pkg) = false
  /\ exists e,
      (e = Error "Invalid plugin name" \/ e = Error "Download cancelled")
      /\ downloadExtractArchive (Some pkg) hv cb signal st = (Throw e, st)
      /\ PluginManager.installFromPluginPkg (Some pkg) dest hv cb signal st
         = report cb e (tick st)
      /\ forall pluginDir,
           PluginManager.update_replace pluginDir pkg dest hv cb signal st
           = (Throw e, tick st).
Proof.
  intros Hbad. apply validatePluginName_false in Hbad as Hn. split; [exact Hn |].
  destruct (fired_at signal (st_clock st)) eqn:Hf.
  - exists (Error "Download cancelled").
    pose proof (da_validate_cancelled (Some pkg) hv cb signal st Hf) as E.
    apply downloadExtractArchive_early in E.
    split; [now right |]. split; [exact E |]. split.
    + now apply installFromPluginPkg_early.
    + intros pluginDir. now apply update_replace_early.
  - exists (Error "Invalid plugin name").
    pose proof (da_validate_bad_name pkg hv cb signal st Hf Hn) as E.
    apply downloadExtractArchive_early in E.
    split; [now left |]. split; [exact E |]. split.
    + now apply installFromPluginPkg_early.
    + intros pluginDir. now apply update_replace_early.
Qed.

Lemma invalid_name_aborts_download_witness :
  validatePluginName (name Sample.traversingPkg) = false
  /\ exists e,
      (e = Error "Invalid plugin name" \/ e = Error "Download cancelled")
      /\ @downloadExtractArchive (Sample.platform Sample.traversingPkg)
           (Some Sample.traversingPkg) "" None None (Sample.start Sample.base)
         = (Throw e, Sample.start Sample.base)
      /\ @PluginManager.installFromPluginPkg (Sample.platform Sample.traversingPkg)
           (Some Sample.traversingPkg) Sample.root "" None None
           (Sample.start Sample.base)
         = report None e (tick (Sample.start Sample.base))
      /\ forall pluginDir,
           @PluginManager.update_replace (Sample.platform Sample.traversingPkg)
             pluginDir Sample.traversingPkg Sample.root "" None None
             (Sample.start Sample.base)
           = (Throw e, tick (Sample.start Sample.base)).
Proof.
  apply (@invalid_name_aborts_download (Sample.platform Sample.traversingPkg)
           Sample.traversingPkg Sample.root "" None None (Sample.start Sample.base)).
  right; right. exists "", "/evil". reflexivity.
Defined.

(** C2 as stated fails for uninstall: the name it is given is never
    validated.  A managed plugin whose manifest name is the scoped name
    [@acme/demo] is uninstalled, its folder removed. *)
Lemma uninstall_accepts_separator_name :
  contains "/" "@acme/demo"
  /\ validatePluginName "@acme/demo" = false
  /\ fst (PluginManager.uninstall "@acme/demo" Sample.root None
            (Sample.start Sample.scopedFS)) = Ok tt
  /\ st_fs (snd (PluginManager.uninstall "@acme/demo" Sample.root None
                   (Sample.start Sample.scopedFS))) = Sample.base
  /\ In (ARmdir (Sample.root ++ ["demo"]))
        (st_actions (snd (PluginManager.uninstall "@acme/demo" Sample.root None
                            (Sample.start Sample.scopedFS)))).
Proof.
  split; [now exists "@acme", "demo" |].
  split; [reflexivity |].
  split; [reflexivity |].
  split; [reflexivity |].
  vm_compute. tauto.
Qed.

(** ** Archive URLs (claim C3) *)

(** C3, as amended.  [validateArchiveURL] returns true exactly for the URLs
    of the allow-list.  For any other URL [downloadExtractArchive] throws in
    the very state it was called in, before anything is created or
    downloaded: the invalid-archive-url error when the signal has not fired
    and the plugin name is valid, and 'Download cancelled' or 'Invalid plugin
    name', which are checked first, when it has fired or the name is not. *)
Theorem archive_url_allow_list `{Platform}
    (pkg : ArtifactHubHeadlampPkg) (hv : string)
    (cb : option ProgressCallback) (signal : option AbortSignal) (st : State) :
  (validateArchiveURL (archiveURL pkg) = true <-> allow_listed (archiveURL pkg))
  /\ (~ allow_listed (archiveURL pkg) ->
      validateArchiveURL (archiveURL pkg) = false
      /\ downloadExtractArchive (Some pkg) hv cb signal st
         = (Throw (if fired_at signal (st_clock st)
                   then Error "Download cancelled"
                   else if validatePluginName (name pkg)
                        then Error ("Invalid plugin/archive-url:" +:+ archiveURL pkg)
                        else Error "Invalid plugin name"),
            st)).
Proof.
  split; [apply validateArchiveURL_spec |].
  intros Hno.
  assert (Hu : validateArchiveURL (archiveURL pkg) = false).
  { destruct (validateArchiveURL (archiveURL pkg)) eqn:Ev; [| reflexivity].
    apply validateArchiveURL_spec in Ev. contradiction. }
  split; [exact Hu |].
  destruct (fired_at signal (st_clock st)) eqn:Hf.
  { apply downloadExtractArchive_early. now apply da_validate_cancelled. }
  destruct (validatePluginName (name pkg)) eqn:Hn.
  - apply downloadExtractArchive_early. now apply da_validate_bad_url.
  - apply downloadExtractArchive_early. now apply da_validate_bad_name.
Qed.

Lemma archive_url_allow_list_witness :
  validateArchiveURL (archiveURL Sample.foreignPkg) = false
  /\ @downloadExtractArchive (Sample.platform Sample.foreignPkg)
       (Some Sample.foreignPkg) "" None None (Sample.start Sample.base)
     = (Throw (Error ("Invalid plugin/archive-url:" +:+ archiveURL Sample.foreignPkg)),
        Sample.start Sample.base).
Proof.
  destruct (@archive_url_allow_list (Sample.platform Sample.foreignPkg)
              Sample.foreignPkg "" None None (Sample.start Sample.base))
    as [Hiff Hrej].
  apply Hrej. intros Hal. apply Hiff in Hal. vm_compute in Hal. discriminate.
Defined.

(** C3 as stated fails on the error: a URL outside the allow-list does not
    always abort the operation with the invalid-archive-url error.  The name
    is checked before the URL, so a package with a traversing name and an
    archive on an unknown host is refused with 'Invalid plugin name'; and
    under a signal that has fired the same URL is refused with 'Download
    cancelled'. *)
Lemma invalid_name_precedes_invalid_url :
  validateArchiveURL (archiveURL Sample.roguePkg) = false
  /\ @downloadExtractArchive (Sample.platform Sample.roguePkg)
       (Some Sample.roguePkg) "" None None (Sample.start Sample.base)
     = (Throw (Error "Invalid plugin name"), Sample.start Sample.base)
  /\ @downloadExtractArchive (Sample.platform Sample.foreignPkg)
       (Some Sample.foreignPkg) "" None (Some Sample.fired) (Sample.start Sample.base)
     = (Throw (Error "Download cancelled"), Sample.start Sample.base)
  /\ Error "Invalid plugin name"
     <> Error ("Invalid plugin/archive-url:" +:+ archiveURL Sample.roguePkg)
  /\ Error "Download cancelled"
     <> Error ("Invalid plugin/archive-url:" +:+ archiveURL Sample.foreignPkg).
Proof.
  split; [reflexivity |]. split; [reflexivity |]. split; [reflexivity |].
  split; discriminate.
Qed.

(** The [.] of the provider patterns stops at a line terminator: a release
    URL that holds U+2028 is off the allow-list, and on it again once the
    separator is taken out. *)
Lemma line_separator_not_allow_listed :
  validateArchiveURL Sample.twoLineURL = false
  /\ ~ allow_listed Sample.twoLineURL
  /\ validateArchiveURL
       "https://github.com/acme/demo/releases/v2demo.tar.gz" = true.
Proof.
  assert (Hv : validateArchiveURL Sample.twoLineURL = false) by (vm_compute; reflexivity).
  split; [exact Hv |]. split; [| vm_compute; reflexivity].
  intros Hal. apply validateArchiveURL_spec in Hal. congruence.
Qed.

(** ** Cancellation before the metadata request (claim C9) *)

Section Cancellation.
Context `{Platform}.

Lemma fetch_fired (url : string) (signal : option AbortSignal) (st : State) :
  fired_at signal (st_clock st) = true ->
  fetch url signal st = (Throw AbortError, tick st).
Proof. intros Hf. unfold fetch. unfold_m. now rewrite Hf. Qed.

(** C9, as amended.  When the signal has already fired, [fetchPluginInfo]
    issues no request and fails: with the abort error of [fetch] when the
    URL has the ArtifactHub prefix, and with the invalid-URL error, which
    is checked first, when it has not. *)
Theorem fired_signal_issues_no_request (URL : JsVal)
    (cb : option ProgressCallback) (signal : option AbortSignal) (st : State) :
  fired_at signal (st_clock st) = true ->
  exists e st',
    fetchPluginInfo URL cb signal st = (Throw e, st')
    /\ st_actions st' = st_actions st
    /\ st_fs st' = st_fs st
    /\ (forall url, URL = Some (JStr url) ->
          startsWith url artifacthubPrefix = true -> e = AbortError)
    /\ (forall url, URL = Some (JStr url) ->
          startsWith url artifacthubPrefix = false -> e = invalidURL).
Proof.
  intros Hf. unfold fetchPluginInfo, try_catch.
  destruct URL as [v|]; [destruct v as [| | |url| |] |];
    try (unfold_m; simpl; destruct cb; simpl; eexists; eexists;
         repeat split; intros; discriminate).
  destruct (startsWith url artifacthubPrefix) eqn:Es.
  - unfold mbind at 1. unfold M_bind at 1. unfold lift at 1. simpl.
    rewrite Es. simpl.
    assert (Ef : forall st0, st_clock st0 = st_clock st ->
              fetch (replace_first url artifacthubPrefix artifacthubApiPrefix)
                    signal st0 = (Throw AbortError, tick st0)).
    { intros st0 Ec. apply fetch_fired. now rewrite Ec. }
    destruct cb as [cb|]; unfold_m; simpl.
    + rewrite Ef by reflexivity. simpl. eexists; eexists.
      repeat split; intros; simplify_eq; congruence.
    + rewrite Ef by reflexivity. simpl. eexists; eexists.
      repeat split; intros; simplify_eq; congruence.
  - unfold_m. simpl. rewrite Es. simpl. destruct cb; simpl; eexists; eexists;
      repeat split; intros; simplify_eq; congruence.
Qed.

End Cancellation.

Lemma fired_signal_issues_no_request_witness :
  exists e st',
    @fetchPluginInfo (Sample.platform (Sample.demoPkg "00"))
      (Some (JStr Sample.registryURL)) None (Some Sample.fired)
      (Sample.start Sample.base) = (Throw e, st')
    /\ st_actions st' = []
    /\ e = AbortError.
Proof.
  destruct (@fired_signal_issues_no_request (Sample.platform (Sample.demoPkg "00"))
              (Some (JStr Sample.registryURL)) None (Some Sample.fired)
              (Sample.start Sample.base) eq_refl)
    as (e & st' & Hrun & Hact & _ & Hab & _).
  exists e, st'. split; [exact Hrun |]. split; [exact Hact |].
  apply (Hab Sample.registryURL); reflexivity.
Defined.

(** C9 as stated fails: with a URL outside ArtifactHub the call made under a
    fired signal fails, but with the invalid-URL error, not as cancelled. *)
Lemma fired_signal_invalid_url_not_cancelled :
  fired_at (Some Sample.fired) 0 = true
  /\ @fetchPluginInfo (Sample.platform (Sample.demoPkg "00"))
       (Some (JStr "https://example.org/headlamp/demo")) None (Some Sample.fired)
       (Sample.start Sample.base)
     = (Throw invalidURL, Sample.start Sample.base)
  /\ invalidURL <> AbortError
  /\ invalidURL <> Error "Download cancelled".
Proof.
  split; [reflexivity |]. split; [reflexivity |]. split; discriminate.
Qed.

(** ** The two reporting channels (claim C4) *)

(** C4 fails on the code.  With a callback attached, a metadata failure in
    [install] is reported three times: by [fetchPluginInfo] itself, which
    also throws; by the handler of [install], which then goes on with an
    undefined package; and by the handler of [installFromPluginPkg], for the
    [TypeError] that follows. *)
Theorem install_reports_failure_thrice `{Platform}
    (URL : string) (dest : Path) (hv : string) (st : State) :
  startsWith URL artifacthubPrefix = false ->
  fetchPluginInfo (Some (JStr URL)) (Some Recorder) None st
  = (Throw invalidURL,
     mkState (st_fs st) (st_clock st)
             (st_events st ++ [error (message invalidURL)]) (st_actions st))
  /\ PluginManager.install URL dest hv (Some Recorder) None st
     = (Ok tt,
        mkState (st_fs st) (S (S (st_clock st)))
                (((st_events st ++ [error (message invalidURL)])
                    ++ [error (message invalidURL)])
                   ++ [error "Cannot read properties of undefined (reading 'name')"])
                (st_actions st)).
Proof.
  intros Es.
  assert (Ef : forall st0,
            fetchPluginInfo (Some (JStr URL)) (Some Recorder) None st0
            = (Throw invalidURL,
               mkState (st_fs st0) (st_clock st0)
                       (st_events st0 ++ [error (message invalidURL)])
                       (st_actions st0))).
  { intros st0. unfold fetchPluginInfo. unfold_m. simpl. now rewrite Es. }
  split; [apply Ef |].
  unfold PluginManager.install, PluginManager.installFromPluginPkg,
    downloadExtractArchive, da_validate, checkCancelled.
  unfold_m. rewrite Ef. reflexivity.
Qed.

Lemma install_reports_failure_thrice_witness :
  st_events (snd (@PluginManager.install (Sample.platform (Sample.demoPkg "00"))
                    "bogus" Sample.root "" (Some Recorder) None
                    (Sample.start Sample.base)))
  = [ error (message invalidURL); error (message invalidURL);
      error "Cannot read properties of undefined (reading 'name')" ].
Proof.
  destruct (@install_reports_failure_thrice (Sample.platform (Sample.demoPkg "00"))
              "bogus" Sample.root "" (Sample.start Sample.base) eq_refl)
    as [_ E].
  rewrite E. reflexivity.
Defined.

(** ** Listing (claim C6) *)

(** C6 fails on the code.  A folder with [main.js], [package.json] and the
    managed flag set, but no [artifacthub] record in its manifest, passes the
    validity check; [list] then throws on its unguarded
    [packageJson.artifacthub.title] instead of returning the entry. *)
Theorem list_throws_on_unstamped_plugin :
  fst (checkValidPluginFolder (Sample.root ++ ["plain"])
         (Sample.start Sample.unstampedFS)) = Ok true
  /\ fst (PluginManager.list Sample.root None (Sample.start Sample.unstampedFS))
     = Throw (TypeError "Cannot read properties of undefined (reading 'title')")
  /\ st_events (snd (PluginManager.list Sample.root (Some Recorder)
                       (Sample.start Sample.unstampedFS)))
     = [ error "Cannot read properties of undefined (reading 'title')" ].
Proof. repeat split; reflexivity. Qed.

(** A foreign folder is not always skipped either: when it holds a [main.js]
    and a [package.json] that is not JSON, the validity check itself throws
    and [list] returns nothing, the valid plugin next to it included. *)
Lemma list_throws_on_foreign_manifest :
  fst (PluginManager.list Sample.root None (Sample.start Sample.foreignFS))
  = Throw (SyntaxError "Unexpected token in JSON").
Proof. reflexivity. Qed.

(** ** The validity check and the listing *)

Lemma checkValidPluginFolder_validity (folder : Path) (st : State) :
  fst (checkValidPluginFolder folder st) = folder_validity (st_fs st) folder.
Proof.
  unfold checkValidPluginFolder, folder_validity, existsSync, readFileSync.
  unfold_m. simpl.
  destruct (fs_exists (st_fs st) folder); simpl; [| reflexivity].
  destruct (fs_exists (st_fs st) (path_join folder "main.js")); simpl; [| reflexivity].
  destruct (fs_exists (st_fs st) (path_join folder "package.json")); simpl;
    [| reflexivity].
  destruct (fs_readFile (st_fs st) (path_join folder "package.json")) as [[v|t]|e];
    simpl; try reflexivity.
  destruct v; simpl; try reflexivity;
    match goal with |- context [truthy ?x] => now destruct (truthy x) end.
Qed.

Lemma checkValidPluginFolder_same_fs (folder : Path) :
  respects same_fs (checkValidPluginFolder folder).
Proof.
  apply (respects_checkValidPluginFolder (fun _ => True)); [frame | frame | auto].
Qed.

Lemma pluginEntry_folderName (packageJson : JSON) (f : string) (e : PluginData) :
  PluginManager.pluginEntry packageJson f = Ok e -> folderName e = f.
Proof.
  unfold PluginManager.pluginEntry. unfold_m. intros E.
  repeat match type of E with
         | match ?x with _ => _ end = _ => destruct x; try discriminate
         end.
  now inversion E.
Qed.

Lemma result_bind_ok {A B : Type} (x : Result A) (k : A -> Result B) (b : B) :
  x ≫= k = Ok b -> exists a, x = Ok a /\ k a = Ok b.
Proof. destruct x as [a|e]; simpl; intros E; [now exists a | discriminate]. Qed.

(** A manifest without a name: the plugin goes by its folder name. *)
Lemma pluginEntry_default_name (fields : list (string * JSON)) (f : string)
    (e : PluginData) :
  PluginManager.pluginEntry (JObj fields) f = Ok e ->
  assoc "name" fields = None ->
  pluginName e = Some (JStr f).
Proof.
  unfold PluginManager.pluginEntry. intros E Hn.
  apply result_bind_ok in E as (nm & Enm & E). simpl in Enm.
  rewrite Hn in Enm. inversion Enm; subst nm.
  repeat (apply result_bind_ok in E as (? & _ & E)).
  now inversion E.
Qed.

Lemma list_loop_spec (folder : Path) (names : list string) :
  forall (acc : list PluginData) (st : State) (l : list PluginData) (st' : State),
    PluginManager.list_loop folder names acc st = (Ok l, st') ->
    map folderName l
    = map folderName acc ++ filter (fun f => is_valid (st_fs st) folder f) names
    /\ st_fs st' = st_fs st.
Proof.
  induction names as [|f names IH]; intros acc st l st' E; simpl in E.
  - inversion E; subst. simpl. now rewrite app_nil_r.
  - unfold mbind at 1 in E. unfold M_bind at 1 in E.
    destruct (checkValidPluginFolder (path_join folder f) st) as [[v|e] st1] eqn:Ev;
      [| discriminate].
    pose proof (checkValidPluginFolder_validity (path_join folder f) st) as Hv.
    rewrite Ev in Hv. simpl in Hv.
    pose proof (checkValidPluginFolder_same_fs _ _ _ _ Ev) as Hfs1.
    unfold same_fs in Hfs1.
    unfold mbind at 1 in E. unfold M_bind at 1 in E.
    destruct v.
    + unfold readFileSync in E. unfold_m. simpl in E.
      destruct (fs_readFile (st_fs st1) (path_join (path_join folder f) "package.json"))
        as [d|e]; simpl in E; [| discriminate].
      destruct d as [pj|t]; simpl in E; [| discriminate].
      destruct (PluginManager.pluginEntry pj f) as [entry|e] eqn:Ee; simpl in E;
        [| discriminate].
      apply IH in E as [El Efs]. simpl in Efs.
      apply pluginEntry_folderName in Ee.
      split; [| congruence].
      assert (Hval : is_valid (st_fs st) folder f = true)
        by (unfold is_valid; now rewrite <- Hv).
      rewrite El. simpl st_fs. rewrite Hfs1.
      rewrite filter_cons_True by (now rewrite Hval).
      rewrite map_app. simpl. rewrite Ee. now rewrite <- app_assoc.
    + unfold_m. apply IH in E as [El Efs].
      split; [| congruence].
      assert (Hval : is_valid (st_fs st) folder f = false)
        by (unfold is_valid; now rewrite <- Hv).
      rewrite El. rewrite Hfs1.
      rewrite filter_cons_False by (now rewrite Hval). reflexivity.
Qed.

Lemma list_same_fs (folder : Path) (cb : option ProgressCallback) :
  respects same_fs (PluginManager.list folder cb).
Proof.
  unfold PluginManager.list. apply respects_try_catch; [frame | |].
  - apply respects_bind; [frame | |].
    { apply (respects_readdirSync (fun _ => True)); [frame | frame | exact I]. }
    intros entries. apply respects_bind; [frame | |].
    + intros st r st' E. destruct r as [l|e].
      * apply list_loop_spec in E. apply E.
      * generalize dependent st.
        generalize (@nil PluginData).
        induction (map fst (filter (fun e0 : string * bool => snd e0) entries))
          as [|f names IH]; intros acc st E; simpl in E; [discriminate |].
        unfold mbind at 1 in E. unfold M_bind at 1 in E.
        destruct (checkValidPluginFolder (path_join folder f) st) as [[v|e1] st1] eqn:Ev.
        -- pose proof (checkValidPluginFolder_same_fs _ _ _ _ Ev) as Hfs1.
           unfold same_fs in *.
           unfold mbind at 1 in E. unfold M_bind at 1 in E.
           destruct v.
           ++ unfold readFileSync in E. unfold_m. simpl in E.
              destruct (fs_readFile (st_fs st1)
                          (path_join (path_join folder f) "package.json"))
                as [d|e2]; simpl in E; [| inversion E; subst; simpl; congruence].
              destruct d as [pj|t]; simpl in E; [| inversion E; subst; simpl; congruence].
              destruct (PluginManager.pluginEntry pj f) as [entry|e3]; simpl in E;
                [| inversion E; subst; simpl; congruence].
              apply IH in E. simpl in E. congruence.
           ++ unfold_m. apply IH in E. congruence.
        -- inversion E; subst.
           exact (checkValidPluginFolder_same_fs _ _ _ _ Ev).
    + intros l. destruct cb; [| apply respects_ret; frame].
      apply respects_bind; [frame | apply respects_call; frame |].
      intros _. apply respects_ret; frame.
  - intros e. apply respects_bind; [frame | apply respects_report; frame |].
    intros _. apply respects_ret; frame.
Qed.

(** What [list] returns, in folder names: the valid sub-directories, in
    directory order. *)
Lemma list_spec (folder : Path) (st : State) (l : list PluginData) (st' : State) :
  PluginManager.list folder None st = (Ok (Some l), st') ->
  map folderName l
  = filter (fun f => is_valid (st_fs st) folder f) (directories (st_fs st) folder).
Proof.
  unfold PluginManager.list, try_catch, readdirSync. unfold_m. simpl.
  unfold fs_readdir.
  destruct (node_at (st_fs st) folder) as [[|d]|]; simpl; try discriminate.
  match goal with
  | |- context [PluginManager.list_loop ?f ?n ?a ?s] =>
      destruct (PluginManager.list_loop f n a s) as [[l0|e] st1] eqn:El
  end; simpl; [| discriminate].
  intros E. inversion E; subst.
  apply list_loop_spec in El as [El _]. exact El.
Qed.

(** ** The managed flag (claim C10) *)

(** C10.  [checkValidPluginFolder] takes the manifest's
    [isManagedByHeadlampPlugin] by its truthiness: for a folder that exists
    and holds [main.js] and a manifest with the flag set to [flag], the check
    returns the truthiness of [flag]; it therefore returns true for every
    non-empty string and every non-zero number, and such a folder is among
    the entries [list] returns, from which update and uninstall pick their
    target. *)
Theorem truthy_flag_counts_as_managed (folder : Path)
    (fields : list (string * JSON)) (flag : JSON) (st : State) :
  fs_exists (st_fs st) folder = true ->
  fs_exists (st_fs st) (folder ++ ["main.js"]) = true ->
  fs_readFile (st_fs st) (folder ++ ["package.json"]) = Ok (JsonDoc (JObj fields)) ->
  assoc "isManagedByHeadlampPlugin" fields = Some flag ->
  fst (checkValidPluginFolder folder st) = Ok (truthy (Some flag))
  /\ (forall s, flag = JStr s -> s <> "" ->
        fst (checkValidPluginFolder folder st) = Ok true)
  /\ (forall n, flag = JNum n -> n <> 0%Z ->
        fst (checkValidPluginFolder folder st) = Ok true)
  /\ (truthy (Some flag) = true ->
      forall root f l st',
        folder = path_join root f ->
        In f (directories (st_fs st) root) ->
        PluginManager.list root None st = (Ok (Some l), st') ->
        In f (map folderName l)).
Proof.
  intros Hd Hm Hp Hf.
  assert (Hv : folder_validity (st_fs st) folder = Ok (truthy (Some flag))).
  { unfold folder_validity.
    change (path_join folder "main.js") with (folder ++ ["main.js"]).
    change (path_join folder "package.json") with (folder ++ ["package.json"]).
    rewrite Hd, Hm. simpl.
    assert (He : fs_exists (st_fs st) (folder ++ ["package.json"]) = true).
    { unfold fs_exists. unfold fs_readFile in Hp.
      destruct (node_at (st_fs st) (folder ++ ["package.json"])); [reflexivity | discriminate]. }
    rewrite He, Hp. simpl. now rewrite Hf. }
  assert (Hc : fst (checkValidPluginFolder folder st) = Ok (truthy (Some flag)))
    by (now rewrite checkValidPluginFolder_validity).
  split; [exact Hc |]. split; [| split].
  - intros s -> Hs. rewrite Hc. simpl.
    destruct (String.eqb_spec s ""); [contradiction | reflexivity].
  - intros n -> Hn. rewrite Hc. simpl.
    destruct (Z.eqb_spec n 0); [contradiction | reflexivity].
  - intros Ht root f l st' -> Hin Hl.
    apply list_spec in Hl. rewrite Hl.
    apply list_elem_of_In, list_elem_of_filter. split.
    + unfold is_valid. rewrite Hv, Ht. exact I.
    + now apply list_elem_of_In.
Qed.

Lemma truthy_flag_counts_as_managed_witness :
  fst (checkValidPluginFolder (Sample.root ++ ["demo"]) (Sample.start Sample.truthyFS))
  = Ok true.
Proof.
  refine (proj1 (proj2 (@truthy_flag_counts_as_managed (Sample.root ++ ["demo"])
            _ (JStr "yes") (Sample.start Sample.truthyFS) _ _ _ _)) "yes" eq_refl _).
  - reflexivity.
  - reflexivity.
  - reflexivity.
  - reflexivity.
  - discriminate.
Defined.

(** The plugin of [truthyFS] is listed, and uninstalling it removes it. *)
Lemma truthy_flag_listed_and_removed :
  (exists l st', PluginManager.list Sample.root None (Sample.start Sample.truthyFS)
                 = (Ok (Some l), st')
                 /\ map folderName l = ["demo"])
  /\ st_fs (snd (PluginManager.uninstall "demo" Sample.root None
                   (Sample.start Sample.truthyFS))) = Sample.base.
Proof.
  split; [| reflexivity].
  eexists; eexists. split; [vm_compute; reflexivity | reflexivity].
Qed.

(** ** Stepping through a run *)

Lemma bind_run {A B : Type} (m : M A) (k : A -> M B) (st : State)
    (r : Result B) (st' : State) :
  (m ≫= k) st = (r, st') ->
  (exists a st1, m st = (Ok a, st1) /\ k a st1 = (r, st'))
  \/ (exists e, m st = (Throw e, st') /\ r = Throw e).
Proof.
  unfold mbind, M_bind. destruct (m st) as [[a|e] st1]; intros E.
  - left. now exists a, st1.
  - right. inversion E; subst. now exists e.
Qed.

Lemma try_catch_run {A : Type} (m : M A) (h : JsError -> M A) (st : State)
    (r : Result A) (st' : State) :
  try_catch m h st = (r, st') ->
  (exists a, m st = (Ok a, st') /\ r = Ok a)
  \/ (exists e st1, m st = (Throw e, st1) /\ h e st1 = (r, st')).
Proof.
  unfold try_catch. destruct (m st) as [[a|e] st1]; intros E.
  - left. inversion E; subst. now exists a.
  - right. now exists e, st1.
Qed.

Lemma report_same_fs (cb : option ProgressCallback) (e : JsError) :
  respects same_fs (report cb e).
Proof. apply respects_report; frame. Qed.

Section Throws.
Context (E : JsError -> Prop).

Lemma throws_ret {A : Type} (a : A) : throws_only E (mret a).
Proof. intros st e st' H. discriminate. Qed.

Lemma throws_throw {A : Type} (e : JsError) : E e -> throws_only E (@throw A e).
Proof. intros He st e' st' H. inversion H; now subst. Qed.

Lemma throws_bind {A B : Type} (m : M A) (k : A -> M B) :
  throws_only E m -> (forall a, throws_only E (k a)) -> throws_only E (m ≫= k).
Proof.
  intros Hm Hk st e st' H.
  apply bind_run in H as [(a & st1 & E1 & E2)|(e' & E1 & E2)].
  - exact (Hk _ _ _ _ E2).
  - inversion E2; subst. exact (Hm _ _ _ E1).
Qed.

Lemma throws_lift {A : Type} (x : Result A) :
  (forall e, x = Throw e -> E e) -> throws_only E (lift x).
Proof. intros Hx st e st' H. inversion H; subst. now apply Hx. Qed.

Lemma throws_act (a : Action) : throws_only E (act a).
Proof. intros st e st' H. discriminate. Qed.

Lemma throws_get_fs : throws_only E get_fs.
Proof. intros st e st' H. discriminate. Qed.

End Throws.

Lemma get_prop_not_plain (v : JsVal) (k : string) (e : JsError) :
  get_prop v k = Throw e -> not_plain e.
Proof.
  destruct v as [[]|]; simpl; intros H m; inversion H; subst; discriminate.
Qed.

Lemma fs_readFile_not_plain (fs : FS) (p : Path) (e : JsError) :
  fs_readFile fs p = Throw e -> not_plain e.
Proof.
  unfold fs_readFile. destruct (node_at fs p) as [[|d]|]; intros H m;
    inversion H; subst; discriminate.
Qed.

Lemma existsSync_throws (E : JsError -> Prop) (p : Path) :
  throws_only E (existsSync p).
Proof.
  apply throws_bind; [apply throws_act |]. intros _.
  apply throws_bind; [apply throws_get_fs |]. intros fs. apply throws_ret.
Qed.

Lemma readFileSync_throws (p : Path) : throws_only not_plain (readFileSync p).
Proof.
  apply throws_bind; [apply throws_act |]. intros _.
  apply throws_bind; [apply throws_get_fs |]. intros fs.
  apply throws_lift. apply fs_readFile_not_plain.
Qed.

Lemma JSON_parse_throws (d : FileData) : throws_only not_plain (JSON_parse d).
Proof.
  destruct d; [apply throws_ret |]. apply throws_throw. intros m. discriminate.
Qed.

Lemma checkValidPluginFolder_throws (folder : Path) :
  throws_only not_plain (checkValidPluginFolder folder).
Proof.
  unfold checkValidPluginFolder.
  apply throws_bind; [apply existsSync_throws |].
  intros [|]; simpl; [| apply throws_ret].
  apply throws_bind; [apply existsSync_throws |].
  intros e1. apply throws_bind.
  { destruct e1; simpl; [| apply throws_ret].
    apply throws_bind; [apply existsSync_throws |]. intros e2. apply throws_ret. }
  intros [|]; [apply throws_ret |].
  apply throws_bind; [apply readFileSync_throws |].
  intros d. apply throws_bind; [apply JSON_parse_throws |].
  intros v. apply throws_bind.
  { apply throws_lift. intros e0.
    exact (get_prop_not_plain (Some v) "isManagedByHeadlampPlugin" e0). }
  intros flag. destruct (truthy flag); apply throws_ret.
Qed.

Lemma result_bind_throw {A B : Type} (x : Result A) (k : A -> Result B) (e : JsError) :
  x ≫= k = Throw e -> x = Throw e \/ exists a, x = Ok a /\ k a = Throw e.
Proof.
  destruct x as [a|e']; simpl; intros H.
  - right. now exists a.
  - left. now inversion H.
Qed.

Lemma pluginEntry_not_plain (packageJson : JSON) (f : string) (e : JsError) :
  PluginManager.pluginEntry packageJson f = Throw e -> not_plain e.
Proof.
  unfold PluginManager.pluginEntry. intros H.
  repeat (apply result_bind_throw in H as [H|(? & _ & H)];
          [ first [ eapply get_prop_not_plain; exact H
                  | match type of H with
                    | (if ?b then _ else _) = _ =>
                        destruct b; [eapply get_prop_not_plain; exact H | discriminate]
                    end ] |]).
  discriminate.
Qed.

(** ** Paths and the file-system map *)

Lemma strip_prefix_spec (p k q : Path) : strip_prefix p k = Some q <-> k = p ++ q.
Proof.
  revert k. induction p as [|a p IH]; intros k; simpl.
  - split; intros E; [now inversion E | now subst].
  - destruct k as [|b k]; [split; discriminate |].
    destruct (String.eqb_spec a b) as [->|Hne].
    + rewrite IH. split; intros E; [now subst | now inversion E].
    + split; [discriminate | intros E; inversion E; congruence].
Qed.

Lemma strip_prefix_app (p q : Path) : strip_prefix p (p ++ q) = Some q.
Proof. now apply strip_prefix_spec. Qed.

Lemma strip_prefix_None (p k : Path) :
  strip_prefix p k = None <-> forall q, k <> p ++ q.
Proof.
  split.
  - intros E q Hq. apply strip_prefix_spec in Hq. congruence.
  - intros Hn. destruct (strip_prefix p k) as [q|] eqn:E; [| reflexivity].
    apply strip_prefix_spec in E. now apply Hn in E.
Qed.

(** Two different entries of one directory have disjoint trees. *)
Lemma strip_prefix_sibling (dir : Path) (f g : string) (q : Path) :
  f <> g -> strip_prefix (dir ++ [g]) (dir ++ f :: q) = None.
Proof.
  intros Hne. apply strip_prefix_None. intros r Hr.
  rewrite <- app_assoc in Hr. apply app_inv_head in Hr. simpl in Hr.
  inversion Hr. congruence.
Qed.

Lemma segments_no_slash (s : string) :
  all_chars Regex.not_slash s = true -> segments s = [s].
Proof.
  induction s as [|c s IH]; simpl; [reflexivity |].
  intros Ha. apply andb_true_iff in Ha as [Hc Hs].
  unfold Regex.not_slash in Hc. apply negb_true_iff in Hc. rewrite Hc.
  now rewrite (IH Hs).
Qed.

Lemma path_join_segment (dir : Path) (f : string) :
  valid_segment f = true -> path_join dir f = dir ++ [f].
Proof.
  unfold valid_segment, path_join. rewrite !andb_true_iff, !negb_true_iff.
  intros [[[H1 H2] H3] H4]. rewrite (segments_no_slash _ H4). simpl.
  unfold join_step. now rewrite H1, H2, H3.
Qed.

Lemma rm_tree_lookup (p k : Path) (fs : FS) :
  rm_tree p fs !! k
  = match strip_prefix p k with
    | None => fs !! k
    | Some _ => None
    end.
Proof.
  unfold rm_tree. rewrite map_lookup_filter.
  destruct (fs !! k) as [n|]; simpl.
  - case_guard as Hg; simpl in Hg; simpl; destruct (strip_prefix p k); congruence.
  - now destruct (strip_prefix p k).
Qed.

Lemma directories_spec (fs : FS) (folder : Path) (f : string) :
  In f (directories fs folder) -> fs !! (folder ++ [f]) = Some NDir.
Proof.
  unfold directories, children. intros Hin.
  apply list_elem_of_In, list_elem_of_fmap in Hin as ([n b] & -> & Hin).
  apply list_elem_of_filter in Hin as [Hb Hin]. simpl in Hb.
  apply list_elem_of_omap in Hin as ([k node] & Hk & Hf). simpl in Hf.
  apply elem_of_map_to_list in Hk.
  destruct (strip_prefix folder k) as [[|n' [|? ?]]|] eqn:Es; try discriminate.
  inversion Hf; subst. apply strip_prefix_spec in Es. subst k.
  destruct node; [assumption | contradiction].
Qed.

Lemma directories_valid_segment (fs : FS) (folder : Path) (f : string) :
  wf_fs fs -> In f (directories fs folder) -> valid_segment f = true.
Proof.
  intros Hwf Hin. apply directories_spec in Hin.
  apply Hwf in Hin. rewrite forallb_app in Hin.
  apply andb_true_iff in Hin as [_ Hf]. simpl in Hf.
  now rewrite andb_true_r in Hf.
Qed.

(** ** Uninstalling (claim C7) *)

Lemma list_loop_throws (folder : Path) (names : list string) :
  forall acc, throws_only not_plain (PluginManager.list_loop folder names acc).
Proof.
  induction names as [|f names IH]; intros acc; simpl.
  - apply throws_ret.
  - apply throws_bind; [apply checkValidPluginFolder_throws |].
    intros v. apply throws_bind; [| intros l; apply IH].
    destruct v; [| apply throws_ret].
    apply throws_bind; [apply readFileSync_throws |].
    intros d. apply throws_bind; [apply JSON_parse_throws |].
    intros pj. apply throws_bind; [| intros entry; apply throws_ret].
    apply throws_lift. apply pluginEntry_not_plain.
Qed.

Lemma list_run_None (folder : Path) (st : State)
    (r : Result (option (list PluginData))) (st' : State) :
  PluginManager.list folder None st = (r, st') ->
  (exists l, r = Ok (Some l)) \/ (exists e, r = Throw e /\ not_plain e).
Proof.
  unfold PluginManager.list. intros E.
  apply try_catch_run in E as [(a & E & ->)|(e & st1 & E & Eh)].
  - left. apply bind_run in E as [(entries & st1 & _ & E)|(e & _ & ?)]; [| discriminate].
    apply bind_run in E as [(l & st2 & _ & E)|(e & _ & ?)]; [| discriminate].
    inversion E. now exists l.
  - right. unfold report in Eh. unfold_m. inversion Eh; subst.
    exists e. split; [reflexivity |].
    apply bind_run in E as [(entries & st2 & E1 & E)|(e' & E1 & E2)].
    + apply bind_run in E as [(l & st3 & _ & E)|(e' & E2 & E3)]; [discriminate |].
      inversion E3; subst. exact (list_loop_throws _ _ _ _ _ _ E2).
    + inversion E2; subst. unfold readdirSync in E1.
      apply bind_run in E1 as [(? & st3 & _ & E1)|(? & E1 & _)]; [| discriminate].
      apply bind_run in E1 as [(fs & st4 & _ & E1)|(? & E1 & _)]; [| discriminate].
      unfold lift, fs_readdir in E1.
      destruct (node_at fs folder) as [[|d]|]; inversion E1; subst; intros m; discriminate.
Qed.

Lemma find_In {A : Type} (p : A -> bool) (l : list A) (x : A) :
  List.find p l = Some x -> In x l.
Proof. intros Hf. now apply List.find_some in Hf as [Hin _]. Qed.

Lemma is_valid_validity (fs : FS) (folder : Path) (f : string) :
  is_valid fs folder f = true -> folder_validity fs (path_join folder f) = Ok true.
Proof.
  unfold is_valid. destruct (folder_validity fs (path_join folder f)) as [[|]|];
    now intros.
Qed.

Lemma validity_exists (fs : FS) (p : Path) :
  folder_validity fs p = Ok true -> fs_exists fs p = true.
Proof.
  unfold folder_validity. destruct (fs_exists fs p); [reflexivity | discriminate].
Qed.

(** Every run of the [try] block of [uninstall] either leaves the file
    system alone and throws, or removes one valid, existing plugin folder. *)
Lemma uninstall_try_run (wanted : string) (folder : Path)
    (cb : option ProgressCallback) (st : State) (r : Result unit) (st' : State) :
  PluginManager.uninstall_try wanted folder cb st = (r, st') ->
  (st_fs st' = st_fs st
   /\ exists e, r = Throw e /\ (not_plain e \/ e = Error "Plugin not found"))
  \/ (r = Ok tt
      /\ exists f,
          In f (directories (st_fs st) folder)
          /\ is_valid (st_fs st) folder f = true
          /\ fs_exists (st_fs st) (path_join folder f) = true
          /\ st_fs st' = rm_tree (path_join folder f) (st_fs st)).
Proof.
  unfold PluginManager.uninstall_try. intros E.
  apply bind_run in E as [(o & st1 & El & E)|(e & El & ->)].
  2:{ left. split; [exact (list_same_fs _ _ _ _ _ El) |].
      exists e. split; [reflexivity |]. left.
      apply list_run_None in El as [(l & ?)|(e' & He & Hp)]; [discriminate |].
      now inversion He; subst. }
  pose proof (list_same_fs _ _ _ _ _ El) as Hfs1. unfold same_fs in Hfs1.
  destruct (list_run_None _ _ _ _ El) as [(l & Eo)|(e' & ? & _)]; [| discriminate].
  inversion Eo; subst o; clear Eo.
  apply list_spec in El as Hl.
  apply bind_run in E as [(plugin & st2 & Ef & E)|(e & Ef & ->)].
  2:{ left. unfold PluginManager.findInstalled in Ef.
      destruct (List.find _ l); inversion Ef; subst.
      split; [exact Hfs1 |]. exists (Error "Plugin not found"). now split; [| right]. }
  unfold PluginManager.findInstalled in Ef.
  destruct (List.find _ l) as [pl|] eqn:Hfind; inversion Ef; subst pl st2; clear Ef.
  apply find_In in Hfind.
  assert (Hin : folderName plugin ∈ filter (fun f => is_valid (st_fs st) folder f)
                                           (directories (st_fs st) folder)).
  { rewrite <- Hl. apply list_elem_of_In. now apply in_map. }
  apply list_elem_of_filter in Hin as [Hval Hdir].
  apply Is_true_true in Hval. apply list_elem_of_In in Hdir.
  pose proof (is_valid_validity _ _ _ Hval) as Hv.
  apply bind_run in E as [(valid & st2 & Ec & E)|(e & Ec & ->)].
  2:{ left. split.
      - pose proof (checkValidPluginFolder_same_fs _ _ _ _ Ec) as H2.
        unfold same_fs in H2. congruence.
      - exists e. split; [reflexivity |]. left.
        exact (checkValidPluginFolder_throws _ _ _ _ Ec). }
  pose proof (checkValidPluginFolder_same_fs _ _ _ _ Ec) as Hfs2. unfold same_fs in Hfs2.
  pose proof (checkValidPluginFolder_validity (path_join folder (folderName plugin)) st1)
    as Hcv.
  rewrite Ec, Hfs1, Hv in Hcv. simpl in Hcv. inversion Hcv; subst valid. simpl in E.
  unfold existsSync, rmdirSync in E. unfold_m. simpl in E.
  rewrite Hfs2, Hfs1 in E. rewrite (validity_exists _ _ Hv) in E.
  simpl in E. rewrite ?Hfs2, ?Hfs1 in E.
  unfold fs_rmdir in E.
  destruct (node_at (st_fs st) (path_join folder (folderName plugin))) as [[|d]|] eqn:En;
    simpl in E.
  - right. destruct cb; inversion E; subst; simpl;
      (split; [reflexivity |]); exists (folderName plugin);
      repeat split; auto using validity_exists.
  - left. inversion E; subst; simpl. split; [congruence |].
    exists ENOTDIR. split; [reflexivity |]. left. intros m. discriminate.
  - left. inversion E; subst; simpl. split; [congruence |].
    exists ENOENT. split; [reflexivity |]. left. intros m. discriminate.
Qed.

(** C7, as amended.  Whatever name it is given, [uninstall] changes the file
    system, if at all, by removing recursively one sub-directory that passes
    the validity check and exists; a sub-directory that fails the check (one
    lacking the managed flag, say) keeps all it holds.  A run that removes
    nothing fails, by a throw or by an error event handed to the callback,
    and never with 'Invalid plugin folder': a folder that fails the check is
    absent from the listing that [uninstall] searches, so that when the
    listing succeeds and no listed plugin carries the name the failure is
    'Plugin not found', and when the listing itself fails the failure is the
    listing's error. *)
Theorem uninstall_spares_invalid_folders (wanted : string) (folder : Path)
    (cb : option ProgressCallback) (st : State) (r : Result unit) (st' : State) :
  wf_fs (st_fs st) ->
  PluginManager.uninstall wanted folder cb st = (r, st') ->
  (st_fs st' = st_fs st
   \/ exists f,
       In f (directories (st_fs st) folder)
       /\ is_valid (st_fs st) folder f = true
       /\ fs_exists (st_fs st) (folder ++ [f]) = true
       /\ st_fs st' = rm_tree (folder ++ [f]) (st_fs st))
  /\ (forall f, In f (directories (st_fs st) folder) ->
        is_valid (st_fs st) folder f = false ->
        forall q, st_fs st' !! (folder ++ f :: q) = st_fs st !! (folder ++ f :: q))
  /\ (forall e, r = Throw e -> not_plain e \/ e = Error "Plugin not found")
  /\ r <> Throw (Error "Invalid plugin folder")
  /\ ((exists f, st_fs st' = rm_tree (folder ++ [f]) (st_fs st)
                 /\ fs_exists (st_fs st) (folder ++ [f]) = true)
      \/ exists e s,
           report cb e s = (r, st')
           /\ st_fs s = st_fs st
           /\ (not_plain e \/ e = Error "Plugin not found"))
  /\ (forall l st1,
        PluginManager.list folder None st = (Ok (Some l), st1) ->
        (forall f, In f (directories (st_fs st) folder) ->
           is_valid (st_fs st) folder f = false -> ~ In f (map folderName l))
        /\ (List.find (fun p => strict_eq_string (pluginName p) wanted) l = None ->
            report cb (Error "Plugin not found") st1 = (r, st')
            /\ st_fs st' = st_fs st))
  /\ (forall e st1,
        PluginManager.list folder None st = (Throw e, st1) ->
        report cb e st1 = (r, st') /\ not_plain e /\ st_fs st' = st_fs st).
Proof.
  intros Hwf E.
  assert (Hcases :
    (exists e s,
        report cb e s = (r, st')
        /\ st_fs s = st_fs st
        /\ (not_plain e \/ e = Error "Plugin not found"))
    \/ (r = Ok tt
        /\ exists f,
            In f (directories (st_fs st) folder)
            /\ is_valid (st_fs st) folder f = true
            /\ fs_exists (st_fs st) (folder ++ [f]) = true
            /\ st_fs st' = rm_tree (folder ++ [f]) (st_fs st))).
  { unfold PluginManager.uninstall in E.
    apply try_catch_run in E as [(a & E & ->)|(e & st1 & E & Eh)].
    - apply uninstall_try_run in E as [(_ & e & ? & _)|(_ & f & Hd & Hv & He & Hrm)];
        [discriminate |].
      right. split; [now destruct a |]. exists f.
      rewrite (path_join_segment folder f) in He, Hrm
        by (eapply directories_valid_segment; eassumption).
      auto.
    - apply uninstall_try_run in E as [(Hfs & e' & He' & Hkind)|(? & _)];
        [| discriminate].
      inversion He'; subst e'. left. now exists e, st1. }
  assert (Hsame : forall e s, report cb e s = (r, st') -> st_fs st' = st_fs s).
  { intros e s Eh. exact (report_same_fs _ _ _ _ _ Eh). }
  assert (Hthrown : forall e s e0, report cb e s = (Throw e0, st') -> e0 = e).
  { intros e s e0 Eh. destruct cb; unfold report in Eh; unfold_m;
      inversion Eh; now subst. }
  split; [| split; [| split; [| split; [| split; [| split]]]]].
  - destruct Hcases as [(e & s & Eh & Hfs & _)|(_ & f & Hrest)];
      [left; rewrite (Hsame _ _ Eh); exact Hfs | right; now exists f].
  - intros f Hdir Hinv q.
    destruct Hcases as [(e & s & Eh & Hfs & _)|(_ & g & Hg & Hgv & _ & Hrm)];
      [now rewrite (Hsame _ _ Eh), Hfs |].
    rewrite Hrm, rm_tree_lookup.
    rewrite strip_prefix_sibling; [reflexivity |]. intros ->. congruence.
  - intros e0 ->.
    destruct Hcases as [(e & s & Eh & _ & Hk)|(? & _)]; [| discriminate].
    now rewrite (Hthrown _ _ _ Eh).
  - intros ->.
    destruct Hcases as [(e & s & Eh & _ & Hk)|(? & _)]; [| discriminate].
    apply Hthrown in Eh. subst e.
    destruct Hk as [Hp|Hp]; [now apply (Hp "Invalid plugin folder") | discriminate].
  - destruct Hcases as [(e & s & Hrest)|(_ & f & _ & _ & He & Hrm)];
      [right; now exists e, s | left; now exists f].
  - intros l st1 Hl. split.
    + intros f Hdir Hinv Hin. apply list_spec in Hl. rewrite Hl in Hin.
      apply list_elem_of_In, list_elem_of_filter in Hin as [Hval _].
      apply Is_true_true in Hval. congruence.
    + intros Hfind.
      assert (Eh : report cb (Error "Plugin not found") st1 = (r, st')).
      { unfold PluginManager.uninstall, try_catch, PluginManager.uninstall_try in E.
        unfold mbind at 1 in E. unfold M_bind at 1 in E. rewrite Hl in E.
        unfold mbind at 1 in E. unfold M_bind at 1 in E.
        unfold PluginManager.findInstalled in E. rewrite Hfind in E. exact E. }
      split; [exact Eh |].
      rewrite (Hsame _ _ Eh). exact (list_same_fs _ _ _ _ _ Hl).
  - intros e st1 Hl.
    assert (Eh : report cb e st1 = (r, st')).
    { unfold PluginManager.uninstall, try_catch, PluginManager.uninstall_try in E.
      unfold mbind at 1 in E. unfold M_bind at 1 in E. rewrite Hl in E. exact E. }
    split; [exact Eh |]. split.
    + apply list_run_None in Hl as [(l & ?)|(e' & He & Hp)]; [discriminate |].
      now inversion He; subst.
    + rewrite (Hsame _ _ Eh). exact (list_same_fs _ _ _ _ _ Hl).
Qed.

Lemma sample_unmanaged_wf : wf_fs Sample.unmanagedFS.
Proof.
  apply map_Forall_to_list. vm_compute. repeat constructor.
Defined.

Lemma uninstall_spares_invalid_folders_witness :
  st_fs (snd (PluginManager.uninstall "demo" Sample.root None
                (Sample.start Sample.unmanagedFS)))
    !! (Sample.root ++ "legacy" :: ["package.json"])
  = Sample.unmanagedFS !! (Sample.root ++ "legacy" :: ["package.json"]).
Proof.
  destruct (PluginManager.uninstall "demo" Sample.root None
              (Sample.start Sample.unmanagedFS)) as [r st'] eqn:E.
  refine (proj1 (proj2 (uninstall_spares_invalid_folders "demo" Sample.root None
            (Sample.start Sample.unmanagedFS) r st' sample_unmanaged_wf E))
            "legacy" _ _ ["package.json"]).
  - vm_compute. tauto.
  - reflexivity.
Defined.

(** C7 as stated fails on the error it names: uninstalling the plugin of a
    folder that lacks the managed flag throws 'Plugin not found', because
    such a folder is not listed; the folder does stay. *)
Lemma uninstall_unmanaged_reports_not_found :
  fst (checkValidPluginFolder (Sample.root ++ ["legacy"])
         (Sample.start Sample.unmanagedFS)) = Ok false
  /\ fst (PluginManager.uninstall "legacy" Sample.root None
            (Sample.start Sample.unmanagedFS))
     = Throw (Error "Plugin not found")
  /\ Error "Plugin not found" <> Error "Invalid plugin folder"
  /\ st_fs (snd (PluginManager.uninstall "legacy" Sample.root None
                   (Sample.start Sample.unmanagedFS))) = Sample.unmanagedFS.
Proof.
  split; [reflexivity |]. split; [reflexivity |]. split; [discriminate | reflexivity].
Qed.

(** Nor is the failure always 'Plugin not found'.  Next to a managed folder
    that was never stamped with provenance the listing throws (line 314),
    and that [TypeError] is what uninstalling the unmanaged plugin fails
    with; with a callback attached it is handed over as an error event. *)
Lemma uninstall_fails_with_listing_error :
  fst (checkValidPluginFolder (Sample.root ++ ["legacy"])
         (Sample.start Sample.mixedFS)) = Ok false
  /\ (exists m,
        PluginManager.list Sample.root None (Sample.start Sample.mixedFS)
        = (Throw (TypeError m), snd (PluginManager.list Sample.root None
                                       (Sample.start Sample.mixedFS)))
        /\ fst (PluginManager.uninstall "legacy" Sample.root None
                  (Sample.start Sample.mixedFS)) = Throw (TypeError m)
        /\ st_events (snd (PluginManager.uninstall "legacy" Sample.root
                             (Some Recorder) (Sample.start Sample.mixedFS)))
           = [error m])
  /\ st_fs (snd (PluginManager.uninstall "legacy" Sample.root None
                   (Sample.start Sample.mixedFS))) = Sample.mixedFS.
Proof.
  split; [reflexivity |]. split; [| reflexivity].
  eexists. split; [vm_compute; reflexivity |]. split; reflexivity.
Qed.

(** ** Updating (claim C5) *)

Section Update.
Context `{Platform}.

Lemma findInstalled_same_fs (o : option (list PluginData)) (wanted : string) :
  respects same_fs (PluginManager.findInstalled o wanted).
Proof.
  unfold PluginManager.findInstalled. destruct o as [l|]; [| apply respects_throw; frame].
  destruct (List.find _ l); [apply respects_ret | apply respects_throw]; frame.
Qed.

Lemma update_lookup_same_fs (wanted : string) (dest : Path)
    (cb : option ProgressCallback) (signal : option AbortSignal) :
  respects same_fs (PluginManager.update_lookup wanted dest cb signal).
Proof.
  unfold PluginManager.update_lookup.
  apply respects_bind; [frame | apply list_same_fs |].
  intros o. apply respects_bind; [frame | apply findInstalled_same_fs |].
  intros plugin. apply respects_bind; [frame | |].
  { apply (respects_readFileSync (fun _ => True)); [frame | frame | exact I]. }
  intros d. apply respects_bind; [frame | apply respects_JSON_parse; frame |].
  intros pj. apply respects_bind; [frame | |].
  { apply respects_await; [frame | apply tick_ok |].
    apply (respects_fetchPluginInfo (fun _ => True)); try frame. auto. }
  intros pkg. apply respects_bind; [frame | apply respects_lift; frame |].
  intros ah. apply respects_bind; [frame | apply respects_lift; frame |].
  intros cur. apply respects_ret; frame.
Qed.

(** C5.  When the version the registry reports is lower than or equal to
    the installed provenance version ([semver.lte] answers true), [update]
    fails with 'No updates available', thrown or handed to the callback,
    and the file system is what it was.  In every run of [update] that
    changes the file system, the lookup succeeded and [semver.lte]
    answered false: the remote version is strictly greater. *)
Theorem update_requires_newer_version (wanted : string) (dest : Path)
    (hv : string) (cb : option ProgressCallback) (signal : option AbortSignal)
    (st : State) (r : Result unit) (st' : State) :
  PluginManager.update wanted dest hv cb signal st = (r, st') ->
  (forall pluginDir pluginData cur st1,
      PluginManager.update_lookup wanted dest cb signal st
      = (Ok (pluginDir, pluginData, cur), st1) ->
      PluginManager.semver_lte_js (version pluginData) cur = Ok true ->
      (r, st') = report cb (Error "No updates available") st1
      /\ st_fs st' = st_fs st)
  /\ (st_fs st' <> st_fs st ->
      exists pluginDir pluginData cur st1,
        PluginManager.update_lookup wanted dest cb signal st
        = (Ok (pluginDir, pluginData, cur), st1)
        /\ PluginManager.semver_lte_js (version pluginData) cur = Ok false).
Proof.
  intros E. split.
  - intros pluginDir pluginData cur st1 Hl Hlte.
    unfold PluginManager.update, try_catch, PluginManager.update_try in E.
    unfold mbind at 1 in E. unfold M_bind at 1 in E. rewrite Hl in E.
    simpl in E. unfold mbind at 1 in E. unfold M_bind at 1 in E.
    unfold lift at 1 in E. rewrite Hlte in E. unfold throw at 1 in E.
    split; [now rewrite E |].
    pose proof (update_lookup_same_fs _ _ _ _ _ _ _ Hl) as H1.
    pose proof (report_same_fs _ _ _ _ _ E) as H2. unfold same_fs in *. congruence.
  - intros Hchanged.
    unfold PluginManager.update in E.
    destruct (PluginManager.update_lookup wanted dest cb signal st)
      as [[[[pluginDir pluginData] cur]|e] st1] eqn:Hl.
    + pose proof (update_lookup_same_fs _ _ _ _ _ _ _ Hl) as H1. unfold same_fs in H1.
      destruct (PluginManager.semver_lte_js (version pluginData) cur) as [[|]|e] eqn:Hlte.
      * exfalso. apply Hchanged.
        unfold try_catch, PluginManager.update_try in E.
        unfold mbind at 1 in E. unfold M_bind at 1 in E. rewrite Hl in E.
        simpl in E. unfold mbind at 1 in E. unfold M_bind at 1 in E.
        unfold lift at 1 in E. rewrite Hlte in E. unfold throw at 1 in E.
        pose proof (report_same_fs _ _ _ _ _ E) as H2. unfold same_fs in H2. congruence.
      * now exists pluginDir, pluginData, cur, st1.
      * exfalso. apply Hchanged.
        unfold try_catch, PluginManager.update_try in E.
        unfold mbind at 1 in E. unfold M_bind at 1 in E. rewrite Hl in E.
        simpl in E. unfold mbind at 1 in E. unfold M_bind at 1 in E.
        unfold lift at 1 in E. rewrite Hlte in E.
        pose proof (report_same_fs _ _ _ _ _ E) as H2. unfold same_fs in H2. congruence.
    + exfalso. apply Hchanged.
      pose proof (update_lookup_same_fs _ _ _ _ _ _ _ Hl) as H1. unfold same_fs in H1.
      unfold try_catch, PluginManager.update_try in E.
      unfold mbind at 1 in E. unfold M_bind at 1 in E. rewrite Hl in E.
      pose proof (report_same_fs _ _ _ _ _ E) as H2. unfold same_fs in H2. congruence.
Qed.

End Update.

Lemma update_requires_newer_version_witness :
  fst (@PluginManager.update (Sample.platform Sample.stalePkg)
         "demo" Sample.root "" None None (Sample.start Sample.installedFS))
  = Throw (Error "No updates available")
  /\ st_fs (snd (@PluginManager.update (Sample.platform Sample.stalePkg)
                   "demo" Sample.root "" None None (Sample.start Sample.installedFS)))
     = Sample.installedFS.
Proof.
  destruct (@PluginManager.update (Sample.platform Sample.stalePkg)
              "demo" Sample.root "" None None (Sample.start Sample.installedFS))
    as [r st'] eqn:E.
  destruct (proj1 (@update_requires_newer_version (Sample.platform Sample.stalePkg)
                     "demo" Sample.root "" None None
                     (Sample.start Sample.installedFS) r st' E)
              (Sample.root ++ ["demo"]) Sample.stalePkg (Some (JStr "1.0.0"))
              (snd (@PluginManager.update_lookup (Sample.platform Sample.stalePkg)
                      "demo" Sample.root None None (Sample.start Sample.installedFS))))
    as [Hr Hfs].
  - vm_compute. reflexivity.
  - reflexivity.
  - split; [exact (f_equal fst Hr) | exact Hfs].
Defined.

(** With a strictly greater remote version the folder is replaced. *)
Lemma update_replaces_on_newer_version :
  st_fs (snd (@PluginManager.update (Sample.platform (Sample.demoPkg
                 "e3b0c44298fc1c149afbf4c8996fb92427ae41e4649b934ca495991b7852b855"))
                "demo" Sample.root "" None None (Sample.start Sample.installedFS)))
    !! (Sample.root ++ ["demo"; "package.json"])
  = Some (Sample.manifest
            [ ("name", JStr "demo"); ("version", JStr "2.0.0");
              ("artifacthub", Sample.provenance "2.0.0");
              ("isManagedByHeadlampPlugin", JBool true) ]).
Proof. vm_compute. reflexivity. Qed.

(** ** The checksum gate (claim C1) *)

(** One flipped bit: the registry declares the digest of the byte [00], the
    host serves the byte [01], and the download is rejected. *)
Lemma flipped_bit_rejected :
  fst (@downloadExtractArchive
         (Sample.platform_with [Byte.x01]
            (Sample.demoPkg (SHA256.sha256_hex [Byte.x00])))
         (Some (Sample.demoPkg (SHA256.sha256_hex [Byte.x00]))) "" None None
         (Sample.start Sample.base))
  = Throw (Error "Checksum mismatch.").
Proof. vm_compute. reflexivity. Qed.

(** What the stripping of lines 426-429 amounts to on a checksum whose digits
    hold no colon: the marker goes, the digits stay. *)
Lemma stripChecksumPrefix_plain (h : string) :
  all_chars (fun c => negb (Ascii.eqb c ":")) h = true ->
  stripChecksumPrefix h = h
  /\ stripChecksumPrefix ("sha256:" +:+ h) = h
  /\ stripChecksumPrefix ("SHA256:" +:+ h) = h.
Proof.
  intros Hh.
  assert (Hno : forall pat s, all_chars (fun c => negb (Ascii.eqb c ":")) pat = false ->
                  all_chars (fun c => negb (Ascii.eqb c ":")) s = true ->
                  drop_prefix pat s = None).
  { intros pat s Hp Hs. destruct (drop_prefix pat s) as [rest|] eqn:E; [| reflexivity].
    apply drop_prefix_spec in E. subst s. rewrite all_chars_app, Hp in Hs. discriminate. }
  assert (Hrep : forall pat s, all_chars (fun c => negb (Ascii.eqb c ":")) pat = false ->
                   all_chars (fun c => negb (Ascii.eqb c ":")) s = true ->
                   replace_first s pat "" = s).
  { intros pat s Hp. induction s as [|c s IH]; intros Hs.
    - simpl. now rewrite (Hno pat "" Hp eq_refl).
    - simpl. rewrite (Hno pat _ Hp Hs).
      simpl in Hs. apply andb_true_iff in Hs as [_ Hs]. now rewrite IH. }
  split; [| split].
  - unfold stripChecksumPrefix, startsWith.
    now rewrite !Hno.
  - unfold stripChecksumPrefix. simpl. now apply Hrep.
  - unfold stripChecksumPrefix. simpl. now apply Hrep.
Qed.

Section Gate.
Context `{Platform}.

Lemma mkdirSync_acted (p : Path) : respects (acted not_extracting) (mkdirSync p).
Proof.
  unfold mkdirSync.
  apply respects_bind; [frame | apply (respects_act not_extracting); try frame; now intros [] |].
  intros _. apply respects_bind; [frame | apply respects_get_fs; frame |].
  intros fs. apply respects_bind; [frame | apply respects_lift; frame |].
  intros x. apply respects_bind; [frame | apply respects_set_fs; frame |].
  intros _. apply respects_ret; frame.
Qed.

Lemma mkdtempSync_acted (dir : Path) (prefix : string) :
  respects (acted not_extracting) (mkdtempSync dir prefix).
Proof.
  unfold mkdtempSync.
  apply respects_bind; [frame | apply (respects_act not_extracting); try frame; now intros [] |].
  intros _. apply respects_bind; [frame | apply respects_get_fs; frame |].
  intros fs. apply respects_bind; [frame | apply respects_lift; frame |].
  intros x. apply respects_bind; [frame | apply respects_set_fs; frame |].
  intros _. apply respects_ret; frame.
Qed.

Lemma read_chunks_acted (cs : list (list Byte.byte)) (end_error : option JsError) :
  forall acc, respects (acted not_extracting) (read_chunks cs end_error acc).
Proof.
  induction cs as [|c cs IH]; intros acc; simpl.
  - apply respects_await; [frame | apply tick_ok |].
    destruct end_error; [apply respects_throw | apply respects_ret]; frame.
  - apply respects_bind; [frame | | intros _; apply IH].
    apply respects_await; [frame | apply tick_ok | apply respects_ret; frame].
Qed.

Lemma da_download_acted (pkg : ArtifactHubHeadlampPkg)
    (cb : option ProgressCallback) (signal : option AbortSignal) :
  respects (acted not_extracting) (da_download pkg cb signal).
Proof.
  unfold da_download.
  apply respects_bind; [frame | |].
  { apply respects_await; [frame | apply tick_ok | apply mkdtempSync_acted]. }
  intros tempDir. apply respects_bind; [frame | apply mkdirSync_acted |].
  intros tempFolder. apply respects_bind; [frame | apply respects_notify; frame |].
  intros _. apply respects_bind; [frame | apply respects_checkCancelled; frame |].
  intros _. apply respects_bind; [frame | |].
  { apply (respects_fetch not_extracting); try frame. now intros []. }
  intros resp. destruct (negb (resp_ok resp)); [apply respects_throw; frame |].
  apply respects_bind; [frame | apply respects_checkCancelled; frame |].
  intros _. apply respects_bind; [frame | apply respects_notify; frame |].
  intros _. destruct (resp_body resp) as [body|]; [| apply respects_throw; frame].
  apply respects_bind; [frame | apply read_chunks_acted |].
  intros archChunks. apply respects_ret; frame.
Qed.

Lemma da_validate_result (pkg : ArtifactHubHeadlampPkg) (hv : string)
    (cb : option ProgressCallback) (signal : option AbortSignal)
    (st : State) (v : ArtifactHubHeadlampPkg * string) (st1 : State) :
  da_validate (Some pkg) hv cb signal st = (Ok v, st1) ->
  v = (pkg, stripChecksumPrefix (archiveChecksum pkg)).
Proof.
  unfold da_validate. intros E.
  apply bind_run in E as [([] & sa & _ & E)|(? & _ & ?)]; [| discriminate].
  apply bind_run in E as [(pkg' & sb & Ep & E)|(? & _ & ?)]; [| discriminate].
  inversion Ep; subst pkg' sb.
  destruct (negb (validatePluginName (name pkg))); [discriminate |].
  destruct (negb (validateArchiveURL (archiveURL pkg))); [discriminate |].
  destruct (is_empty (archiveURL pkg) || is_empty (archiveChecksum pkg));
    [discriminate |].
  apply bind_run in E as [([] & sc & _ & E)|(? & _ & ?)]; [| discriminate].
  apply bind_run in E as [([] & sd & _ & E)|(? & _ & ?)]; [| discriminate].
  now inversion E.
Qed.

(** Once the cancellation check is passed, [da_extract] hands the archive
    to the extractor first. *)
Lemma da_extract_extracts (pkg : ArtifactHubHeadlampPkg) (tempFolder : option Path)
    (archBuffer : list Byte.byte) (cb : option ProgressCallback)
    (signal : option AbortSignal) (st : State) (r : Result (string * option Path))
    (st' : State) :
  fired_at signal (st_clock st) = false ->
  da_extract pkg tempFolder archBuffer cb signal st = (r, st') ->
  exists cwd post, st_actions st' = st_actions st ++ AExtract cwd :: post.
Proof.
  intros Hf E. unfold da_extract in E.
  apply bind_run in E as [([] & sa & Ea & E)|(e & Ea & _)].
  2:{ unfold checkCancelled in Ea. unfold_m. rewrite Hf in Ea. discriminate. }
  assert (sa = st) as ->.
  { unfold checkCancelled in Ea. unfold_m. rewrite Hf in Ea. now inversion Ea. }
  set (cwd := match tempFolder with Some t => t | None => process_cwd end) in *.
  assert (Hrest : forall (A : Type) (m : M A) s1 s2 x,
            (exists post, st_actions s1 = st_actions st ++ AExtract cwd :: post) ->
            m s1 = (x, s2) -> respects (acted (fun _ => True)) m ->
            exists post, st_actions s2 = st_actions st ++ AExtract cwd :: post).
  { intros A m s1 s2 x (post & Hp) Em Hm. apply Hm in Em as (l & El & _).
    exists (post ++ l). rewrite El, Hp. now rewrite <- app_assoc. }
  apply bind_run in E as [([] & sb & Eb & E)|(e & Eb & _)].
  2:{ exists cwd. destruct cb; unfold notify, call in Eb; unfold_m; discriminate. }
  assert (Hsb : st_actions sb = st_actions st)
    by (destruct cb; unfold notify, call in Eb; unfold_m; now inversion Eb).
  assert (Htar : forall x sc, await (tarExtract archBuffer cwd) sb = (x, sc) ->
            st_actions sc = st_actions st ++ [AExtract cwd]).
  { intros x sc Et. unfold await, tarExtract in Et. unfold_m. simpl in Et.
    destruct (snd (tar_extract archBuffer)); inversion Et; subst; simpl;
      now rewrite Hsb. }
  exists cwd.
  apply bind_run in E as [([] & sc & Ec & E)|(e & Ec & _)].
  2:{ exists []. now apply Htar in Ec. }
  apply Htar in Ec.
  eapply (Hrest _ _ sc st' r); [exists []; exact Ec | exact E |].
  apply respects_bind; [frame | apply respects_checkCancelled; frame |].
  intros _. apply respects_bind; [frame | apply respects_notify; frame |].
  intros _. apply respects_bind; [frame | |].
  { apply (respects_readFileSync (fun _ => True)); [frame | frame | exact I]. }
  intros d. apply respects_bind; [frame | apply respects_JSON_parse; frame |].
  intros pj. apply respects_bind; [frame | apply respects_lift; frame |].
  intros pj1. apply respects_bind; [frame | apply respects_lift; frame |].
  intros pj2. apply respects_bind; [frame | | intros _; apply respects_ret; frame].
  unfold writeFileSync.
  apply respects_bind; [frame | apply (respects_act (fun _ => True)); try frame; exact I |].
  intros _. apply respects_bind; [frame | apply respects_get_fs; frame |].
  intros fs. apply respects_bind; [frame | apply respects_lift; frame |].
  intros fs'. apply respects_set_fs; frame.
Qed.

(** The gate, for whatever lines 426-429 make of the declared checksum. *)
Lemma checksum_gate_run (pkg : ArtifactHubHeadlampPkg) (hv : string)
    (cb : option ProgressCallback) (signal : option AbortSignal)
    (st st1 st2 : State) (v : ArtifactHubHeadlampPkg * string)
    (tempFolder : option Path) (archBuffer : list Byte.byte) :
  da_validate (Some pkg) hv cb signal st = (Ok v, st1) ->
  da_download pkg cb signal st1 = (Ok (tempFolder, archBuffer), st2) ->
  fired_at signal (st_clock st2) = false ->
  let checksum := stripChecksumPrefix (archiveChecksum pkg) in
  let run := downloadExtractArchive (Some pkg) hv cb signal st in
  (extracted st (snd run) <-> SHA256.sha256_hex archBuffer = checksum)
  /\ (SHA256.sha256_hex archBuffer <> checksum ->
      run = (Throw (Error "Checksum mismatch."), st2)).
Proof.
  intros Ev Ed Hf checksum run.
  pose proof (da_validate_result _ _ _ _ _ _ _ Ev) as ->.
  pose proof (da_validate_only_events _ _ _ _ _ _ _ Ev) as (_ & Ha1 & _).
  pose proof (da_download_acted _ _ _ _ _ _ Ed) as (l & Ha2 & Hl).
  rewrite Ha1 in Ha2.
  assert (Hrun : run = (da_verify archBuffer checksum;;
                        da_extract pkg tempFolder archBuffer cb signal) st2).
  { unfold run, downloadExtractArchive.
    unfold mbind at 1. unfold M_bind at 1. rewrite Ev. simpl.
    unfold mbind at 1. unfold M_bind at 1. rewrite Ed. reflexivity. }
  assert (Hmis : SHA256.sha256_hex archBuffer <> checksum ->
                 run = (Throw (Error "Checksum mismatch."), st2)).
  { intros Hne. rewrite Hrun. unfold da_verify. unfold_m.
    apply String.eqb_neq in Hne. now rewrite Hne. }
  split; [| exact Hmis]. split.
  - intros (pre & cwd & post & Hx).
    destruct (String.eqb_spec (SHA256.sha256_hex archBuffer) checksum) as [Heq|Hne];
      [exact Heq | exfalso].
    rewrite (Hmis Hne) in Hx. simpl in Hx. rewrite Ha2 in Hx.
    apply app_inv_head in Hx. subst l.
    apply Forall_app in Hl as [_ Hl]. inversion Hl as [|? ? Hbad _]; subst.
    now apply Hbad.
  - intros Heq. rewrite Hrun. unfold da_verify. unfold_m.
    apply String.eqb_eq in Heq. rewrite Heq. simpl.
    destruct (da_extract pkg tempFolder archBuffer cb signal st2) as [r st'] eqn:Ee.
    apply da_extract_extracts in Ee as (cwd & post & Hx); [| exact Hf].
    exists l, cwd, post. simpl. now rewrite Hx, Ha2, <- app_assoc.
Qed.

(** C1, as amended.  For a declared checksum made of digits optionally
    preceded by the marker [sha256:] or [SHA256:]: once the download has
    completed with bytes [archBuffer] and no cancellation intervenes,
    [downloadExtractArchive] proceeds to extraction iff the lowercase SHA-256
    hex digest of the bytes is, character for character, the declared digits;
    on any mismatch it throws 'Checksum mismatch.' in the state the download
    left, and nothing is extracted.  So altered bytes are rejected whenever
    their digest differs. *)
Theorem checksum_gate (pkg : ArtifactHubHeadlampPkg) (hv : string)
    (cb : option ProgressCallback) (signal : option AbortSignal)
    (st st1 st2 : State) (v : ArtifactHubHeadlampPkg * string)
    (tempFolder : option Path) (archBuffer : list Byte.byte)
    (marker digits : string) :
  In marker [""; "sha256:"; "SHA256:"] ->
  all_chars (fun c => negb (Ascii.eqb c ":")) digits = true ->
  archiveChecksum pkg = marker +:+ digits ->
  da_validate (Some pkg) hv cb signal st = (Ok v, st1) ->
  da_download pkg cb signal st1 = (Ok (tempFolder, archBuffer), st2) ->
  fired_at signal (st_clock st2) = false ->
  let run := downloadExtractArchive (Some pkg) hv cb signal st in
  (extracted st (snd run) <-> SHA256.sha256_hex archBuffer = digits)
  /\ (SHA256.sha256_hex archBuffer <> digits ->
      run = (Throw (Error "Checksum mismatch."), st2)).
Proof.
  intros Hm Hd Hc Ev Ed Hf.
  assert (Hs : stripChecksumPrefix (archiveChecksum pkg) = digits).
  { rewrite Hc. destruct (stripChecksumPrefix_plain digits Hd) as (H0 & H1 & H2).
    destruct Hm as [<-|[<-|[<-|[]]]]; assumption. }
  pose proof (checksum_gate_run pkg hv cb signal st st1 st2 v tempFolder archBuffer
                Ev Ed Hf) as Hg.
  simpl in Hg. now rewrite Hs in Hg.
Qed.

End Gate.

Lemma checksum_gate_witness :
  extracted (Sample.start Sample.base)
            (snd (@downloadExtractArchive
                    (Sample.platform (Sample.demoPkg Sample.digestPrefixed))
                    (Some (Sample.demoPkg Sample.digestPrefixed)) "" None None
                    (Sample.start Sample.base))).
Proof.
  refine (proj2 (proj1 (@checksum_gate
            (Sample.platform (Sample.demoPkg Sample.digestPrefixed))
            (Sample.demoPkg Sample.digestPrefixed) "" None None
            (Sample.start Sample.base)
            (snd (@da_validate (Sample.platform (Sample.demoPkg Sample.digestPrefixed))
                    (Some (Sample.demoPkg Sample.digestPrefixed)) "" None None
                    (Sample.start Sample.base)))
            (snd (@da_download (Sample.platform (Sample.demoPkg Sample.digestPrefixed))
                    (Sample.demoPkg Sample.digestPrefixed) None None
                    (Sample.start Sample.base)))
            (Sample.demoPkg Sample.digestPrefixed, Sample.digestLower)
            (Some ["tmp"; "headlamp-plugin-temp-k3x9Qa"; "demo"]) Sample.tarball
            "sha256:" Sample.digestLower
            _ _ _ _ _ _)) _).
  - simpl. tauto.
  - reflexivity.
  - reflexivity.
  - vm_compute. reflexivity.
  - vm_compute. reflexivity.
  - reflexivity.
  - vm_compute. reflexivity.
Defined.

(** C1 as stated fails: a declared checksum in upper-case hexadecimal equals
    the digest of the downloaded bytes when case is ignored, and yet the
    download is rejected with 'Checksum mismatch.' and nothing is
    extracted. *)
Lemma uppercase_checksum_rejected :
  toLowerCase (stripChecksumPrefix Sample.digestUpper)
  = SHA256.sha256_hex Sample.tarball
  /\ fst (@downloadExtractArchive
            (Sample.platform (Sample.demoPkg Sample.digestUpper))
            (Some (Sample.demoPkg Sample.digestUpper)) "" None None
            (Sample.start Sample.base))
     = Throw (Error "Checksum mismatch.")
  /\ ~ extracted (Sample.start Sample.base)
         (snd (@downloadExtractArchive
                 (Sample.platform (Sample.demoPkg Sample.digestUpper))
                 (Some (Sample.demoPkg Sample.digestUpper)) "" None None
                 (Sample.start Sample.base))).
Proof.
  split; [vm_compute; reflexivity |]. split; [vm_compute; reflexivity |].
  intros (pre & cwd & post & Hx).
  assert (Hall : Forall not_extracting
                   (st_actions (snd (@downloadExtractArchive
                      (Sample.platform (Sample.demoPkg Sample.digestUpper))
                      (Some (Sample.demoPkg Sample.digestUpper)) "" None None
                      (Sample.start Sample.base))))).
  { vm_compute. repeat constructor; intros []. }
  rewrite Hx in Hall. simpl in Hall.
  apply Forall_app in Hall as [_ Hall].
  inversion Hall as [|? ? Hbad _]; subst. now apply Hbad.
Qed.


(** ** Moving a directory (claim C8) *)

Lemma strictly_below_spec (a b : Path) :
  strictly_below a b = true <-> exists t, t <> [] /\ b = a ++ t.
Proof.
  unfold strictly_below. split.
  - destruct (strip_prefix a b) as [[|x t]|] eqn:E; try discriminate.
    intros _. apply strip_prefix_spec in E. now exists (x :: t).
  - intros (t & Ht & ->). rewrite strip_prefix_app. now destruct t.
Qed.

(** Paths that neither coincide nor lie one below the other share no
    extension. *)
Lemma unrelated_paths (src dst : Path) :
  src <> dst -> strictly_below src dst = false -> strictly_below dst src = false ->
  forall q q', src ++ q <> dst ++ q'.
Proof.
  intros Hne Hsd Hds q q' E.
  apply List.app_eq_app in E as (t & [[-> _]|[-> _]]).
  - destruct t as [|x t]; [now rewrite app_nil_r in Hne |].
    assert (strictly_below dst (dst ++ x :: t) = true)
      by (apply strictly_below_spec; now exists (x :: t)).
    congruence.
  - destruct t as [|x t]; [now rewrite app_nil_r in Hne |].
    assert (strictly_below src (src ++ x :: t) = true)
      by (apply strictly_below_spec; now exists (x :: t)).
    congruence.
Qed.

Lemma subtree_spec (fs : FS) (src q : Path) (n : Node) :
  In (q, n) (subtree fs src) <-> fs !! (src ++ q) = Some n.
Proof.
  unfold subtree. rewrite <- list_elem_of_In, list_elem_of_omap. split.
  - intros ([k m] & Hk & Hf). simpl in Hf. apply elem_of_map_to_list in Hk.
    destruct (strip_prefix src k) as [q'|] eqn:E; [| discriminate].
    inversion Hf; subst. apply strip_prefix_spec in E. now subst.
  - intros Hk. exists (src ++ q, n). split; [now apply elem_of_map_to_list |].
    simpl. now rewrite strip_prefix_app.
Qed.

Lemma mkdir_walk_lookup (rest : list string) :
  forall (fs : FS) (pre : Path) (first : option Path) (fs1 : FS) (o : option Path),
    mkdir_walk fs pre rest first = Ok (fs1, o) ->
    forall k, (forall t, pre ++ rest <> k ++ t) -> fs1 !! k = fs !! k.
Proof.
  induction rest as [|seg rest IH]; intros fs pre first fs1 o E k Hk; simpl in E.
  - now inversion E.
  - assert (Hk' : forall t, (pre ++ [seg]) ++ rest <> k ++ t)
      by (intros t; rewrite <- app_assoc; apply Hk).
    destruct (fs !! (pre ++ [seg])) as [[|d]|] eqn:En.
    + exact (IH _ _ _ _ _ E k Hk').
    + discriminate.
    + rewrite (IH _ _ _ _ _ E k Hk').
      apply lookup_insert_ne. intros <-.
      apply (Hk rest). now rewrite <- app_assoc.
Qed.

Lemma cp_step_failed (dst : Path) (es : list (Path * Node)) (fs : FS) (e : JsError) :
  fold_left (cp_step dst) es (fs, Some e) = (fs, Some e).
Proof. induction es as [|x es IH]; simpl; [reflexivity | exact IH]. Qed.

(** A copy writes below its destination only. *)
Lemma cp_fold_elsewhere (dst : Path) (es : list (Path * Node)) :
  forall (fs0 fs1 : FS) (oe : option JsError),
    fold_left (cp_step dst) es (fs0, None) = (fs1, oe) ->
    forall k, (forall q, k <> dst ++ q) -> fs1 !! k = fs0 !! k.
Proof.
  induction es as [|[q n] es IH]; intros fs0 fs1 oe E k Hk; simpl in E.
  - now inversion E.
  - assert (Hins : forall m, (<[dst ++ q := m]> fs0) !! k = fs0 !! k)
      by (intros m; apply lookup_insert_ne; intros <-; now apply (Hk q)).
    destruct n as [|d]; destruct (node_at fs0 (dst ++ q)) as [[|d']|];
      try (rewrite (IH _ _ _ E k Hk); apply Hins);
      rewrite cp_step_failed in E; now inversion E.
Qed.

(** After a copy that did not fail, every key either was written by one of
    the entries or is what it was. *)
Lemma cp_fold_written (dst : Path) (es : list (Path * Node)) :
  forall (fs0 fs1 : FS),
    fold_left (cp_step dst) es (fs0, None) = (fs1, None) ->
    forall k,
      (exists e, In e es /\ k = dst ++ fst e /\ fs1 !! k = Some (snd e))
      \/ ((forall e, In e es -> k <> dst ++ fst e) /\ fs1 !! k = fs0 !! k).
Proof.
  induction es as [|[q n] es IH]; intros fs0 fs1 E k; simpl in E.
  - inversion E. right. split; [intros e [] | reflexivity].
  - assert (Hgo : fold_left (cp_step dst) es (<[dst ++ q := n]> fs0, None) = (fs1, None) ->
              (exists e, In e ((q, n) :: es) /\ k = dst ++ fst e /\ fs1 !! k = Some (snd e))
              \/ ((forall e, In e ((q, n) :: es) -> k <> dst ++ fst e)
                  /\ fs1 !! k = fs0 !! k)).
    { intros E'. destruct (IH _ _ E' k) as [(e & Hin & Hke & Hv)|[Hno Hv]].
      - left. exists e. split; [now right | now split].
      - destruct (decide (k = dst ++ q)) as [->|Hkq].
        + left. exists (q, n). split; [now left |]. split; [reflexivity |].
          rewrite Hv. apply lookup_insert_eq.
        + right. split.
          * intros e [<-|Hin]; [exact Hkq | now apply Hno].
          * rewrite Hv. now apply lookup_insert_ne. }
    destruct n as [|d]; destruct (node_at fs0 (dst ++ q)) as [[|d']|];
      try (now apply Hgo);
      rewrite cp_step_failed in E; discriminate.
Qed.

Lemma removelast_prefix (dst a b : Path) :
  removelast dst = a ++ b -> exists c, dst = a ++ c.
Proof.
  intros E. destruct dst as [|x dst]; [exists b; exact E |].
  rewrite (app_removelast_last x (l := x :: dst)) by discriminate.
  rewrite E. exists (b ++ [List.last (x :: dst) x]). now rewrite app_assoc.
Qed.

(** What [cpSync] does to a source that does not lie inside the
    destination: it leaves the source as it is, and a copy that did not fail
    has put every entry of the source tree in place. *)
Lemma fs_cp_spec (fs : FS) (src dst : Path) (fs' : FS) (oe : option JsError) :
  strictly_below dst src = false ->
  fs_cp fs src dst = (fs', oe) ->
  (forall q, fs' !! (src ++ q) = fs !! (src ++ q))
  /\ (oe = None ->
      node_at fs src <> None
      /\ (forall q q', src ++ q <> dst ++ q')
      /\ forall q n, fs !! (src ++ q) = Some n -> fs' !! (dst ++ q) = Some n).
Proof.
  intros Hds E. unfold fs_cp in E.
  destruct (node_at fs src) as [n|] eqn:En;
    [| inversion E; subst; split; [reflexivity | discriminate]].
  destruct (decide (src = dst)) as [Heq|Hne];
    [inversion E; subst fs' oe; split; [reflexivity | discriminate] |].
  assert (Hcont :
    (if strictly_below src dst then (fs, Some EINVAL)
     else match fs_mkdir_p fs (removelast dst) with
          | Throw e => (fs, Some e)
          | Ok (fs1, _) => fold_left (cp_step dst) (subtree fs src) (fs1, None)
          end) = (fs', oe) ->
    (forall q, fs' !! (src ++ q) = fs !! (src ++ q))
    /\ (oe = None ->
        Some n <> None
        /\ (forall q q', src ++ q <> dst ++ q')
        /\ forall q m, fs !! (src ++ q) = Some m -> fs' !! (dst ++ q) = Some m)).
  { clear E. intros E.
    destruct (strictly_below src dst) eqn:Hsd;
      [inversion E; subst; split; [reflexivity | discriminate] |].
    pose proof (unrelated_paths src dst Hne Hsd Hds) as Hdisj.
    destruct (fs_mkdir_p fs (removelast dst)) as [[fs1 o]|e] eqn:Em;
      [| inversion E; subst; split; [reflexivity | discriminate]].
    assert (Hmk : forall q, fs1 !! (src ++ q) = fs !! (src ++ q)).
    { intros q. unfold fs_mkdir_p in Em.
      apply (mkdir_walk_lookup _ _ _ _ _ _ Em). intros t Ht. simpl in Ht.
      rewrite <- app_assoc in Ht.
      apply removelast_prefix in Ht as (c & Hc).
      apply (Hdisj c []). now rewrite app_nil_r. }
    split.
    - intros q. rewrite <- Hmk.
      apply (cp_fold_elsewhere _ _ _ _ _ E). intros q' Hq. now apply (Hdisj q q').
    - intros ->. split; [discriminate |]. split; [exact Hdisj |].
      intros q m Hq.
      destruct (cp_fold_written _ _ _ _ E (dst ++ q)) as [([q' m'] & Hin & Hk & Hv)|[Hno _]].
      + simpl in Hk, Hv. apply app_inv_head in Hk. subst q'.
        apply subtree_spec in Hin. rewrite Hv. congruence.
      + exfalso. apply (Hno (q, m)); [now apply subtree_spec | reflexivity]. }
  destruct n as [|d]; destruct (node_at fs dst) as [[|d']|];
    try (now apply Hcont);
    inversion E; subst; (split; [reflexivity | discriminate]).
Qed.

Lemma rm_spared_lookup (p k : Path) (spared : Path -> bool) (fs : FS) :
  filter (fun kn : Path * Node =>
            strip_prefix p (fst kn) = None \/ spared (fst kn) = true) fs !! k
  = if decide (strip_prefix p k = None \/ spared k = true) then fs !! k else None.
Proof.
  rewrite map_lookup_filter.
  destruct (decide (strip_prefix p k = None \/ spared k = true)) as [Hd|Hd];
    destruct (fs !! k) as [n|]; simpl; try reflexivity;
    case_guard as Hg; simpl in Hg; tauto.
Qed.

(** C8, as amended.  For a source that does not lie inside the destination,
    [moveDirs] copies and only then removes.  Either it returns, the
    destination holds every entry of the source tree and the source is gone;
    or the copy failed: its error is thrown and the source tree is as it
    was; or the copy went through and the removal was stopped: its error is
    thrown, the destination holds every entry of the source tree, and what
    is left of the source is as it was.  In no case is an entry of the
    source lost. *)
Theorem moveDirs_copies_then_removes `{Platform} (currentPath newPath : Path)
    (st : State) (r : Result unit) (st' : State) :
  strictly_below newPath currentPath = false ->
  moveDirs currentPath newPath st = (r, st') ->
  ((r = Ok tt
    /\ (forall q n, st_fs st !! (currentPath ++ q) = Some n ->
                    st_fs st' !! (newPath ++ q) = Some n)
    /\ (forall q, st_fs st' !! (currentPath ++ q) = None))
   \/ (exists e,
         r = Throw e
         /\ snd (fs_cp (st_fs st) currentPath newPath) = Some e
         /\ forall q, st_fs st' !! (currentPath ++ q) = st_fs st !! (currentPath ++ q))
   \/ (exists e spared,
         r = Throw e
         /\ snd (fs_cp (st_fs st) currentPath newPath) = None
         /\ rm_stopped (fst (fs_cp (st_fs st) currentPath newPath)) currentPath
            = Some (e, spared)
         /\ (forall q n, st_fs st !! (currentPath ++ q) = Some n ->
                         st_fs st' !! (newPath ++ q) = Some n)
         /\ forall q, st_fs st' !! (currentPath ++ q) = st_fs st !! (currentPath ++ q)
                      \/ st_fs st' !! (currentPath ++ q) = None))
  /\ (forall q n, st_fs st !! (currentPath ++ q) = Some n ->
         st_fs st' !! (currentPath ++ q) = Some n
         \/ st_fs st' !! (newPath ++ q) = Some n).
Proof.
  intros Hds E.
  destruct (fs_cp (st_fs st) currentPath newPath) as [fs1 oe] eqn:Ecp.
  destruct (fs_cp_spec _ _ _ _ _ Hds Ecp) as [Hsrc Hok].
  unfold moveDirs, try_catch, cpSync, rmSync in E. unfold_m. simpl in E.
  rewrite Ecp in E. simpl in E.
  destruct oe as [e|].
  { inversion E; subst. simpl. split.
    - right; left. exists e. auto.
    - intros q n Hq. left. now rewrite Hsrc. }
  destruct (Hok eq_refl) as (Hsome & Hdisj & Hcopy).
  assert (Hn : node_at fs1 currentPath <> None).
  { destruct currentPath as [|x p]; [discriminate |]. simpl.
    specialize (Hsrc []). rewrite app_nil_r in Hsrc. now rewrite Hsrc. }
  assert (Hs : forall q, strip_prefix currentPath (newPath ++ q) = None).
  { intros q. apply strip_prefix_None. intros t Ht. now apply (Hdisj t q). }
  simpl in E. unfold fs_rm in E.
  destruct (node_at fs1 currentPath) as [nd|]; [| contradiction].
  destruct (rm_stopped fs1 currentPath) as [[e spared]|] eqn:Erm; simpl in E.
  - inversion E; subst. simpl.
    assert (Hdst : forall q n, st_fs st !! (currentPath ++ q) = Some n ->
              filter (fun kn : Path * Node =>
                        strip_prefix currentPath (fst kn) = None
                        \/ spared (fst kn) = true) fs1 !! (newPath ++ q) = Some n).
    { intros q n Hq. rewrite rm_spared_lookup.
      destruct (decide _) as [_|Hno]; [now apply Hcopy |].
      exfalso. apply Hno. left. apply Hs. }
    split.
    + right; right. exists e, spared.
      split; [reflexivity |]. split; [reflexivity |]. split; [exact Erm |].
      split; [exact Hdst |].
      intros q. rewrite rm_spared_lookup.
      destruct (decide _); [left; apply Hsrc | now right].
    + intros q n Hq. right. now apply Hdst.
  - inversion E; subst. simpl.
    assert (Hdst : forall q n, st_fs st !! (currentPath ++ q) = Some n ->
              rm_tree currentPath fs1 !! (newPath ++ q) = Some n).
    { intros q n Hq. rewrite rm_tree_lookup, Hs. now apply Hcopy. }
    split.
    + left. split; [reflexivity |]. split; [exact Hdst |].
      intros q. now rewrite rm_tree_lookup, strip_prefix_app.
    + intros q n Hq. right. now apply Hdst.
Qed.

Lemma moveDirs_copies_then_removes_witness :
  st_fs (snd (@moveDirs (Sample.platform Sample.stalePkg)
                Sample.staged (Sample.root ++ ["demo"])
                (Sample.start Sample.stagedFS)))
    !! ((Sample.root ++ ["demo"]) ++ ["main.js"])
  = Some (NFile (Raw "registerPlugin()"))
  /\ st_fs (snd (@moveDirs (Sample.platform Sample.stalePkg)
                   Sample.staged (Sample.root ++ ["demo"])
                   (Sample.start Sample.stagedFS)))
       !! (Sample.staged ++ ["main.js"])
     = None.
Proof.
  destruct (@moveDirs (Sample.platform Sample.stalePkg)
              Sample.staged (Sample.root ++ ["demo"])
              (Sample.start Sample.stagedFS)) as [r st'] eqn:E.
  destruct (@moveDirs_copies_then_removes (Sample.platform Sample.stalePkg)
              Sample.staged (Sample.root ++ ["demo"])
              (Sample.start Sample.stagedFS) r st' eq_refl E)
    as [[(_ & Hcopy & Hgone)|[(e & _ & Hcp & _)|(e & spared & _ & _ & Hrm & _)]] _].
  - split; [apply Hcopy; reflexivity | apply Hgone].
  - vm_compute in Hcp. discriminate.
  - discriminate.
Defined.

(** C8 as stated fails for a source that lies inside the destination: what
    is copied over the source is removed with it.  Moving a folder that
    holds a folder of its own name into its parent returns, the source is
    gone, and the file that the destination should hold is not there. *)
Lemma moveDirs_into_parent_loses_entries :
  strictly_below ["tmp"] ["tmp"; "demo"] = true
  /\ Sample.nestedFS !! (["tmp"; "demo"] ++ ["demo"; "main.js"])
     = Some (NFile (Raw "registerPlugin()"))
  /\ fst (@moveDirs (Sample.platform Sample.stalePkg) ["tmp"; "demo"] ["tmp"]
            (Sample.start Sample.nestedFS)) = Ok tt
  /\ st_fs (snd (@moveDirs (Sample.platform Sample.stalePkg) ["tmp"; "demo"] ["tmp"]
                   (Sample.start Sample.nestedFS)))
       !! (["tmp"] ++ ["demo"; "main.js"]) = None
  /\ st_fs (snd (@moveDirs (Sample.platform Sample.stalePkg) ["tmp"; "demo"] ["tmp"]
                   (Sample.start Sample.nestedFS))) = Sample.base.
Proof.
  split; [reflexivity |]. split; [reflexivity |]. split; [reflexivity |].
  split; [reflexivity |]. vm_compute. reflexivity.
Qed.

(** A copy that fails: the destination is taken by a file.  The error is
    thrown and the staged plugin is still in its temporary folder. *)
Lemma moveDirs_failed_copy_keeps_source :
  fst (@moveDirs (Sample.platform Sample.stalePkg)
         Sample.staged (Sample.staged ++ ["main.js"])
         (Sample.start Sample.stagedFS))
  = Throw (SystemError "ERR_FS_CP_DIR_TO_NON_DIR")
  /\ st_fs (snd (@moveDirs (Sample.platform Sample.stalePkg)
                   Sample.staged (Sample.staged ++ ["main.js"])
                   (Sample.start Sample.stagedFS)))
     = Sample.stagedFS.
Proof. split; reflexivity. Qed.

(** A removal that is stopped: the temporary folder is busy.  The error is
    thrown after the copy: the plugin is in place, the temporary folder is
    still there and its file is not. *)
Lemma moveDirs_stopped_removal_keeps_copy :
  fst (@moveDirs (Sample.busy_platform Sample.stalePkg)
         Sample.staged (Sample.root ++ ["demo"])
         (Sample.start Sample.stagedFS))
  = Throw (SystemError "EBUSY")
  /\ st_fs (snd (@moveDirs (Sample.busy_platform Sample.stalePkg)
                   Sample.staged (Sample.root ++ ["demo"])
                   (Sample.start Sample.stagedFS)))
       !! (Sample.root ++ ["demo"; "main.js"])
     = Some (NFile (Raw "registerPlugin()"))
  /\ st_fs (snd (@moveDirs (Sample.busy_platform Sample.stalePkg)
                   Sample.staged (Sample.root ++ ["demo"])
                   (Sample.start Sample.stagedFS)))
       !! Sample.staged = Some NDir
  /\ st_fs (snd (@moveDirs (Sample.busy_platform Sample.stalePkg)
                   Sample.staged (Sample.root ++ ["demo"])
                   (Sample.start Sample.stagedFS)))
       !! (Sample.staged ++ ["main.js"]) = None.
Proof. repeat split; reflexivity. Qed.

(** ** Further properties of the plugin manager *)

(** ** Validated names and the paths built from them *)

Lemma no_slash_all_chars (s : string) :
  ~ contains "/" s -> all_chars Regex.not_slash s = true.
Proof.
  induction s as [|c s IH]; intros Hn; simpl; [reflexivity |].
  apply andb_true_iff. split.
  - unfold Regex.not_slash. apply negb_true_iff.
    destruct (Ascii.eqb_spec c "/") as [->|]; [| reflexivity].
    exfalso. apply Hn. now exists "", s.
  - apply IH. intros (pre & post & ->). apply Hn.
    now exists (String c pre), post.
Qed.

Lemma validated_segment (pluginName : string) :
  validatePluginName pluginName = true ->
  all_chars Regex.not_slash pluginName = true /\ pluginName <> "..".
Proof.
  intros Hv.
  assert (Hno : ~ (contains "/" pluginName \/ contains "\" pluginName
                   \/ contains ".." pluginName)).
  { intros Hc. apply validatePluginName_false in Hc. congruence. }
  split.
  - apply no_slash_all_chars. tauto.
  - intros ->. apply Hno. right; right. now exists "", "".
Qed.

(** X1.  A name that [validatePluginName] accepts is a single path
    component: [path.basename] leaves it as it is, and joining it to a
    directory gives an entry of that directory, or the directory itself when
    the name is empty or a single dot.  No accepted name leads out of the
    directory it is joined to. *)
Theorem validated_name_stays_inside (pluginName : string) (dir : Path) :
  validatePluginName pluginName = true ->
  basename pluginName = pluginName
  /\ (path_join dir pluginName = dir ++ [pluginName]
      \/ (path_join dir pluginName = dir /\ (pluginName = "" \/ pluginName = "."))).
Proof.
  intros Hv. apply validated_segment in Hv as [Hs Hd].
  unfold basename, path_join. rewrite (segments_no_slash _ Hs). simpl.
  split.
  - destruct (String.eqb_spec pluginName "") as [->|Hne]; [reflexivity |].
    rewrite filter_cons_True by (simpl; apply Is_true_true; apply negb_true_iff;
                                 now apply String.eqb_neq).
    reflexivity.
  - unfold join_step.
    destruct (String.eqb_spec pluginName "") as [->|H1]; simpl; [right; auto |].
    destruct (String.eqb_spec pluginName ".") as [->|H2]; simpl; [right; auto |].
    destruct (String.eqb_spec pluginName "..") as [->|H3]; [contradiction |].
    now left.
Qed.

Lemma validated_name_stays_inside_witness :
  basename "demo" = "demo"
  /\ (path_join Sample.root "demo" = Sample.root ++ ["demo"]
      \/ (path_join Sample.root "demo" = Sample.root /\ ("demo" = "" \/ "demo" = "."))).
Proof. apply validated_name_stays_inside. vm_compute. reflexivity. Defined.

(** ** The validity check *)

Lemma node_at_snoc (fs : FS) (p : Path) (x : string) :
  node_at fs (p ++ [x]) = fs !! (p ++ [x]).
Proof. now destruct p. Qed.

Lemma folder_validity_true (fs : FS) (folder : Path) :
  folder_validity fs folder = Ok true <->
  fs_exists fs folder = true
  /\ fs_exists fs (folder ++ ["main.js"]) = true
  /\ exists v flag,
       fs_readFile fs (folder ++ ["package.json"]) = Ok (JsonDoc v)
       /\ get_prop (Some v) "isManagedByHeadlampPlugin" = Ok flag
       /\ truthy flag = true.
Proof.
  unfold folder_validity.
  change (path_join folder "main.js") with (folder ++ ["main.js"]).
  change (path_join folder "package.json") with (folder ++ ["package.json"]).
  destruct (fs_exists fs folder); cbn [negb];
    [| split; [discriminate | intros [? _]; discriminate]].
  destruct (fs_exists fs (folder ++ ["main.js"])); cbn [negb];
    [| split; [discriminate | intros (_ & ? & _); discriminate]].
  destruct (fs_exists fs (folder ++ ["package.json"])) eqn:He; cbn [negb].
  - destruct (fs_readFile fs (folder ++ ["package.json"])) as [[v|t]|e];
      unfold mbind, Result_bind; cbv beta iota.
    + destruct (get_prop (Some v) "isManagedByHeadlampPlugin") as [flag|e] eqn:Eg.
      * split.
        -- intros E. inversion E as [Ht]. repeat split. exists v, flag.
           rewrite Ht. auto.
        -- intros (_ & _ & v' & flag' & Ev & Ef & Ht). inversion Ev; subst v'.
           rewrite Eg in Ef. inversion Ef; subst. now rewrite Ht.
      * split; [discriminate |].
        intros (_ & _ & v' & flag' & Ev & Ef & Ht). inversion Ev; subst v'.
        rewrite Eg in Ef. discriminate.
    + split; [discriminate |]. intros (_ & _ & v' & flag' & Ev & _). discriminate.
    + split; [discriminate |]. intros (_ & _ & v' & flag' & Ev & _). discriminate.
  - split; [discriminate |]. intros (_ & _ & v' & flag' & Ev & _).
    unfold fs_exists in He. unfold fs_readFile in Ev.
    destruct (node_at fs (folder ++ ["package.json"])); discriminate.
Qed.

(** X2.  [checkValidPluginFolder] returns true exactly when the folder
    exists, holds [main.js], and holds a [package.json] that parses and
    whose [isManagedByHeadlampPlugin] is truthy; and it never changes the
    file system. *)
Theorem checkValidPluginFolder_true_iff (folder : Path) (st : State) :
  (fst (checkValidPluginFolder folder st) = Ok true <->
   fs_exists (st_fs st) folder = true
   /\ fs_exists (st_fs st) (folder ++ ["main.js"]) = true
   /\ exists v flag,
        fs_readFile (st_fs st) (folder ++ ["package.json"]) = Ok (JsonDoc v)
        /\ get_prop (Some v) "isManagedByHeadlampPlugin" = Ok flag
        /\ truthy flag = true)
  /\ st_fs (snd (checkValidPluginFolder folder st)) = st_fs st.
Proof.
  split.
  - rewrite checkValidPluginFolder_validity. apply folder_validity_true.
  - destruct (checkValidPluginFolder folder st) as [r st'] eqn:E.
    exact (checkValidPluginFolder_same_fs _ _ _ _ E).
Qed.

(** ** More frames *)

#[global] Instance reads_only_frame : Frame reads_only.
Proof.
  split; unfold reads_only.
  - intros st. repeat split. apply frame_refl.
  - intros a b c (H1 & H2 & H3) (H4 & H5 & H6). repeat split; try congruence.
    exact (frame_trans _ _ _ H3 H6).
Qed.
#[global] Instance reads_only_act : ActFrame reading reads_only.
Proof. intros st a Ha. repeat split. now apply act_ok. Qed.
#[global] Instance reads_only_event : EventFrame reads_only.
Proof. intros st p. repeat split. apply event_ok. Qed.

#[global] Instance quiet_frame : Frame quiet.
Proof. split; unfold quiet; congruence. Qed.
#[global] Instance quiet_act : ActFrame (fun _ => True) quiet.
Proof. intros st a _. reflexivity. Qed.
#[global] Instance quiet_tick : TickFrame quiet.
Proof. intros st. reflexivity. Qed.
#[global] Instance quiet_fs : FsFrame quiet.
Proof. intros st fs'. reflexivity. Qed.

#[global] Instance told_frame (Q : ProgressResp -> Prop) : Frame (told Q).
Proof.
  split; unfold told.
  - intros st. exists []. now rewrite app_nil_r.
  - intros a b c (l1 & E1 & F1) (l2 & E2 & F2). exists (l1 ++ l2).
    split; [now rewrite E2, E1, <- app_assoc | now apply Forall_app].
Qed.
#[global] Instance told_act (Q : ProgressResp -> Prop) : ActFrame (fun _ => True) (told Q).
Proof. intros st a _. exists []. simpl. now rewrite app_nil_r. Qed.
#[global] Instance told_tick (Q : ProgressResp -> Prop) : TickFrame (told Q).
Proof. intros st. exists []. simpl. now rewrite app_nil_r. Qed.
#[global] Instance told_fs (Q : ProgressResp -> Prop) : FsFrame (told Q).
Proof. intros st fs'. exists []. simpl. now rewrite app_nil_r. Qed.

(** ** Listing *)

Section Listing.
Context (P : Action -> Prop) (R : State -> State -> Prop)
        `{!Frame R} `{!ActFrame P R} (Hr : forall a, reading a -> P a).

Lemma respects_list_loop (folder : Path) (names : list string) :
  forall acc, respects R (PluginManager.list_loop folder names acc).
Proof.
  induction names as [|f names IH]; intros acc; simpl.
  - apply respects_ret; frame.
  - apply respects_bind; [frame | |].
    { apply (respects_checkValidPluginFolder P); first [exact Hr | frame]. }
    intros v. apply respects_bind; [frame | | intros l; apply IH].
    destruct v; [| apply respects_ret; frame].
    apply respects_bind; [frame | |].
    { apply (respects_readFileSync P); first [now apply Hr | frame]. }
    intros d. apply respects_bind; [frame | apply respects_JSON_parse; frame |].
    intros pj. apply respects_bind; [frame | apply respects_lift; frame |].
    intros entry. apply respects_ret; frame.
Qed.

(** The part of [list] before the result is handed over. *)
Lemma respects_list_scan (folder : Path) :
  respects R (entries ← readdirSync folder;
              PluginManager.list_loop folder
                (map fst (filter (fun e : string * bool => snd e) entries)) []).
Proof.
  apply respects_bind; [frame | |].
  { apply (respects_readdirSync P); first [now apply Hr | frame]. }
  intros entries. apply respects_list_loop.
Qed.

Lemma respects_list_None (folder : Path) :
  respects R (PluginManager.list folder None).
Proof.
  unfold PluginManager.list. apply respects_try_catch; [frame | |].
  - apply respects_bind; [frame | |].
    { apply (respects_readdirSync P); first [now apply Hr | frame]. }
    intros entries. apply respects_bind; [frame | apply respects_list_loop |].
    intros l. apply respects_ret; frame.
  - intros e. apply respects_bind; [frame | apply respects_throw; frame |].
    intros _. apply respects_ret; frame.
Qed.

Lemma respects_list `{!EventFrame R} (folder : Path) (cb : option ProgressCallback) :
  respects R (PluginManager.list folder cb).
Proof.
  destruct cb as [cb|]; [| apply respects_list_None].
  unfold PluginManager.list. apply respects_try_catch; [frame | |].
  - apply respects_bind; [frame | |].
    { apply (respects_readdirSync P); first [now apply Hr | frame]. }
    intros entries. apply respects_bind; [frame | apply respects_list_loop |].
    intros l. apply respects_bind; [frame | apply respects_call; frame |].
    intros _. apply respects_ret; frame.
  - intros e. apply respects_bind; [frame | apply respects_report; frame |].
    intros _. apply respects_ret; frame.
Qed.

End Listing.

(** X3.  Without a callback, what [list] returns holds, in directory order,
    one entry for each sub-directory that passes the validity check, and
    nothing else; files of the folder and sub-directories that fail the check
    are left out.  The file system and the progress events are as they
    were. *)
Theorem list_returns_valid_directories (folder : Path) (st : State)
    (l : list PluginData) (st' : State) :
  PluginManager.list folder None st = (Ok (Some l), st') ->
  map folderName l
  = filter (fun f => is_valid (st_fs st) folder f) (directories (st_fs st) folder)
  /\ st_fs st' = st_fs st
  /\ st_events st' = st_events st.
Proof.
  intros E. split; [exact (list_spec _ _ _ _ E) |]. split.
  - exact (list_same_fs _ _ _ _ _ E).
  - exact (respects_list_None (fun _ => True) quiet (fun _ _ => I) folder _ _ _ E).
Qed.

Lemma list_returns_valid_directories_witness :
  map folderName
      (match fst (PluginManager.list Sample.root None (Sample.start Sample.unmanagedFS)) with
       | Ok (Some l) => l
       | _ => []
       end)
  = ["demo"].
Proof.
  refine (eq_trans (proj1 (list_returns_valid_directories Sample.root
            (Sample.start Sample.unmanagedFS) _
            (snd (PluginManager.list Sample.root None (Sample.start Sample.unmanagedFS)))
            _)) _).
  - vm_compute. reflexivity.
  - vm_compute. reflexivity.
Defined.

(** X4.  Whatever it returns, reports or throws, [list] only looks: every
    call it makes to the outside is an [existsSync], a [readFileSync] or a
    [readdirSync]; the file system is unchanged and no instant passes. *)
Theorem list_is_read_only (folder : Path) (cb : option ProgressCallback) (st : State) :
  let st' := snd (PluginManager.list folder cb st) in
  st_fs st' = st_fs st
  /\ st_clock st' = st_clock st
  /\ exists l, st_actions st' = st_actions st ++ l /\ Forall reading l.
Proof.
  destruct (PluginManager.list folder cb st) as [r st'] eqn:E. simpl.
  exact (respects_list reading reads_only (fun _ H => H) folder cb _ _ _ E).
Qed.

Lemma list_run (folder : Path) (cb : option ProgressCallback) (st : State) :
  PluginManager.list folder cb st
  = match (entries ← readdirSync folder;
           PluginManager.list_loop folder
             (map fst (filter (fun e : string * bool => snd e) entries)) []) st with
    | (Ok l, s) =>
        match cb with
        | Some c => (Ok None, snd (call c (mkProgress "success" "Plugins Listed" (Some l)) s))
        | None => (Ok (Some l), s)
        end
    | (Throw e, s) =>
        match cb with
        | Some c => (Ok None, snd (call c (error (message e)) s))
        | None => (Throw e, s)
        end
    end.
Proof.
  unfold PluginManager.list, try_catch, report, call, mbind, M_bind, mret, M_ret, throw.
  destruct (readdirSync folder st) as [[entries|e] s1]; [| now destruct cb].
  destruct (PluginManager.list_loop folder _ [] s1) as [[l|e] s2]; now destruct cb.
Qed.

(** X5.  [list] with a callback that returns normally from each call (one
    that throws from the call of line 337 is called again by the handler of
    line 343): [list] returns [undefined] and has called it exactly once,
    with the array the call without a callback would have returned, under
    'Plugins Listed', or with the message of the error that call would have
    thrown. *)
Theorem list_callback_receives_result (folder : Path) (st : State) :
  let quietly := PluginManager.list folder None st in
  let reported := PluginManager.list folder (Some Recorder) st in
  fst reported = Ok None
  /\ fst quietly <> Ok None
  /\ st_events (snd reported)
     = st_events st ++
       [match fst quietly with
        | Ok data => mkProgress "success" "Plugins Listed" data
        | Throw e => error (message e)
        end]
  /\ st_fs (snd reported) = st_fs st.
Proof.
  intros quietly reported.
  assert (Hfs : st_fs (snd reported) = st_fs st).
  { unfold reported. destruct (PluginManager.list folder (Some Recorder) st) eqn:E.
    exact (list_same_fs _ _ _ _ _ E). }
  unfold quietly, reported in *. rewrite !list_run.
  destruct ((entries ← readdirSync folder;
             PluginManager.list_loop folder
               (map fst (filter (fun e : string * bool => snd e) entries)) []) st)
    as [[l|e] s] eqn:E;
    pose proof (respects_list_scan (fun _ => True) quiet (fun _ _ => I) folder _ _ _ E) as Hq;
    unfold quiet in Hq; simpl; rewrite Hq; repeat split; try discriminate;
    now rewrite list_run, E in Hfs.
Qed.

(** ** Uninstalling *)

Lemma uninstall_try_callback (wanted : string) (folder : Path)
    (cb : ProgressCallback) (st : State) :
  PluginManager.uninstall_try wanted folder (Some cb) st
  = match PluginManager.uninstall_try wanted folder None st with
    | (Ok _, s) => call cb (success "Plugin Uninstalled") s
    | (Throw e, s) => (Throw e, s)
    end.
Proof.
  unfold PluginManager.uninstall_try, notify, mbind, M_bind, mret, M_ret.
  destruct (PluginManager.list folder None st) as [[o|e] s1]; [| reflexivity].
  destruct (PluginManager.findInstalled o wanted s1) as [[plugin|e] s2]; [| reflexivity].
  destruct (checkValidPluginFolder _ s2) as [[v|e] s3]; [| reflexivity].
  destruct (negb v); [reflexivity |].
  destruct (existsSync _ s3) as [[ex|e] s4]; [| reflexivity].
  destruct ex.
  - destruct (rmdirSync _ s4) as [[[]|e] s5]; reflexivity.
  - reflexivity.
Qed.

Lemma uninstall_try_quiet (wanted : string) (folder : Path) :
  respects quiet (PluginManager.uninstall_try wanted folder None).
Proof.
  unfold PluginManager.uninstall_try.
  apply respects_bind; [frame | |].
  { apply (respects_list_None (fun _ => True)); [frame | frame | auto]. }
  intros o. apply respects_bind; [frame | |].
  { unfold PluginManager.findInstalled. destruct o as [l|]; [| apply respects_throw; frame].
    destruct (List.find _ l); [apply respects_ret | apply respects_throw]; frame. }
  intros plugin. apply respects_bind; [frame | |].
  { apply (respects_checkValidPluginFolder (fun _ => True)); [frame | frame | auto]. }
  intros v. destruct (negb v); [apply respects_throw; frame |].
  apply respects_bind; [frame | |].
  { apply (respects_existsSync (fun _ => True)); [frame | frame | exact I]. }
  intros ex. apply respects_bind; [frame | | intros _; apply respects_ret; frame].
  destruct ex; [| apply respects_throw; frame].
  unfold rmdirSync.
  apply respects_bind; [frame | apply (respects_act (fun _ => True)); try frame; exact I |].
  intros _. apply respects_bind; [frame | apply respects_get_fs; frame |].
  intros fs. apply respects_bind; [frame | apply respects_lift; frame |].
  intros fs'. apply respects_set_fs; frame.
Qed.

(** X6.  [uninstall] with a callback that returns normally from each call
    (one that throws from the call of line 278 is called again by the
    handler of line 282): [uninstall] returns and has called it exactly
    once, with 'Plugin Uninstalled' if the call without a callback would
    have returned, with the message of its error otherwise.  Either way it
    makes the same calls and leaves the same file system. *)
Theorem uninstall_callback_receives_outcome (wanted : string) (folder : Path)
    (st : State) :
  let quietly := PluginManager.uninstall wanted folder None st in
  let reported := PluginManager.uninstall wanted folder (Some Recorder) st in
  fst reported = Ok tt
  /\ st_events (snd reported)
     = st_events st ++
       [match fst quietly with
        | Ok _ => success "Plugin Uninstalled"
        | Throw e => error (message e)
        end]
  /\ st_fs (snd reported) = st_fs (snd quietly)
  /\ st_actions (snd reported) = st_actions (snd quietly).
Proof.
  unfold PluginManager.uninstall, try_catch. rewrite uninstall_try_callback.
  destruct (PluginManager.uninstall_try wanted folder None st) as [[[]|e] s] eqn:E;
    pose proof (uninstall_try_quiet _ _ _ _ _ E) as Hq; unfold quiet in Hq;
    simpl; rewrite Hq; auto.
Qed.

Lemma strict_eq_string_spec (v : JsVal) (s : string) :
  strict_eq_string v s = true <-> v = Some (JStr s).
Proof.
  unfold strict_eq_string. destruct v as [[]|]; try (split; discriminate).
  rewrite String.eqb_eq. split; [now intros -> | now intros [=]].
Qed.

(** X7.  When [uninstall] returns, the folder it removed is that of the
    first listed plugin whose name is, strictly, the name asked for; that
    folder and all it held are gone, it is no longer a sub-directory of the
    plugins folder, and every path outside it is as it was. *)
Theorem uninstall_removes_named_plugin (wanted : string) (folder : Path)
    (st st' : State) :
  wf_fs (st_fs st) ->
  PluginManager.uninstall wanted folder None st = (Ok tt, st') ->
  exists l s1 plugin,
    PluginManager.list folder None st = (Ok (Some l), s1)
    /\ List.find (fun p => strict_eq_string (pluginName p) wanted) l = Some plugin
    /\ pluginName plugin = Some (JStr wanted)
    /\ (forall q, st_fs st' !! (folder ++ folderName plugin :: q) = None)
    /\ (forall k, strip_prefix (folder ++ [folderName plugin]) k = None ->
                  st_fs st' !! k = st_fs st !! k)
    /\ ~ In (folderName plugin) (directories (st_fs st') folder).
Proof.
  intros Hwf E. unfold PluginManager.uninstall in E.
  apply try_catch_run in E as [([] & E & _)|(e & s & _ & E)]; [| discriminate].
  unfold PluginManager.uninstall_try in E.
  apply bind_run in E as [(o & st1 & El & E)|(e & _ & ?)]; [| discriminate].
  pose proof (list_same_fs _ _ _ _ _ El) as Hfs1. unfold same_fs in Hfs1.
  destruct (list_run_None _ _ _ _ El) as [(l & Eo)|(e' & ? & _)]; [| discriminate].
  inversion Eo; subst o; clear Eo.
  apply list_spec in El as Hl.
  apply bind_run in E as [(plugin & st2 & Ef & E)|(e & _ & ?)]; [| discriminate].
  unfold PluginManager.findInstalled in Ef.
  destruct (List.find _ l) as [pl|] eqn:Hfind; inversion Ef; subst pl st2; clear Ef.
  exists l, st1, plugin. split; [exact El |]. split; [exact Hfind |].
  apply List.find_some in Hfind as [Hin Hname].
  apply strict_eq_string_spec in Hname. split; [exact Hname |].
  assert (Hmem : folderName plugin ∈ filter (fun f => is_valid (st_fs st) folder f)
                                            (directories (st_fs st) folder)).
  { rewrite <- Hl. apply list_elem_of_In. now apply in_map. }
  apply list_elem_of_filter in Hmem as [Hval Hdir].
  apply Is_true_true in Hval. apply list_elem_of_In in Hdir.
  pose proof (is_valid_validity _ _ _ Hval) as Hv.
  rewrite (path_join_segment _ _ (directories_valid_segment _ _ _ Hwf Hdir)) in *.
  apply bind_run in E as [(valid & st2 & Ec & E)|(e & _ & ?)]; [| discriminate].
  pose proof (checkValidPluginFolder_same_fs _ _ _ _ Ec) as Hfs2. unfold same_fs in Hfs2.
  pose proof (checkValidPluginFolder_validity (folder ++ [folderName plugin]) st1) as Hcv.
  rewrite Ec, Hfs1, Hv in Hcv. simpl in Hcv. inversion Hcv; subst valid. simpl in E.
  unfold existsSync, rmdirSync in E. unfold_m. simpl in E.
  rewrite Hfs2, Hfs1 in E. rewrite (validity_exists _ _ Hv) in E.
  simpl in E. rewrite ?Hfs2, ?Hfs1 in E.
  unfold fs_rmdir in E.
  destruct (node_at (st_fs st) (folder ++ [folderName plugin])) as [[|d]|];
    simpl in E; try discriminate.
  assert (Hfs : st_fs st' = rm_tree (folder ++ [folderName plugin]) (st_fs st))
    by (now inversion E).
  assert (Hgone : forall q, st_fs st' !! (folder ++ folderName plugin :: q) = None).
  { intros q. rewrite Hfs, rm_tree_lookup.
    replace (folder ++ folderName plugin :: q) with ((folder ++ [folderName plugin]) ++ q)
      by (now rewrite <- app_assoc).
    now rewrite strip_prefix_app. }
  split; [exact Hgone |]. split.
  - intros k Hk. now rewrite Hfs, rm_tree_lookup, Hk.
  - intros Hd. apply directories_spec in Hd.
    specialize (Hgone []). congruence.
Qed.

Lemma uninstall_removes_named_plugin_witness :
  st_fs (snd (PluginManager.uninstall "demo" Sample.root None
                (Sample.start Sample.unmanagedFS)))
    !! (Sample.root ++ ["demo"; "main.js"]) = None.
Proof.
  destruct (uninstall_removes_named_plugin "demo" Sample.root
              (Sample.start Sample.unmanagedFS)
              (snd (PluginManager.uninstall "demo" Sample.root None
                      (Sample.start Sample.unmanagedFS))))
    as (l & s1 & plugin & El & Hfind & _ & Hgone & _).
  - exact sample_unmanaged_wf.
  - vm_compute. reflexivity.
  - assert (Hf : folderName plugin = "demo").
    { assert (El' : fst (PluginManager.list Sample.root None
                           (Sample.start Sample.unmanagedFS)) = Ok (Some l))
        by (now rewrite El).
      vm_compute in El'. inversion El'; subst l.
      vm_compute in Hfind. now inversion Hfind. }
    specialize (Hgone ["main.js"]). rewrite Hf in Hgone. exact Hgone.
Defined.

(** ** Updating a plugin that is not installed *)

(** X8.  [update] of a name that no listed plugin carries fails with
    'Plugin not found' (reported or thrown) after the listing alone: no
    request has been made and the file system is unchanged. *)
Theorem update_unknown_plugin `{Platform} (wanted : string) (dest : Path) (hv : string)
    (cb : option ProgressCallback) (signal : option AbortSignal)
    (st : State) (l : list PluginData) (st1 : State) :
  PluginManager.list dest None st = (Ok (Some l), st1) ->
  List.find (fun p => strict_eq_string (pluginName p) wanted) l = None ->
  PluginManager.update wanted dest hv cb signal st
  = report cb (Error "Plugin not found") st1
  /\ st_fs st1 = st_fs st
  /\ exists acts, st_actions st1 = st_actions st ++ acts /\ Forall reading acts.
Proof.
  intros El Hfind. split.
  - unfold PluginManager.update, try_catch, PluginManager.update_try,
      PluginManager.update_lookup.
    unfold mbind at 1. unfold M_bind at 1.
    unfold mbind at 1. unfold M_bind at 1. rewrite El.
    unfold mbind at 1. unfold M_bind at 1.
    unfold PluginManager.findInstalled. now rewrite Hfind.
  - destruct (respects_list reading reads_only (fun _ Ha => Ha) dest None _ _ _ El)
      as (Hfs & _ & Ha).
    split; [exact Hfs | exact Ha].
Qed.

Lemma update_unknown_plugin_witness :
  fst (@PluginManager.update (Sample.platform Sample.stalePkg) "ghost" Sample.root ""
         None None (Sample.start Sample.installedFS))
  = Throw (Error "Plugin not found").
Proof.
  refine (eq_trans (f_equal fst (proj1 (@update_unknown_plugin
            (Sample.platform Sample.stalePkg) "ghost" Sample.root "" None None
            (Sample.start Sample.installedFS)
            (match fst (PluginManager.list Sample.root None
                          (Sample.start Sample.installedFS)) with
             | Ok (Some l) => l
             | _ => []
             end)
            (snd (PluginManager.list Sample.root None (Sample.start Sample.installedFS)))
            _ _))) _).
  - vm_compute. reflexivity.
  - vm_compute. reflexivity.
  - reflexivity.
Defined.

(** ** The metadata request *)

Lemma replace_first_prefix (s pat rep rest : string) :
  drop_prefix pat s = Some rest -> replace_first s pat rep = rep +:+ rest.
Proof. intros E. destruct s; simpl; now rewrite E. Qed.

Lemma fetchPluginInfo_asks `{Platform} (URL : JsVal) (cb : option ProgressCallback)
    (signal : option AbortSignal) (st : State) :
  calls_fetch_at_most_once URL st (snd (fetchPluginInfo URL cb signal st)).
Proof.
  destruct (fetchPluginInfo URL cb signal st) as [r st'] eqn:E. simpl.
  unfold calls_fetch_at_most_once, fetchPluginInfo, try_catch in *.
  unfold mbind at 1 in E. unfold M_bind at 1 in E. unfold lift at 1 in E.
  destruct (string_receiver URL) as [url|e] eqn:Eu.
  2:{ destruct cb; inversion E; subst; simpl; auto. }
  assert (URL = Some (JStr url)) as ->.
  { destruct URL as [[]|]; simpl in Eu; congruence. }
  unfold startsWith in E.
  destruct (drop_prefix artifacthubPrefix url) as [rest|] eqn:Ed.
  2:{ destruct cb; inversion E; subst; simpl; auto. }
  cbn [negb] in E.
  rewrite (replace_first_prefix _ _ artifacthubApiPrefix _ Ed) in E.
  apply drop_prefix_spec in Ed. subst url.
  unfold fetch in E. unfold_m.
  destruct cb; simpl in E;
    (destruct (fired_at signal _); simpl in E; [inversion E; subst; simpl; auto |]);
    (destruct (http _ _) as [resp|e]; simpl in E;
     [| inversion E; subst; simpl; split; [reflexivity | right; eauto]]);
    (destruct (resp_ok resp); simpl in E;
     [| inversion E; subst; simpl; split; [reflexivity | right; eauto]]);
    (destruct (resp_json resp); simpl in E;
     inversion E; subst; simpl; split; [reflexivity | right; eauto | reflexivity | right; eauto]).
Qed.

(** X9.  [fetchPluginInfo], and the static method that forwards to it, call
    [fetch] once at most, and only for a URL that begins with
    [https://artifacthub.io/packages/headlamp/]: the string handed to
    [fetch] is then [https://artifacthub.io/api/v1/packages/headlamp/]
    followed by the rest of the URL as it stands.  (Where the request ends
    up is for [fetch] to decide, which resolves the dot segments of that
    rest and follows redirects.)  They never touch the file system. *)
Theorem fetchPluginInfo_fetch_argument `{Platform} (URL : JsVal) (st : State) :
  (forall cb signal,
     calls_fetch_at_most_once URL st (snd (fetchPluginInfo URL cb signal st)))
  /\ (forall options,
        calls_fetch_at_most_once URL st (snd (PluginManager.fetchPluginInfo URL options st))).
Proof.
  split; [intros cb signal | intros options]; apply fetchPluginInfo_asks.
Qed.

(** ** The stages of [downloadExtractArchive], for any frame *)

Section Download.
Context `{Platform} (R : State -> State -> Prop)
        `{!Frame R} `{!ActFrame (fun _ => True) R} `{!TickFrame R}
        (cb : option ProgressCallback)
        (Hn : forall m, respects R (notify cb (info m))).

Lemma respects_da_validate (pluginInfo : option ArtifactHubHeadlampPkg)
    (hv : string) (signal : option AbortSignal) :
  respects R (da_validate pluginInfo hv cb signal).
Proof.
  unfold da_validate.
  apply respects_bind; [frame | apply respects_checkCancelled; frame |].
  intros _. apply respects_bind; [frame | |].
  { destruct pluginInfo; [apply respects_ret | apply respects_throw]; frame. }
  intros pkg.
  destruct (negb (validatePluginName (name pkg))); [apply respects_throw; frame |].
  destruct (negb (validateArchiveURL (archiveURL pkg))); [apply respects_throw; frame |].
  destruct (is_empty (archiveURL pkg) || is_empty (archiveChecksum pkg));
    [apply respects_throw; frame |].
  apply respects_bind; [frame | |].
  { destruct (negb (is_empty hv)); [| apply respects_ret; frame].
    apply respects_bind; [frame | apply Hn |].
    intros _. destruct (semver_satisfies hv (versionCompat pkg));
      [apply Hn | apply respects_throw; frame]. }
  intros _. apply respects_bind; [frame | apply respects_checkCancelled; frame |].
  intros _. apply respects_ret; frame.
Qed.

Lemma respects_read_chunks (cs : list (list Byte.byte)) (end_error : option JsError) :
  forall acc, respects R (read_chunks cs end_error acc).
Proof.
  induction cs as [|c cs IH]; intros acc; simpl.
  - apply respects_await; [frame | apply tick_ok |].
    destruct end_error; [apply respects_throw | apply respects_ret]; frame.
  - apply respects_bind; [frame | | intros _; apply IH].
    apply respects_await; [frame | apply tick_ok | apply respects_ret; frame].
Qed.

(** [da_download] once the temporary folder is there: lines 454-487. *)
Lemma respects_download_tail (pkg : ArtifactHubHeadlampPkg) (tempFolder : option Path)
    (signal : option AbortSignal) :
  respects R
    (notify cb (info "Downloading Plugin");;
     checkCancelled signal;;
     archResponse ← fetch (archiveURL pkg) signal;
     if negb (resp_ok archResponse)
     then throw (Error ("Failed to download tarball. Status code: "
                        +:+ pretty (resp_status archResponse)))
     else
       checkCancelled signal;;
       notify cb (info "Plugin Downloaded");;
       match resp_body archResponse with
       | None => throw (Error "Download empty")
       | Some body =>
           archChunks ← read_chunks (chunks body) (stream_error body) [];
           mret (tempFolder, concat archChunks)
       end).
Proof.
  apply respects_bind; [frame | apply Hn |].
  intros _. apply respects_bind; [frame | apply respects_checkCancelled; frame |].
  intros _. apply respects_bind; [frame | |].
  { apply (respects_fetch (fun _ => True)); try frame. exact I. }
  intros resp. destruct (negb (resp_ok resp)); [apply respects_throw; frame |].
  apply respects_bind; [frame | apply respects_checkCancelled; frame |].
  intros _. apply respects_bind; [frame | apply Hn |].
  intros _. destruct (resp_body resp) as [body|]; [| apply respects_throw; frame].
  apply respects_bind; [frame | apply respects_read_chunks |].
  intros archChunks. apply respects_ret; frame.
Qed.

Lemma respects_da_verify (archBuffer : list Byte.byte) (checksum : string) :
  respects R (da_verify archBuffer checksum).
Proof.
  unfold da_verify. destruct (negb _); [apply respects_throw | apply respects_ret]; frame.
Qed.

Lemma respects_da_extract (pkg : ArtifactHubHeadlampPkg) (tempFolder : option Path)
    (archBuffer : list Byte.byte) (signal : option AbortSignal) :
  respects R (tarExtract archBuffer
                (match tempFolder with Some t => t | None => process_cwd end)) ->
  (forall d, respects R (writeFileSync (manifestIn tempFolder) d)) ->
  respects R (da_extract pkg tempFolder archBuffer cb signal).
Proof.
  intros Htar Hwrite. unfold da_extract.
  apply respects_bind; [frame | apply respects_checkCancelled; frame |].
  intros _. apply respects_bind; [frame | apply Hn |].
  intros _. apply respects_bind; [frame | |].
  { apply respects_await; [frame | apply tick_ok | exact Htar]. }
  intros _. apply respects_bind; [frame | apply respects_checkCancelled; frame |].
  intros _. apply respects_bind; [frame | apply Hn |].
  intros _. apply respects_bind; [frame | |].
  { apply (respects_readFileSync (fun _ => True)); [frame | frame | exact I]. }
  intros d. apply respects_bind; [frame | apply respects_JSON_parse; frame |].
  intros pj. apply respects_bind; [frame | apply respects_lift; frame |].
  intros pj1. apply respects_bind; [frame | apply respects_lift; frame |].
  intros pj2. apply respects_bind; [frame | apply Hwrite |].
  intros _. apply respects_ret; frame.
Qed.

Context `{!FsFrame R}.

Lemma respects_mkdirSync (p : Path) : respects R (mkdirSync p).
Proof.
  unfold mkdirSync.
  apply respects_bind; [frame | apply (respects_act (fun _ => True)); try frame; exact I |].
  intros _. apply respects_bind; [frame | apply respects_get_fs; frame |].
  intros fs. apply respects_bind; [frame | apply respects_lift; frame |].
  intros x. apply respects_bind; [frame | apply respects_set_fs; frame |].
  intros _. apply respects_ret; frame.
Qed.

Lemma respects_mkdtempSync (dir : Path) (prefix : string) :
  respects R (mkdtempSync dir prefix).
Proof.
  unfold mkdtempSync.
  apply respects_bind; [frame | apply (respects_act (fun _ => True)); try frame; exact I |].
  intros _. apply respects_bind; [frame | apply respects_get_fs; frame |].
  intros fs. apply respects_bind; [frame | apply respects_lift; frame |].
  intros x. apply respects_bind; [frame | apply respects_set_fs; frame |].
  intros _. apply respects_ret; frame.
Qed.

Lemma respects_rmdirSync (p : Path) : respects R (rmdirSync p).
Proof.
  unfold rmdirSync.
  apply respects_bind; [frame | apply (respects_act (fun _ => True)); try frame; exact I |].
  intros _. apply respects_bind; [frame | apply respects_get_fs; frame |].
  intros fs. apply respects_bind; [frame | apply respects_lift; frame |].
  intros fs'. apply respects_set_fs; frame.
Qed.



Lemma respects_writeFileSync (p : Path) (d : FileData) : respects R (writeFileSync p d).
Proof.
  unfold writeFileSync.
  apply respects_bind; [frame | apply (respects_act (fun _ => True)); try frame; exact I |].
  intros _. apply respects_bind; [frame | apply respects_get_fs; frame |].
  intros fs. apply respects_bind; [frame | apply respects_lift; frame |].
  intros fs'. apply respects_set_fs; frame.
Qed.

Lemma respects_tarExtract (archBuffer : list Byte.byte) (cwd : Path) :
  respects R (tarExtract archBuffer cwd).
Proof.
  unfold tarExtract.
  apply respects_bind; [frame | apply (respects_act (fun _ => True)); try frame; exact I |].
  intros _. apply respects_bind; [frame | apply respects_get_fs; frame |].
  intros fs. apply respects_bind; [frame | apply respects_set_fs; frame |].
  intros _. destruct (snd (tar_extract archBuffer));
    [apply respects_throw | apply respects_ret]; frame.
Qed.



Lemma respects_da_download (pkg : ArtifactHubHeadlampPkg) (signal : option AbortSignal) :
  respects R (da_download pkg cb signal).
Proof.
  unfold da_download.
  apply respects_bind; [frame | |].
  { apply respects_await; [frame | apply tick_ok | apply respects_mkdtempSync]. }
  intros tempDir. apply respects_bind; [frame | apply respects_mkdirSync |].
  intros tempFolder. apply respects_download_tail.
Qed.

Lemma respects_downloadExtractArchive (pluginInfo : option ArtifactHubHeadlampPkg)
    (hv : string) (signal : option AbortSignal) :
  respects R (downloadExtractArchive pluginInfo hv cb signal).
Proof.
  unfold downloadExtractArchive.
  apply respects_bind; [frame | apply respects_da_validate |].
  intros v. apply respects_bind; [frame | apply respects_da_download |].
  intros d. apply respects_bind; [frame | apply respects_da_verify |].
  intros _. apply respects_da_extract.
  - apply respects_tarExtract.
  - intros x. apply respects_writeFileSync.
Qed.

End Download.

Lemma notify_info_told (cb : option ProgressCallback) (m : string) :
  respects (told is_info) (notify cb (info m)).
Proof.
  intros st r st' E. destruct cb; inversion E; subst.
  - exists [info m]. split; [reflexivity | now constructor].
  - apply frame_refl.
Qed.

Lemma notify_None_quiet (p : ProgressResp) : respects quiet (notify None p).
Proof. apply respects_ret; frame. Qed.

(** X10.  With a callback attached, a [fetchPluginInfo] that fails does both:
    it throws, and before that it has handed the callback one event of type
    'error' carrying the message of what it throws, after any 'info' event.
    A [fetchPluginInfo] that returns has fired no 'error' event. *)
Theorem fetchPluginInfo_reports_and_throws `{Platform} (URL : JsVal)
    (cb : ProgressCallback) (signal : option AbortSignal) (st : State) :
  let run := fetchPluginInfo URL (Some cb) signal st in
  exists infos,
    Forall is_info infos
    /\ st_events (snd run)
       = st_events st ++ infos
         ++ match fst run with
            | Ok _ => []
            | Throw e => [error (message e)]
            end.
Proof.
  intros run. unfold run.
  destruct (fetchPluginInfo URL (Some cb) signal st) as [r st'] eqn:E.
  unfold fetchPluginInfo in E.
  match type of E with
  | try_catch ?m _ _ = _ => assert (Hb : respects (told is_info) m)
  end.
  { apply respects_bind; [frame | apply respects_lift; frame |].
    intros url. destruct (negb (startsWith url artifacthubPrefix));
      [apply respects_throw; frame |].
    apply respects_bind; [frame | apply notify_info_told |].
    intros _. apply respects_bind; [frame | |].
    { apply (respects_fetch (fun _ => True)); try frame. exact I. }
    intros resp. destruct (negb (resp_ok resp)); [apply respects_throw; frame |].
    apply respects_bind; [frame | | intros pkg; apply respects_ret; frame].
    apply respects_await; [frame | apply tick_ok | apply respects_lift; frame]. }
  apply try_catch_run in E as [(a & E & ->)|(e & s1 & E & Eh)].
  - apply Hb in E as (l & El & Hl). exists l. simpl. now rewrite app_nil_r.
  - apply Hb in E as (l & El & Hl). exists l. split; [exact Hl |].
    unfold_m. inversion Eh; subst. simpl. now rewrite El, <- app_assoc.
Qed.


(** ** Runs compared up to their progress events *)


Section Alike.





















Context `{Platform}.








End Alike.

(** X11.  Every event that [downloadExtractArchive] hands to the callback is
    of type 'info', however the run ends: 'success' and 'error' events come
    from its callers alone.  Without a callback it fires no event. *)
Theorem download_fires_info_events_only `{Platform}
    (pluginInfo : option ArtifactHubHeadlampPkg) (hv : string)
    (cb : option ProgressCallback) (signal : option AbortSignal) (st : State) :
  (exists l,
     st_events (snd (downloadExtractArchive pluginInfo hv cb signal st))
     = st_events st ++ l
     /\ Forall is_info l)
  /\ st_events (snd (downloadExtractArchive pluginInfo hv None signal st))
     = st_events st.
Proof.
  split.
  - destruct (downloadExtractArchive pluginInfo hv cb signal st) as [r s] eqn:E.
    exact (respects_downloadExtractArchive (told is_info) cb
             (notify_info_told cb) _ _ _ _ _ _ E).
  - destruct (downloadExtractArchive pluginInfo hv None signal st) as [r s] eqn:E.
    exact (respects_downloadExtractArchive quiet None
             (fun m => notify_None_quiet (info m)) _ _ _ _ _ _ E).
Qed.

(** ** Installing with a callback attached *)

Section InstallCallback.
Context `{Platform}.




End InstallCallback.

(** ** Closed file systems and the temporary directory *)

Lemma closed_ancestors (fs : FS) (a : Path) :
  closed_fs fs -> a <> [] ->
  forall b, b <> [] -> is_Some (fs !! (a ++ b)) -> fs !! a = Some NDir.
Proof.
  intros Hc Ha b. induction b as [|x b IH] using rev_ind; [congruence |].
  intros _ Hs. rewrite app_assoc in Hs. apply Hc in Hs.
  assert (Hn : fs !! (a ++ b) = Some NDir).
  { unfold is_dir, node_at in Hs. destruct a as [|y a]; [congruence |]. simpl in *.
    destruct (fs !! (y :: a ++ b)) as [[|d]|]; congruence. }
  destruct b as [|z b'].
  - now rewrite app_nil_r in Hn.
  - apply IH; [discriminate |]. rewrite Hn. eauto.
Qed.

Lemma closed_fresh (fs : FS) (p q : Path) :
  closed_fs fs -> p <> [] -> fs !! p = None -> fs !! (p ++ q) = None.
Proof.
  intros Hc Hp Hn. destruct q as [|x q]; [now rewrite app_nil_r |].
  destruct (fs !! (p ++ x :: q)) eqn:E; [| reflexivity].
  assert (fs !! p = Some NDir)
    by (apply (closed_ancestors fs p Hc Hp (x :: q)); [discriminate | now rewrite E]).
  congruence.
Qed.

Lemma closed_insert_dir (fs : FS) (p : Path) (x : string) :
  closed_fs fs -> is_dir fs p = true -> closed_fs (<[p ++ [x] := NDir]> fs).
Proof.
  intros Hc Hd q y Hs.
  assert (Hq : is_dir fs q = true).
  { destruct (decide (q ++ [y] = p ++ [x])) as [Heq|Hne].
    - apply app_inj_tail in Heq as [-> _]. exact Hd.
    - rewrite lookup_insert_ne in Hs by congruence. exact (Hc q y Hs). }
  unfold is_dir, node_at in *. destruct q as [|z q]; [reflexivity |].
  destruct (decide (p ++ [x] = z :: q)) as [<-|Hne].
  - now rewrite lookup_insert_eq.
  - now rewrite lookup_insert_ne.
Qed.

Lemma mkdir_walk_existing (fs : FS) (rest : list string) :
  forall (pre more : Path) (first : option Path),
    (forall a b, rest = a ++ b -> a <> [] -> fs !! (pre ++ a) = Some NDir) ->
    mkdir_walk fs pre (rest ++ more) first = mkdir_walk fs (pre ++ rest) more first.
Proof.
  induction rest as [|x rest IH]; intros pre more first Hd; simpl.
  - now rewrite app_nil_r.
  - rewrite (Hd [x] rest eq_refl) by discriminate.
    rewrite IH.
    + now rewrite <- app_assoc.
    + intros a b -> Ha. rewrite <- app_assoc. simpl.
      apply (Hd (x :: a) b); [reflexivity | discriminate].
Qed.

(** In a closed file system, [mkdirSync] of a new entry of an existing
    directory creates that entry and nothing else. *)
Lemma fs_mkdir_p_child (fs : FS) (dir : Path) (x : string) :
  closed_fs fs -> dir <> [] -> fs !! dir = Some NDir -> fs !! (dir ++ [x]) = None ->
  fs_mkdir_p fs (dir ++ [x]) = Ok (<[dir ++ [x] := NDir]> fs, Some (dir ++ [x])).
Proof.
  intros Hc Hne Hd Hx. unfold fs_mkdir_p.
  rewrite (mkdir_walk_existing fs dir [] [x] None).
  - simpl. now rewrite Hx.
  - intros a b -> Ha. simpl. destruct b as [|y b]; [now rewrite app_nil_r in Hd |].
    apply (closed_ancestors fs a Hc Ha (y :: b)); [discriminate | now rewrite Hd].
Qed.

Lemma fs_unpack_outside (cwd : Path) (entries : list (Path * Node)) :
  forall (fs : FS) (k : Path),
    strip_prefix cwd k = None -> fs_unpack fs cwd entries !! k = fs !! k.
Proof.
  unfold fs_unpack. induction entries as [|[q n] es IH]; intros fs k Hk; simpl.
  - reflexivity.
  - rewrite IH by exact Hk. apply lookup_insert_ne. intros <-.
    now rewrite strip_prefix_app in Hk.
Qed.

Lemma fs_unpack_Some (cwd : Path) (entries : list (Path * Node)) :
  forall (fs : FS) (k : Path),
    is_Some (fs !! k) -> is_Some (fs_unpack fs cwd entries !! k).
Proof.
  unfold fs_unpack. induction entries as [|[q n] es IH]; intros fs k Hk; simpl.
  - exact Hk.
  - apply IH. destruct (decide (cwd ++ q = k)) as [<-|Hne].
    + rewrite lookup_insert_eq. eauto.
    + now rewrite lookup_insert_ne.
Qed.

Lemma fs_unpack_written (cwd : Path) (entries : list (Path * Node)) (q : Path) :
  forall fs : FS,
    In q (map fst entries) -> is_Some (fs_unpack fs cwd entries !! (cwd ++ q)).
Proof.
  induction entries as [|[q' n] es IH]; intros fs Hin; [destruct Hin |].
  destruct Hin as [Heq|Hin].
  - simpl in Heq. subst q'. unfold fs_unpack. simpl.
    apply (fs_unpack_Some cwd es). rewrite lookup_insert_eq. eauto.
  - unfold fs_unpack. simpl. now apply IH.
Qed.

#[global] Instance untouched_frame (p : Path) : Frame (untouched_outside p).
Proof.
  split; unfold untouched_outside.
  - reflexivity.
  - intros a b c H1 H2 k Hk. rewrite H2, H1; auto.
Qed.
#[global] Instance untouched_act (p : Path) : ActFrame (fun _ => True) (untouched_outside p).
Proof. intros st a _ k Hk. reflexivity. Qed.
#[global] Instance untouched_event (p : Path) : EventFrame (untouched_outside p).
Proof. intros st a k Hk. reflexivity. Qed.
#[global] Instance untouched_tick (p : Path) : TickFrame (untouched_outside p).
Proof. intros st k Hk. reflexivity. Qed.

Lemma strip_prefix_below (p q k : Path) :
  strip_prefix p k = None -> k <> p ++ q.
Proof. intros Hk ->. now rewrite strip_prefix_app in Hk. Qed.

Section Confined.
Context `{Platform}.

Lemma tarExtract_confined (p q : Path) (archBuffer : list Byte.byte) :
  respects (untouched_outside p) (tarExtract archBuffer (p ++ q)).
Proof.
  intros st r st' E. unfold tarExtract in E. unfold_m. simpl in E.
  assert (Hfs : st_fs st' = fs_unpack (st_fs st) (p ++ q) (fst (tar_extract archBuffer)))
    by (destruct (snd (tar_extract archBuffer)); now inversion E).
  intros k Hk. rewrite Hfs. apply fs_unpack_outside.
  apply strip_prefix_None. intros t Ht. rewrite <- app_assoc in Ht.
  now apply (strip_prefix_below p (q ++ t) k).
Qed.

Lemma writeFileSync_confined (p q : Path) (d : FileData) :
  respects (untouched_outside p) (writeFileSync (p ++ q) d).
Proof.
  intros st r st' E. unfold writeFileSync in E. unfold_m. simpl in E.
  unfold fs_writeFile in E. intros k Hk.
  destruct (p ++ q) as [|x t] eqn:Ep; [now inversion E |]. rewrite <- Ep in *.
  destruct (is_dir (st_fs st) (removelast (p ++ q))); [| now inversion E].
  assert (Hins : forall n, (<[p ++ q := n]> (st_fs st)) !! k = st_fs st !! k)
    by (intros n; apply lookup_insert_ne; intros <-; now rewrite strip_prefix_app in Hk).
  destruct (st_fs st !! (p ++ q)) as [[|d']|]; inversion E; subst; simpl;
    first [apply Hins | reflexivity].
Qed.

Lemma mkdtempSync_run (dir : Path) (prefix : string) (st : State) :
  mkdtempSync dir prefix st
  = match fs_mkdtemp (st_fs st) dir prefix (mkdtemp_suffix (st_fs st)) with
    | Ok r => (Ok (snd r),
               mkState (fst r) (st_clock st) (st_events st)
                       (st_actions st ++ [AMkdtemp dir]))
    | Throw e => (Throw e,
                  mkState (st_fs st) (st_clock st) (st_events st)
                          (st_actions st ++ [AMkdtemp dir]))
    end.
Proof.
  unfold mkdtempSync. unfold_m. simpl.
  now destruct (fs_mkdtemp (st_fs st) dir prefix (mkdtemp_suffix (st_fs st))).
Qed.

Lemma mkdirSync_run (p : Path) (st : State) :
  mkdirSync p st
  = match fs_mkdir_p (st_fs st) p with
    | Ok r => (Ok (snd r),
               mkState (fst r) (st_clock st) (st_events st)
                       (st_actions st ++ [AMkdir p]))
    | Throw e => (Throw e,
                  mkState (st_fs st) (st_clock st) (st_events st)
                          (st_actions st ++ [AMkdir p]))
    end.
Proof.
  unfold mkdirSync. unfold_m. simpl.
  now destruct (fs_mkdir_p (st_fs st) p).
Qed.

Lemma download_tail_result (pkg : ArtifactHubHeadlampPkg) (tempFolder : option Path)
    (cb : option ProgressCallback) (signal : option AbortSignal) (st : State)
    (tf : option Path) (buf : list Byte.byte) (st' : State) :
  (notify cb (info "Downloading Plugin");;
   checkCancelled signal;;
   archResponse ← fetch (archiveURL pkg) signal;
   if negb (resp_ok archResponse)
   then throw (Error ("Failed to download tarball. Status code: "
                      +:+ pretty (resp_status archResponse)))
   else
     checkCancelled signal;;
     notify cb (info "Plugin Downloaded");;
     match resp_body archResponse with
     | None => throw (Error "Download empty")
     | Some body =>
         archChunks ← read_chunks (chunks body) (stream_error body) [];
         mret (tempFolder, concat archChunks)
     end) st = (Ok (tf, buf), st') ->
  tf = tempFolder.
Proof.
  intros E.
  apply bind_run in E as [([] & sa & _ & E)|(? & _ & ?)]; [| discriminate].
  apply bind_run in E as [([] & sb & _ & E)|(? & _ & ?)]; [| discriminate].
  apply bind_run in E as [(resp & sc & _ & E)|(? & _ & ?)]; [| discriminate].
  destruct (negb (resp_ok resp)); [discriminate |].
  apply bind_run in E as [([] & sd & _ & E)|(? & _ & ?)]; [| discriminate].
  apply bind_run in E as [([] & se & _ & E)|(? & _ & ?)]; [| discriminate].
  destruct (resp_body resp) as [body|]; [| discriminate].
  apply bind_run in E as [(cs & sf & _ & E)|(? & _ & ?)]; [| discriminate].
  now inversion E.
Qed.

(** The temporary directory [downloadExtractArchive] creates when started
    on file system [fs]. *)
Lemma da_download_run (pkg : ArtifactHubHeadlampPkg) (cb : option ProgressCallback)
    (signal : option AbortSignal) (st : State)
    (r : Result (option Path * list Byte.byte)) (st' : State) :
  closed_fs (st_fs st) ->
  valid_segment (name pkg) = true ->
  da_download pkg cb signal st = (r, st') ->
  untouched_outside (tempDirOn (st_fs st)) st st'
  /\ forall tf buf, r = Ok (tf, buf) ->
       tf = Some (tempDirOn (st_fs st) ++ [name pkg])
       /\ st_fs st !! tempDirOn (st_fs st) = None
       /\ st_fs st' = <[tempDirOn (st_fs st) ++ [name pkg] := NDir]>
                        (<[tempDirOn (st_fs st) := NDir]> (st_fs st)).
Proof.
  intros Hc Hseg E. unfold da_download in E.
  unfold mbind at 1 in E. unfold M_bind at 1 in E. unfold await at 1 in E.
  rewrite mkdtempSync_run in E. unfold fs_mkdtemp in E. fold (tempDirOn (st_fs st)) in E.
  set (tempDir := tempDirOn (st_fs st)) in *.
  destruct (is_dir (st_fs st) os_tmpdir) eqn:Hd.
  2:{ inversion E; subst. split; [intros k Hk; reflexivity | discriminate]. }
  destruct (st_fs st !! tempDir) as [n|] eqn:Hfresh.
  { inversion E; subst. split; [intros k Hk; reflexivity | discriminate]. }
  cbn [fst snd] in E.
  rewrite (path_join_segment _ _ Hseg) in E.
  unfold mbind at 1 in E. unfold M_bind at 1 in E.
  rewrite mkdirSync_run in E. unfold tick in E. cbn [st_fs st_clock st_events st_actions] in E.
  assert (Hne : tempDir <> []) by (unfold tempDir, tempDirOn; now destruct os_tmpdir).
  rewrite (fs_mkdir_p_child (<[tempDir := NDir]> (st_fs st)) tempDir (name pkg)) in E.
  2:{ unfold tempDir, tempDirOn. now apply closed_insert_dir. }
  2:{ exact Hne. }
  2:{ apply lookup_insert_eq. }
  2:{ rewrite lookup_insert_ne by (intros Heq; apply (f_equal (@length _)) in Heq;
                                    rewrite length_app in Heq; simpl in Heq; lia).
      now apply closed_fresh. }
  cbn [fst snd] in E.
  assert (Hfs : same_fs _ st')
    by (refine (respects_download_tail same_fs cb _ _ _ _ _ _ _ E);
        intros m; apply respects_notify; frame).
  unfold same_fs in Hfs. simpl in Hfs.
  split.
  - intros k Hk. rewrite Hfs.
    rewrite !lookup_insert_ne; [reflexivity | |].
    + intros Heq. apply (strip_prefix_below tempDir [] k Hk). now rewrite app_nil_r.
    + intros Heq. exact (strip_prefix_below _ [name pkg] _ Hk (eq_sym Heq)).
  - intros tf buf ->. split; [| split; [reflexivity | exact Hfs]].
    exact (download_tail_result _ _ _ _ _ _ _ _ E).
Qed.

End Confined.

(** ** Extraction and the provenance stamp *)

Lemma assoc_set_eq (k : string) (v : JSON) (l : list (string * JSON)) :
  assoc k (assoc_set k v l) = Some v.
Proof.
  induction l as [|[k' v'] l IH]; simpl.
  - now rewrite String.eqb_refl.
  - destruct (String.eqb k k') eqn:E; simpl; rewrite ?String.eqb_refl, ?E; auto.
Qed.

Lemma assoc_set_ne (k k' : string) (v : JSON) (l : list (string * JSON)) :
  k <> k' -> assoc k (assoc_set k' v l) = assoc k l.
Proof.
  intros Hne. induction l as [|[k2 v2] l IH]; simpl.
  - apply String.eqb_neq in Hne. now rewrite Hne.
  - destruct (String.eqb_spec k' k2) as [->|H2]; simpl.
    + apply String.eqb_neq in Hne. now rewrite Hne.
    + now rewrite IH.
Qed.

Lemma set_prop_stamp (v v1 v2 : JSON) (k1 k2 : string) (x1 x2 : JSON) :
  k1 <> k2 ->
  set_prop v k1 x1 = Ok v1 -> set_prop v1 k2 x2 = Ok v2 ->
  (exists fields fields',
     v = JObj fields /\ v2 = JObj fields'
     /\ assoc k1 fields' = Some x1 /\ assoc k2 fields' = Some x2
     /\ forall k, k <> k1 -> k <> k2 -> assoc k fields' = assoc k fields)
  \/ (exists items, v = JArr items /\ v2 = JArr items).
Proof.
  intros Hne E1 E2. destruct v; simpl in E1; try discriminate; inversion E1; subst v1;
    simpl in E2; inversion E2; subst v2.
  - right. now exists items.
  - left. exists fields, (assoc_set k2 x2 (assoc_set k1 x1 fields)).
    repeat split.
    + rewrite assoc_set_ne by exact Hne. apply assoc_set_eq.
    + apply assoc_set_eq.
    + intros k H1 H2. now rewrite !assoc_set_ne.
Qed.

Section Extract.
Context `{Platform}.

Lemma da_extract_run (pkg : ArtifactHubHeadlampPkg) (tempFolder : option Path)
    (archBuffer : list Byte.byte) (cb : option ProgressCallback)
    (signal : option AbortSignal) (st : State) (x : string * option Path) (st' : State) :
  da_extract pkg tempFolder archBuffer cb signal st = (Ok x, st') ->
  let cwd := match tempFolder with Some t => t | None => process_cwd end in
  let unpacked := fs_unpack (st_fs st) cwd (fst (tar_extract archBuffer)) in
  x = (name pkg, tempFolder)
  /\ exists v v1 v2,
       fs_readFile unpacked (manifestIn tempFolder) = Ok (JsonDoc v)
       /\ set_prop v "artifacthub" (artifacthubRecord pkg) = Ok v1
       /\ set_prop v1 "isManagedByHeadlampPlugin" (JBool true) = Ok v2
       /\ st_fs st' = <[manifestIn tempFolder := NFile (JsonDoc v2)]> unpacked.
Proof.
  intros E cwd unpacked. unfold da_extract in E. fold cwd in E.
  apply bind_run in E as [([] & sa & Ea & E)|(? & _ & ?)]; [| discriminate].
  apply (respects_checkCancelled same_fs) in Ea.
  apply bind_run in E as [([] & sb & Eb & E)|(? & _ & ?)]; [| discriminate].
  apply (respects_notify same_fs) in Eb.
  apply bind_run in E as [([] & sc & Ec & E)|(? & _ & ?)]; [| discriminate].
  assert (Hc : st_fs sc = unpacked).
  { unfold await, tarExtract in Ec. unfold_m. simpl in Ec.
    destruct (snd (tar_extract archBuffer)); inversion Ec; subst; simpl.
    unfold unpacked. unfold same_fs in *. congruence. }
  apply bind_run in E as [([] & sd & Ed & E)|(? & _ & ?)]; [| discriminate].
  apply (respects_checkCancelled same_fs) in Ed.
  apply bind_run in E as [([] & se & Ee & E)|(? & _ & ?)]; [| discriminate].
  apply (respects_notify same_fs) in Ee.
  assert (He : st_fs se = unpacked) by (unfold same_fs in *; congruence).
  apply bind_run in E as [(d & sf & Ef & E)|(? & _ & ?)]; [| discriminate].
  assert (Hf : fs_readFile unpacked (manifestIn tempFolder) = Ok d /\ st_fs sf = unpacked).
  { unfold readFileSync in Ef. unfold_m. simpl in Ef. rewrite He in Ef.
    destruct (fs_readFile unpacked (manifestIn tempFolder)); inversion Ef; subst.
    now split. }
  destruct Hf as [Hread Hf].
  apply bind_run in E as [(v & sg & Eg & E)|(? & _ & ?)]; [| discriminate].
  destruct d as [v0|t]; [| discriminate]. inversion Eg; subst v0 sg.
  apply bind_run in E as [(v1 & sh & Eh & E)|(? & _ & ?)]; [| discriminate].
  unfold lift in Eh. inversion Eh as [[E1 Es]]; subst sh.
  apply bind_run in E as [(v2 & si & Ei & E)|(? & _ & ?)]; [| discriminate].
  unfold lift in Ei. inversion Ei as [[E2 Es]]; subst si.
  apply bind_run in E as [([] & sj & Ej & E)|(? & _ & ?)]; [| discriminate].
  inversion E; subst x sj. split; [reflexivity |].
  exists v, v1, v2. repeat split; try assumption.
  unfold writeFileSync in Ej. unfold_m. simpl in Ej. rewrite Hf in Ej.
  unfold fs_writeFile in Ej.
  destruct (manifestIn tempFolder) as [|a m] eqn:Em;
    [destruct tempFolder as [[|? ?]|]; simpl in Em; discriminate |].
  destruct (is_dir unpacked (removelast (a :: m))); [| discriminate].
  destruct (unpacked !! (a :: m)) as [[|d']|]; inversion Ej; reflexivity.
Qed.

Lemma da_verify_run (archBuffer : list Byte.byte) (checksum : string)
    (st : State) (r : Result unit) (st' : State) :
  da_verify archBuffer checksum st = (r, st') ->
  st' = st /\ (r = Ok tt -> SHA256.sha256_hex archBuffer = checksum).
Proof.
  unfold da_verify.
  destruct (String.eqb_spec (SHA256.sha256_hex archBuffer) checksum) as [Heq|Hne];
    simpl; intros E; inversion E; subst; split; auto; discriminate.
Qed.

(** X13.  Whenever [downloadExtractArchive] returns, it returns the
    package's name and the manifest of the folder it returns has been
    rewritten: a manifest that is a JSON object now carries
    [isManagedByHeadlampPlugin: true] and the [artifacthub] record built from
    the package metadata.  (A manifest that is a JSON array is written back
    as it was.) *)
Theorem download_stamps_manifest (pkg : ArtifactHubHeadlampPkg) (hv : string)
    (cb : option ProgressCallback) (signal : option AbortSignal) (st : State)
    (n : string) (tempFolder : option Path) (st' : State) :
  downloadExtractArchive (Some pkg) hv cb signal st = (Ok (n, tempFolder), st') ->
  n = name pkg
  /\ exists v,
       st_fs st' !! manifestIn tempFolder = Some (NFile (JsonDoc v))
       /\ ((exists fields,
              v = JObj fields
              /\ assoc "isManagedByHeadlampPlugin" fields = Some (JBool true)
              /\ assoc "artifacthub" fields = Some (artifacthubRecord pkg))
           \/ exists items, v = JArr items).
Proof.
  intros E. unfold downloadExtractArchive in E.
  apply bind_run in E as [(v & sa & Ea & E)|(? & _ & ?)]; [| discriminate].
  apply da_validate_result in Ea. subst v. cbn [fst snd] in E.
  apply bind_run in E as [(d & sb & Eb & E)|(? & _ & ?)]; [| discriminate].
  apply bind_run in E as [([] & sc & Ec & E)|(? & _ & ?)]; [| discriminate].
  apply da_extract_run in E as (Ex & v & v1 & v2 & Hread & E1 & E2 & Hfs).
  inversion Ex; subst n tempFolder. split; [reflexivity |].
  exists v2. split; [rewrite Hfs; apply lookup_insert_eq |].
  destruct (set_prop_stamp v v1 v2 "artifacthub" "isManagedByHeadlampPlugin" _ _
              ltac:(discriminate) E1 E2)
    as [(fields & fields' & -> & -> & H1 & H2 & _)|(items & -> & ->)].
  - left. now exists fields'.
  - right. now exists items.
Qed.

End Extract.

Lemma download_stamps_manifest_witness :
  exists v,
    st_fs (snd (@downloadExtractArchive
                  (Sample.platform (Sample.demoPkg Sample.digestLower))
                  (Some (Sample.demoPkg Sample.digestLower)) "" None None
                  (Sample.start Sample.base)))
      !! ["tmp"; "headlamp-plugin-temp-k3x9Qa"; "demo"; "package.json"]
    = Some (NFile (JsonDoc v)).
Proof.
  destruct (@download_stamps_manifest
              (Sample.platform (Sample.demoPkg Sample.digestLower))
              (Sample.demoPkg Sample.digestLower) "" None None
              (Sample.start Sample.base) "demo"
              (Some ["tmp"; "headlamp-plugin-temp-k3x9Qa"; "demo"])
              (snd (@downloadExtractArchive
                      (Sample.platform (Sample.demoPkg Sample.digestLower))
                      (Some (Sample.demoPkg Sample.digestLower)) "" None None
                      (Sample.start Sample.base))))
    as (_ & v & Hv & _).
  - vm_compute. reflexivity.
  - exists v. exact Hv.
Defined.

(** ** What a download may touch *)

Section Confinement.
Context `{Platform}.

(** Every run of [downloadExtractArchive] on a closed file system, for a
    package whose name is an entry name. *)
Lemma downloadExtractArchive_run (pkg : ArtifactHubHeadlampPkg) (hv : string)
    (cb : option ProgressCallback) (signal : option AbortSignal)
    (st : State) (r : Result (string * option Path)) (st' : State) :
  closed_fs (st_fs st) ->
  valid_segment (name pkg) = true ->
  downloadExtractArchive (Some pkg) hv cb signal st = (r, st') ->
  let tempDir := tempDirOn (st_fs st) in
  let t := tempDir ++ [name pkg] in
  untouched_outside tempDir st st'
  /\ forall x, r = Ok x ->
       x = (name pkg, Some t)
       /\ st_fs st !! tempDir = None
       /\ exists archBuffer v v1 v2,
            SHA256.sha256_hex archBuffer = stripChecksumPrefix (archiveChecksum pkg)
            /\ fs_readFile
                 (fs_unpack (<[t := NDir]> (<[tempDir := NDir]> (st_fs st))) t
                            (fst (tar_extract archBuffer)))
                 (t ++ ["package.json"]) = Ok (JsonDoc v)
            /\ set_prop v "artifacthub" (artifacthubRecord pkg) = Ok v1
            /\ set_prop v1 "isManagedByHeadlampPlugin" (JBool true) = Ok v2
            /\ st_fs st'
               = <[t ++ ["package.json"] := NFile (JsonDoc v2)]>
                   (fs_unpack (<[t := NDir]> (<[tempDir := NDir]> (st_fs st))) t
                              (fst (tar_extract archBuffer))).
Proof.
  intros Hc Hseg E tempDir t. unfold downloadExtractArchive in E.
  apply bind_run in E as [(v & sa & Ea & E)|(e & Ea & ->)].
  2:{ apply da_validate_only_events in Ea as (Hfs & _).
      split; [intros k Hk; now rewrite Hfs | discriminate]. }
  pose proof (da_validate_only_events _ _ _ _ _ _ _ Ea) as (Hfsa & _).
  apply da_validate_result in Ea. subst v. cbn [fst snd] in E.
  apply bind_run in E as [([tf buf] & sb & Eb & E)|(e & Eb & ->)].
  2:{ apply da_download_run in Eb as [Hu _]; [| now rewrite Hfsa | exact Hseg].
      rewrite Hfsa in Hu. split; [| discriminate].
      intros k Hk. rewrite (Hu k Hk). now rewrite Hfsa. }
  apply da_download_run in Eb as [Hu Hok]; [| now rewrite Hfsa | exact Hseg].
  rewrite Hfsa in Hu, Hok. fold tempDir in Hu, Hok. fold t in Hok.
  destruct (Hok tf buf eq_refl) as (-> & Hfresh & Hfsb). cbn [fst snd] in E.
  assert (Hub : untouched_outside tempDir st sb)
    by (intros k Hk; rewrite (Hu k Hk); now rewrite Hfsa).
  apply bind_run in E as [([] & sc & Ec & E)|(e & Ec & ->)].
  2:{ apply da_verify_run in Ec as [-> _]. split; [exact Hub | discriminate]. }
  apply da_verify_run in Ec as [-> Hsum]. specialize (Hsum eq_refl).
  split.
  - eapply frame_trans; [exact Hub |].
    refine (respects_da_extract (untouched_outside tempDir) cb _ pkg (Some t) buf signal
              _ _ _ _ _ E).
    + intros m. apply respects_notify; frame.
    + apply tarExtract_confined.
    + intros d. unfold manifestIn, t. rewrite <- app_assoc.
      apply writeFileSync_confined.
  - intros x ->.
    apply da_extract_run in E as (Ex & v & v1 & v2 & Hread & E1 & E2 & Hfs).
    split; [exact Ex |]. split; [exact Hfresh |].
    exists buf, v, v1, v2. rewrite Hfsb in Hread, Hfs.
    split; [exact Hsum |]. split; [exact Hread |]. now repeat split.
Qed.

(** X14.  On a file system in which every entry lies in a directory, and
    for a package whose name is an entry name, [downloadExtractArchive]
    writes below its temporary directory only: whatever it returns or
    throws, every path outside [tmpdir/headlamp-plugin-temp-XXXXXX] is as it
    was.  When it returns, the folder it returns is the entry of that
    directory named after the package, and the directory was new. *)
Theorem download_confined_to_temp (pkg : ArtifactHubHeadlampPkg) (hv : string)
    (cb : option ProgressCallback) (signal : option AbortSignal) (st : State) :
  closed_fs (st_fs st) ->
  valid_segment (name pkg) = true ->
  let tempDir := tempDirOn (st_fs st) in
  let run := downloadExtractArchive (Some pkg) hv cb signal st in
  untouched_outside tempDir st (snd run)
  /\ forall x, fst run = Ok x ->
       x = (name pkg, Some (tempDir ++ [name pkg]))
       /\ st_fs st !! tempDir = None.
Proof.
  intros Hc Hseg tempDir run.
  destruct (downloadExtractArchive (Some pkg) hv cb signal st) as [r st'] eqn:E.
  destruct (downloadExtractArchive_run pkg hv cb signal st r st' Hc Hseg E) as [Hu Hok].
  split; [exact Hu |]. intros x Hx. simpl in Hx.
  destruct (Hok x Hx) as (? & ? & _). now split.
Qed.

(** X15.  If the download, the verification or the extraction fails,
    [installFromPluginPkg] reports that very error and the replacement step
    of [update] throws it, and neither does anything more: the destination
    folder has not been created, the installed plugin folder has not been
    removed, and every path outside the temporary directory is as it
    was. *)
Theorem failed_download_changes_temp_only (pkg : ArtifactHubHeadlampPkg)
    (pluginDir dest : Path) (hv : string)
    (cb : option ProgressCallback) (signal : option AbortSignal)
    (st : State) (e : JsError) (s1 : State) :
  closed_fs (st_fs st) ->
  valid_segment (name pkg) = true ->
  downloadExtractArchive (Some pkg) hv cb signal st = (Throw e, s1) ->
  let installed := PluginManager.installFromPluginPkg (Some pkg) dest hv cb signal st in
  let updated := PluginManager.update_replace pluginDir pkg dest hv cb signal st in
  installed = report cb e (tick s1)
  /\ updated = (Throw e, tick s1)
  /\ untouched_outside (tempDirOn (st_fs st)) st (snd installed)
  /\ untouched_outside (tempDirOn (st_fs st)) st (snd updated).
Proof.
  intros Hc Hseg E installed updated.
  destruct (downloadExtractArchive_run pkg hv cb signal st _ _ Hc Hseg E) as [Hu _].
  assert (Hi : installed = report cb e (tick s1))
    by (apply installFromPluginPkg_early; exact E).
  assert (Hup : updated = (Throw e, tick s1))
    by (apply update_replace_early; exact E).
  split; [exact Hi |]. split; [exact Hup |]. rewrite Hi, Hup. split.
  - destruct cb; exact Hu.
  - exact Hu.
Qed.

End Confinement.

(** ** Promotion: what [moveDirs] does to source and destination *)

Lemma fs_cp_merge (fs : FS) (src dst : Path) (fs' : FS) :
  fs_cp fs src dst = (fs', None) ->
  forall q, fs !! (src ++ q) = None -> fs' !! (dst ++ q) = fs !! (dst ++ q).
Proof.
  intros E q Hq. unfold fs_cp in E.
  destruct (node_at fs src) as [n|]; [| discriminate].
  destruct (decide (src = dst)); [discriminate |].
  assert (Hcont :
    (if strictly_below src dst then (fs, Some EINVAL)
     else match fs_mkdir_p fs (removelast dst) with
          | Throw e => (fs, Some e)
          | Ok (fs1, _) => fold_left (cp_step dst) (subtree fs src) (fs1, None)
          end) = (fs', None) ->
    fs' !! (dst ++ q) = fs !! (dst ++ q)).
  { clear E. intros E. destruct (strictly_below src dst); [discriminate |].
    destruct (fs_mkdir_p fs (removelast dst)) as [[fs1 o]|e] eqn:Em; [| discriminate].
    destruct (cp_fold_written _ _ _ _ E (dst ++ q)) as [([q' m] & Hin & Hk & _)|[_ Hv]].
    - simpl in Hk. apply app_inv_head in Hk. subst q'.
      apply subtree_spec in Hin. congruence.
    - rewrite Hv. unfold fs_mkdir_p in Em.
      destruct dst as [|x dst']; [simpl in Em; now inversion Em |].
      apply (mkdir_walk_lookup _ _ _ _ _ _ Em). intros t Ht. rewrite app_nil_l in Ht.
      pose proof (app_removelast_last x (l := x :: dst') ltac:(discriminate)) as Hl.
      rewrite Ht in Hl. apply (f_equal (@length _)) in Hl.
      rewrite !length_app in Hl. simpl length in Hl. lia. }
  destruct n as [|d]; destruct (node_at fs dst) as [[|d']|];
    try (now apply Hcont); discriminate.
Qed.

(** A move that returns: where every entry went. *)
Lemma moveDirs_ok `{Platform} (src dst : Path) (st st' : State) :
  strictly_below dst src = false ->
  moveDirs src dst st = (Ok tt, st') ->
  src <> []
  /\ (forall q q', src ++ q <> dst ++ q')
  /\ (forall q n, st_fs st !! (src ++ q) = Some n -> st_fs st' !! (dst ++ q) = Some n)
  /\ (forall q, st_fs st !! (src ++ q) = None ->
                st_fs st' !! (dst ++ q) = st_fs st !! (dst ++ q))
  /\ (forall q, st_fs st' !! (src ++ q) = None).
Proof.
  intros Hds E.
  destruct (fs_cp (st_fs st) src dst) as [fs1 oe] eqn:Ecp.
  destruct (fs_cp_spec _ _ _ _ _ Hds Ecp) as [Hsrc Hok].
  unfold moveDirs, try_catch, cpSync, rmSync in E. unfold_m. simpl in E.
  rewrite Ecp in E. simpl in E.
  destruct oe as [e|]; [discriminate |].
  destruct (Hok eq_refl) as (Hsome & Hdisj & Hcopy).
  simpl in E. unfold fs_rm in E.
  destruct (node_at fs1 src); [| discriminate].
  destruct (rm_stopped fs1 src) as [[e spared]|]; [discriminate |].
  simpl in E. inversion E; subst; simpl.
  assert (Hkeep : forall q, rm_tree src fs1 !! (dst ++ q) = fs1 !! (dst ++ q)).
  { intros q. rewrite rm_tree_lookup.
    assert (Hs : strip_prefix src (dst ++ q) = None).
    { apply strip_prefix_None. intros t Ht. now apply (Hdisj t q). }
    now rewrite Hs. }
  split.
  { intros ->. apply (Hdisj dst []). simpl. now rewrite app_nil_r. }
  split; [exact Hdisj |]. split; [| split].
  - intros q m Hq. rewrite Hkeep. now apply Hcopy.
  - intros q Hq. rewrite Hkeep. exact (fs_cp_merge _ _ _ _ Ecp q Hq).
  - intros q. now rewrite rm_tree_lookup, strip_prefix_app.
Qed.

Lemma moved_validity (fs fs' : FS) (src dst : Path) :
  src <> [] ->
  (forall q n, fs !! (src ++ q) = Some n -> fs' !! (dst ++ q) = Some n) ->
  folder_validity fs src = Ok true -> folder_validity fs' dst = Ok true.
Proof.
  intros Hne Hcopy Hv. apply folder_validity_true in Hv as (He & Hm & v & flag & Hp & Hf & Ht).
  apply folder_validity_true. split; [| split].
  - unfold fs_exists, node_at in *. destruct dst as [|x dst]; [reflexivity |].
    destruct src as [|y src]; [congruence |].
    destruct (fs !! (y :: src)) as [n|] eqn:En; [| discriminate].
    specialize (Hcopy [] n). rewrite !app_nil_r in Hcopy. now rewrite (Hcopy En).
  - unfold fs_exists in *. rewrite node_at_snoc in *.
    destruct (fs !! (src ++ ["main.js"])) as [n|] eqn:En; [| discriminate].
    now rewrite (Hcopy _ _ En).
  - exists v, flag. split; [| now split].
    unfold fs_readFile in *. rewrite node_at_snoc in *.
    destruct (fs !! (src ++ ["package.json"])) as [n|] eqn:En; [| discriminate].
    now rewrite (Hcopy _ _ En).
Qed.

(** X16.  [moveDirs] carries a valid plugin folder over: if the source
    passes [checkValidPluginFolder] and the move returns, the destination
    passes it and the source no longer does. *)
Theorem moveDirs_carries_validity `{Platform}
    (currentPath newPath : Path) (st st' : State) :
  strictly_below newPath currentPath = false ->
  fst (checkValidPluginFolder currentPath st) = Ok true ->
  moveDirs currentPath newPath st = (Ok tt, st') ->
  fst (checkValidPluginFolder newPath st') = Ok true
  /\ fst (checkValidPluginFolder currentPath st') = Ok false.
Proof.
  intros Hds Hv E. rewrite checkValidPluginFolder_validity in Hv.
  rewrite !checkValidPluginFolder_validity.
  destruct (moveDirs_ok _ _ _ _ Hds E) as (Hne & _ & Hcopy & _ & Hgone).
  split; [exact (moved_validity _ _ _ _ Hne Hcopy Hv) |].
  destruct currentPath as [|x p]; [congruence |].
  specialize (Hgone []). rewrite app_nil_r in Hgone.
  unfold folder_validity, fs_exists. cbn [node_at]. now rewrite Hgone.
Qed.

(** X17.  [moveDirs] merges into its destination: after a move that
    returned, each path below the destination holds what the source held at
    the same relative path, and where the source held nothing, what the
    destination held before.  Nothing of the destination is removed. *)
Theorem moveDirs_merges_into_destination `{Platform}
    (currentPath newPath : Path) (st st' : State) :
  strictly_below newPath currentPath = false ->
  moveDirs currentPath newPath st = (Ok tt, st') ->
  forall q,
    st_fs st' !! (newPath ++ q)
    = match st_fs st !! (currentPath ++ q) with
      | Some n => Some n
      | None => st_fs st !! (newPath ++ q)
      end.
Proof.
  intros Hds E q.
  destruct (moveDirs_ok _ _ _ _ Hds E) as (_ & _ & Hcopy & Hmerge & _).
  destruct (st_fs st !! (currentPath ++ q)) as [n|] eqn:En.
  - now apply Hcopy.
  - now apply Hmerge.
Qed.

(** ** From the archive to a valid plugin folder *)

Lemma await_run {A : Type} (m : M A) (st : State) (r : Result A) (st' : State) :
  await m st = (r, st') -> exists s, m st = (r, s) /\ st' = tick s.
Proof.
  unfold await. destruct (m st) as [r0 s]. intros E. inversion E; subst. now exists s.
Qed.

Lemma basename_segment (n : string) : valid_segment n = true -> basename n = n.
Proof.
  unfold valid_segment, basename. rewrite !andb_true_iff, !negb_true_iff.
  intros [[[H1 H2] H3] H4]. rewrite (segments_no_slash _ H4).
  rewrite filter_cons_True by (simpl; rewrite H1; exact I). reflexivity.
Qed.

Lemma ensureDir_run (d : Path) (st : State) (r : Result unit) (st' : State) :
  PluginManager.ensureDir d st = (r, st') ->
  forall k, (forall u, d <> k ++ u) -> st_fs st' !! k = st_fs st !! k.
Proof.
  intros E k Hk. unfold PluginManager.ensureDir in E.
  apply bind_run in E as [(e & sa & Ea & E)|(e & Ea & _)].
  2:{ now rewrite (respects_existsSync (fun _ => True) same_fs d I _ _ _ Ea). }
  rewrite <- (respects_existsSync (fun _ => True) same_fs d I _ _ _ Ea).
  destruct e; [now inversion E |].
  apply bind_run in E as [(o & sb & Eb & E)|(e & Eb & Er)].
  - inversion E; subst st'. rewrite mkdirSync_run in Eb.
    destruct (fs_mkdir_p (st_fs sa) d) as [[fs1 o']|e] eqn:Em; inversion Eb; subst; simpl.
    apply (mkdir_walk_lookup _ _ _ _ _ _ Em). exact Hk.
  - rewrite mkdirSync_run in Eb.
    destruct (fs_mkdir_p (st_fs sa) d) as [[fs1 o']|e'] eqn:Em; inversion Eb; subst.
    reflexivity.
Qed.

(** What unpacking leaves at a path below [cwd]: the archive's entry for it,
    or what was there. *)
Lemma fs_unpack_lookup (cwd : Path) (entries : list (Path * Node)) (fs : FS) (q : Path) :
  fs_unpack fs cwd entries !! (cwd ++ q)
  = match fs_unpack ∅ [] entries !! q with
    | Some n => Some n
    | None => fs !! (cwd ++ q)
    end.
Proof.
  unfold fs_unpack.
  assert (Hgen : forall (fs0 m0 : FS),
            fs0 !! (cwd ++ q)
            = match m0 !! q with Some n => Some n | None => fs !! (cwd ++ q) end ->
            fold_left (fun acc (e : Path * Node) => <[cwd ++ fst e := snd e]> acc)
                      entries fs0 !! (cwd ++ q)
            = match fold_left (fun acc (e : Path * Node) => <[[] ++ fst e := snd e]> acc)
                              entries m0 !! q with
              | Some n => Some n
              | None => fs !! (cwd ++ q)
              end).
  { induction entries as [|[q' n] es IH]; intros fs0 m0 H0; simpl; [exact H0 |].
    apply IH. destruct (decide (q' = q)) as [->|Hne].
    - now rewrite !lookup_insert_eq.
    - rewrite !lookup_insert_ne; [exact H0 | exact Hne |].
      intros Heq. now apply app_inv_head in Heq. }
  apply Hgen. now rewrite lookup_empty.
Qed.

Lemma validity_from_entries (fs : FS) (folder : Path) (fields : list (string * JSON))
    (flag : JSON) :
  folder <> [] ->
  is_Some (fs !! folder) ->
  is_Some (fs !! (folder ++ ["main.js"])) ->
  fs !! (folder ++ ["package.json"]) = Some (NFile (JsonDoc (JObj fields))) ->
  assoc "isManagedByHeadlampPlugin" fields = Some flag ->
  truthy (Some flag) = true ->
  folder_validity fs folder = Ok true.
Proof.
  intros Hne [n Hf] [m Hm] Hp Ha Ht. apply folder_validity_true.
  unfold fs_exists, fs_readFile. rewrite !node_at_snoc, Hm, Hp.
  destruct folder as [|x p]; [congruence |]. simpl node_at. rewrite Hf.
  split; [reflexivity |]. split; [reflexivity |].
  exists (JObj fields), (Some flag). simpl. now rewrite Ha.
Qed.

Lemma directories_complete (fs : FS) (folder : Path) (f : string) :
  fs !! (folder ++ [f]) = Some NDir -> In f (directories fs folder).
Proof.
  intros Hf. unfold directories, children.
  apply list_elem_of_In, list_elem_of_fmap. exists (f, true). split; [reflexivity |].
  apply list_elem_of_filter. split; [exact I |].
  apply list_elem_of_omap. exists (folder ++ [f], NDir).
  split; [now apply elem_of_map_to_list |].
  simpl. now rewrite strip_prefix_app.
Qed.

Section EndToEnd.
Context `{Platform}.

Lemma installFromPluginPkg_valid (pkg : ArtifactHubHeadlampPkg) (dest : Path)
    (hv : string) (signal : option AbortSignal) (st st' : State) :
  closed_fs (st_fs st) ->
  valid_segment (name pkg) = true ->
  archive_holds_plugin pkg ->
  strip_prefix (tempDirOn (st_fs st)) dest = None ->
  strip_prefix (dest ++ [name pkg]) (tempDirOn (st_fs st)) = None ->
  PluginManager.installFromPluginPkg (Some pkg) dest hv None signal st = (Ok tt, st') ->
  fst (checkValidPluginFolder (dest ++ [name pkg]) st') = Ok true
  /\ (exists fields,
        st_fs st' !! (dest ++ [name pkg; "package.json"])
        = Some (NFile (JsonDoc (JObj fields)))
        /\ assoc "isManagedByHeadlampPlugin" fields = Some (JBool true)
        /\ assoc "artifacthub" fields = Some (artifacthubRecord pkg))
  /\ (forall q, st_fs st' !! (tempDirOn (st_fs st) ++ name pkg :: q) = None)
  /\ st_fs st' !! (dest ++ [name pkg]) = Some NDir.
Proof.
  intros Hc Hseg Harch Hd1 Hd2 E.
  set (tempDir := tempDirOn (st_fs st)) in *.
  set (t := tempDir ++ [name pkg]).
  set (dst := dest ++ [name pkg]).
  unfold PluginManager.installFromPluginPkg in E.
  apply try_catch_run in E as [([] & E & _)|(e & s & _ & E)]; [| discriminate].
  apply bind_run in E as [(r & sa & Ea & E)|(? & _ & ?)]; [| discriminate].
  apply await_run in Ea as (s0 & Ea & ->).
  destruct (downloadExtractArchive_run pkg hv None signal st _ _ Hc Hseg Ea) as [_ Hok].
  destruct (Hok r eq_refl) as (-> & Hfresh & buf & v & v1 & v2 & Hsum & Hread & E1 & E2 & Hfs0).
  fold tempDir in Hfresh, Hread, Hfs0. fold t in Hread, Hfs0. cbn [fst snd] in E.
  rewrite (basename_segment _ Hseg), (path_join_segment _ _ Hseg) in E. fold dst in E.
  destruct (Harch buf Hsum) as (Hroot & Hmain & fields & Hpj).
  (* the extracted folder, in the state the download left *)
  set (base := <[t := NDir]> (<[tempDir := NDir]> (st_fs st))) in *.
  assert (Hv : v = JObj fields).
  { unfold fs_readFile in Hread. rewrite node_at_snoc, fs_unpack_lookup, Hpj in Hread.
    now inversion Hread. }
  subst v.
  destruct (set_prop_stamp _ v1 v2 "artifacthub" "isManagedByHeadlampPlugin" _ _
              ltac:(discriminate) E1 E2)
    as [(f0 & fields' & _ & -> & Hrec & Hflag & _)|(items & ? & _)]; [| discriminate].
  assert (Hne : forall x, t <> t ++ [x]).
  { intros x Heq. apply (f_equal (@length _)) in Heq. rewrite length_app in Heq.
    simpl in Heq. lia. }
  assert (L1 : st_fs s0 !! t = Some NDir).
  { rewrite Hfs0, lookup_insert_ne by (intros Heq; symmetry in Heq; now apply Hne in Heq).
    pose proof (fs_unpack_lookup t (fst (tar_extract buf)) base []) as Hl.
    rewrite !app_nil_r in Hl. rewrite Hl, Hroot.
    unfold base. apply lookup_insert_eq. }
  assert (L2 : is_Some (st_fs s0 !! (t ++ ["main.js"]))).
  { rewrite Hfs0, lookup_insert_ne
      by (intros Heq; apply app_inv_head in Heq; discriminate).
    rewrite fs_unpack_lookup. destruct Hmain as [m ->]. eauto. }
  assert (L3 : st_fs s0 !! (t ++ ["package.json"]) = Some (NFile (JsonDoc (JObj fields')))).
  { rewrite Hfs0. apply lookup_insert_eq. }
  (* the destination root is made *)
  apply bind_run in E as [([] & sb & Eb & E)|(? & _ & ?)]; [| discriminate].
  assert (Hkeep : forall q, st_fs sb !! (t ++ q) = st_fs s0 !! (t ++ q)).
  { intros q. rewrite (ensureDir_run _ _ _ _ Eb); [reflexivity |].
    intros u Hu. unfold t in Hu. rewrite <- !app_assoc in Hu.
    exact (strip_prefix_below _ _ _ Hd1 Hu). }
  (* the move *)
  apply bind_run in E as [([] & sc & Ec & E)|(? & _ & ?)]; [| discriminate].
  inversion E; subst sc. simpl in Ec.
  assert (Hds : strictly_below dst t = false).
  { destruct (strictly_below dst t) eqn:Hb; [| reflexivity].
    apply strictly_below_spec in Hb as (q & Hq & Ht). exfalso.
    destruct q as [|x q] using rev_ind; [congruence |]. clear IHq.
    unfold t in Ht. rewrite app_assoc in Ht. apply app_inj_tail in Ht as [Ht _].
    exact (strip_prefix_below _ _ _ Hd2 Ht). }
  destruct (moveDirs_ok _ _ _ _ Hds Ec) as (Htne & _ & Hcopy & _ & Hgone).
  assert (M1 : st_fs st' !! dst = Some NDir).
  { specialize (Hkeep []). rewrite !app_nil_r in Hkeep.
    rewrite <- Hkeep in L1. specialize (Hcopy [] NDir). rewrite !app_nil_r in Hcopy.
    exact (Hcopy L1). }
  assert (M2 : is_Some (st_fs st' !! (dst ++ ["main.js"]))).
  { destruct L2 as [n Hn]. rewrite <- Hkeep in Hn. rewrite (Hcopy _ _ Hn). eauto. }
  assert (M3 : st_fs st' !! (dst ++ ["package.json"])
               = Some (NFile (JsonDoc (JObj fields')))).
  { apply Hcopy. now rewrite Hkeep. }
  split; [| split; [| split; [| exact M1]]].
  - rewrite checkValidPluginFolder_validity.
    apply (validity_from_entries _ dst fields' (JBool true)); auto;
      first [rewrite M1; eauto | unfold dst; now destruct dest].
  - exists fields'. unfold dst in M3. rewrite <- app_assoc in M3. now repeat split.
  - intros q. specialize (Hgone q). unfold t in Hgone.
    now rewrite <- app_assoc in Hgone.
Qed.

(** X18.  Installing, end to end.  If the archive with the declared digest
    holds [main.js] and a manifest that is a JSON object, and neither the
    temporary directory nor the destination lies inside the other, then once
    [installFromPluginPkg] has returned, the folder named after the package
    in the destination passes [checkValidPluginFolder], its manifest is
    stamped as managed with the [artifacthub] record of the package, and the
    temporary folder is gone. *)
Theorem install_yields_valid_plugin (pkg : ArtifactHubHeadlampPkg) (dest : Path)
    (hv : string) (signal : option AbortSignal) (st st' : State) :
  closed_fs (st_fs st) ->
  valid_segment (name pkg) = true ->
  archive_holds_plugin pkg ->
  strip_prefix (tempDirOn (st_fs st)) dest = None ->
  strip_prefix (dest ++ [name pkg]) (tempDirOn (st_fs st)) = None ->
  PluginManager.installFromPluginPkg (Some pkg) dest hv None signal st = (Ok tt, st') ->
  fst (checkValidPluginFolder (dest ++ [name pkg]) st') = Ok true
  /\ (exists fields,
        st_fs st' !! (dest ++ [name pkg; "package.json"])
        = Some (NFile (JsonDoc (JObj fields)))
        /\ assoc "isManagedByHeadlampPlugin" fields = Some (JBool true)
        /\ assoc "artifacthub" fields = Some (artifacthubRecord pkg))
  /\ (forall q, st_fs st' !! (tempDirOn (st_fs st) ++ name pkg :: q) = None).
Proof.
  intros Hc Hseg Harch Hd1 Hd2 E.
  destruct (installFromPluginPkg_valid pkg dest hv signal st st' Hc Hseg Harch Hd1 Hd2 E)
    as (H1 & H2 & H3 & _).
  now repeat split.
Qed.

(** X19.  [install] from the registry, end to end: under the conditions of
    X18 on the package the registry answered with, once [install] has
    returned the new folder passes [checkValidPluginFolder], and any listing
    of the destination holds an entry for it. *)
Theorem install_from_registry_is_listed (URL : string) (pkg : ArtifactHubHeadlampPkg)
    (dest : Path) (hv : string) (signal : option AbortSignal) (st s1 st' : State) :
  fetchPluginInfo (Some (JStr URL)) None signal st = (Ok pkg, s1) ->
  closed_fs (st_fs st) ->
  valid_segment (name pkg) = true ->
  archive_holds_plugin pkg ->
  strip_prefix (tempDirOn (st_fs st)) dest = None ->
  strip_prefix (dest ++ [name pkg]) (tempDirOn (st_fs st)) = None ->
  PluginManager.install URL dest hv None signal st = (Ok tt, st') ->
  fst (checkValidPluginFolder (dest ++ [name pkg]) st') = Ok true
  /\ forall l s2,
       PluginManager.list dest None st' = (Ok (Some l), s2) ->
       In (name pkg) (map folderName l).
Proof.
  intros Ef Hc Hseg Harch Hd1 Hd2 E.
  rewrite (install_after_fetch _ _ _ _ _ _ _ _ Ef) in E.
  assert (Hfs : st_fs (tick s1) = st_fs st).
  { exact (respects_fetchPluginInfo (fun _ => True) same_fs _ None signal
             (fun _ _ => I) _ _ _ Ef). }
  destruct (installFromPluginPkg_valid pkg dest hv signal (tick s1) st')
    as (Hv & _ & _ & Hdir); rewrite ?Hfs; try assumption.
  split; [exact Hv |].
  intros l s2 El. apply list_spec in El. rewrite El.
  apply list_elem_of_In, list_elem_of_filter. split.
  - unfold is_valid. rewrite (path_join_segment _ _ Hseg).
    rewrite <- checkValidPluginFolder_validity, Hv. exact I.
  - apply list_elem_of_In. now apply directories_complete.
Qed.

End EndToEnd.

(** ** Updating replaces the folder *)

Lemma rmdirSync_ok (p : Path) (st st' : State) :
  rmdirSync p st = (Ok tt, st') -> st_fs st' = rm_tree p (st_fs st).
Proof.
  unfold rmdirSync. unfold_m. simpl. unfold fs_rmdir.
  destruct (node_at (st_fs st) p) as [[|d]|]; simpl; intros E; now inversion E.
Qed.

Lemma mkdir_walk_made (rest : list string) :
  forall (fs : FS) (pre : Path) (first : option Path) (fs1 : FS) (o : option Path),
    rest <> [] ->
    mkdir_walk fs pre rest first = Ok (fs1, o) -> fs1 !! (pre ++ rest) = Some NDir.
Proof.
  induction rest as [|seg rest IH]; intros fs pre first fs1 o Hne E; [congruence |].
  simpl in E. destruct rest as [|seg' rest'].
  - destruct (fs !! (pre ++ [seg])) as [[|d]|] eqn:En; simpl in E; inversion E; subst.
    + exact En.
    + apply lookup_insert_eq.
  - replace (pre ++ seg :: seg' :: rest') with ((pre ++ [seg]) ++ seg' :: rest')
      by (now rewrite <- app_assoc).
    destruct (fs !! (pre ++ [seg])) as [[|d]|]; try discriminate;
      exact (IH _ _ _ _ _ ltac:(discriminate) E).
Qed.

(** The replacement step of [update] when it returns: lines 219-231. *)
Lemma update_replace_ok `{Platform} (pluginDir : Path)
    (pkg : ArtifactHubHeadlampPkg) (dest : Path) (hv : string)
    (cb : option ProgressCallback) (signal : option AbortSignal)
    (st : State) (n : string) (t : Path) (s1 st' : State) :
  downloadExtractArchive (Some pkg) hv cb signal st = (Ok (n, Some t), s1) ->
  PluginManager.update_replace pluginDir pkg dest hv cb signal st = (Ok tt, st') ->
  t <> pluginDir ->
  strictly_below t pluginDir = false ->
  strictly_below pluginDir t = false ->
  strip_prefix t dest = None ->
  pluginDir <> []
  /\ is_Some (st_fs st' !! pluginDir)
  /\ (forall q m, st_fs s1 !! (t ++ q) = Some m -> st_fs st' !! (pluginDir ++ q) = Some m)
  /\ (forall q, q <> [] -> st_fs st' !! (pluginDir ++ q) = st_fs s1 !! (t ++ q)).
Proof.
  intros Edea E Hne Htp Hpt Hd.
  pose proof (unrelated_paths t pluginDir Hne Htp Hpt) as Hdisj.
  assert (Hp : pluginDir <> []).
  { intros ->. apply (Hdisj [] t). now rewrite app_nil_r. }
  unfold PluginManager.update_replace in E.
  apply bind_run in E as [(r & sa & Ea & E)|(? & _ & ?)]; [| discriminate].
  apply await_run in Ea as (s0 & Ea & ->). rewrite Edea in Ea.
  inversion Ea; subst r s0. cbn [fst snd] in E.
  apply bind_run in E as [([] & sb & Eb & E)|(? & _ & ?)]; [| discriminate].
  assert (Hb : forall u, st_fs sb !! (t ++ u) = st_fs s1 !! (t ++ u)).
  { intros u. rewrite (ensureDir_run _ _ _ _ Eb); [reflexivity |].
    intros w Hw. rewrite <- app_assoc in Hw. exact (strip_prefix_below _ _ _ Hd Hw). }
  apply bind_run in E as [([] & sc & Ec & E)|(? & _ & ?)]; [| discriminate].
  apply rmdirSync_ok in Ec.
  apply bind_run in E as [(o & sd & Ed & E)|(? & _ & ?)]; [| discriminate].
  rewrite mkdirSync_run in Ed.
  destruct (fs_mkdir_p (st_fs sc) pluginDir) as [[fs1 o']|e] eqn:Em; [| discriminate].
  inversion Ed; subst o sd; clear Ed. cbn [fst snd] in E.
  apply bind_run in E as [([] & se & Ee & E)|(? & _ & ?)]; [| discriminate].
  simpl in Ee.
  assert (Hfs' : st_fs st' = st_fs se).
  { destruct cb; inversion E; reflexivity. }
  destruct (moveDirs_ok _ _ _ _ Hpt Ee) as (_ & _ & Hcopy & Hmerge & _).
  simpl in Hcopy, Hmerge.
  assert (Hsrc : forall u, fs1 !! (t ++ u) = st_fs s1 !! (t ++ u)).
  { intros u. unfold fs_mkdir_p in Em.
    rewrite (mkdir_walk_lookup _ _ _ _ _ _ Em).
    - rewrite Ec, rm_tree_lookup.
      assert (Hs : strip_prefix pluginDir (t ++ u) = None).
      { apply strip_prefix_None. intros w Hw. now apply (Hdisj u w). }
      rewrite Hs. apply Hb.
    - intros w Hw. simpl in Hw. rewrite <- app_assoc in Hw.
      apply (Hdisj (u ++ w) []). now rewrite app_nil_r. }
  assert (Hdst : forall q, q <> [] -> fs1 !! (pluginDir ++ q) = None).
  { intros q Hq. unfold fs_mkdir_p in Em.
    rewrite (mkdir_walk_lookup _ _ _ _ _ _ Em).
    - rewrite Ec, rm_tree_lookup. now rewrite strip_prefix_app.
    - intros w Hw. simpl in Hw. apply (f_equal (@length _)) in Hw.
      rewrite !length_app in Hw. destruct q; [congruence | simpl in Hw; lia]. }
  assert (Hall : forall q m, st_fs s1 !! (t ++ q) = Some m ->
                             st_fs st' !! (pluginDir ++ q) = Some m).
  { intros q m Hq. rewrite Hfs'. apply Hcopy. now rewrite Hsrc. }
  split; [exact Hp |]. split; [| split; [exact Hall |]].
  - destruct (st_fs s1 !! t) as [m|] eqn:Et.
    + specialize (Hall [] m). rewrite !app_nil_r in Hall. rewrite (Hall Et). eauto.
    + specialize (Hmerge []). rewrite !app_nil_r in Hmerge.
      rewrite Hfs', Hmerge by (now rewrite <- (app_nil_r t), Hsrc, app_nil_r).
      unfold fs_mkdir_p in Em.
      pose proof (mkdir_walk_made _ _ _ _ _ _ Hp Em) as Hm. simpl in Hm.
      rewrite Hm. eauto.
  - intros q Hq. destruct (st_fs s1 !! (t ++ q)) as [m|] eqn:Et.
    + now apply Hall.
    + rewrite Hfs', Hmerge by (now rewrite Hsrc). now apply Hdst.
Qed.

(** X20.  [update] replaces, it does not merge: once the replacement step
    has returned, each path strictly below the plugin folder holds what the
    extracted folder held at the same relative path, and nothing where that
    folder held nothing.  No file of the previous version survives. *)
Theorem update_replaces_folder_content `{Platform} (pluginDir : Path)
    (pkg : ArtifactHubHeadlampPkg) (dest : Path) (hv : string)
    (cb : option ProgressCallback) (signal : option AbortSignal)
    (st : State) (n : string) (t : Path) (s1 st' : State) :
  downloadExtractArchive (Some pkg) hv cb signal st = (Ok (n, Some t), s1) ->
  PluginManager.update_replace pluginDir pkg dest hv cb signal st = (Ok tt, st') ->
  t <> pluginDir ->
  strictly_below t pluginDir = false ->
  strictly_below pluginDir t = false ->
  strip_prefix t dest = None ->
  forall q, q <> [] -> st_fs st' !! (pluginDir ++ q) = st_fs s1 !! (t ++ q).
Proof.
  intros Edea E Hne Htp Hpt Hd.
  destruct (update_replace_ok pluginDir pkg dest hv cb signal st n t s1 st'
              Edea E Hne Htp Hpt Hd) as (_ & _ & _ & Hq).
  exact Hq.
Qed.

(** X21.  [update] leaves a valid plugin folder: if the folder that
    [downloadExtractArchive] returned passes [checkValidPluginFolder], then
    once the replacement step has returned the plugin folder passes it
    too. *)
Theorem update_keeps_plugin_valid `{Platform} (pluginDir : Path)
    (pkg : ArtifactHubHeadlampPkg) (dest : Path) (hv : string)
    (cb : option ProgressCallback) (signal : option AbortSignal)
    (st : State) (n : string) (t : Path) (s1 st' : State) :
  downloadExtractArchive (Some pkg) hv cb signal st = (Ok (n, Some t), s1) ->
  PluginManager.update_replace pluginDir pkg dest hv cb signal st = (Ok tt, st') ->
  t <> pluginDir ->
  strictly_below t pluginDir = false ->
  strictly_below pluginDir t = false ->
  strip_prefix t dest = None ->
  fst (checkValidPluginFolder t s1) = Ok true ->
  fst (checkValidPluginFolder pluginDir st') = Ok true.
Proof.
  intros Edea E Hne Htp Hpt Hd Hv.
  destruct (update_replace_ok pluginDir pkg dest hv cb signal st n t s1 st'
              Edea E Hne Htp Hpt Hd) as (Hp & _ & Hall & _).
  rewrite checkValidPluginFolder_validity in *.
  assert (Ht : t <> []).
  { intros ->. simpl in Hd. discriminate. }
  exact (moved_validity _ _ _ _ Ht Hall Hv).
Qed.

(** ** The checks on the metadata *)

Section Metadata.
Context `{Platform}.

Lemma validateArchiveURL_nonempty (url : string) :
  validateArchiveURL url = true -> is_empty url = false.
Proof.
  intros Hv. unfold is_empty. destruct (String.eqb_spec url "") as [->|]; [| reflexivity].
  vm_compute in Hv. discriminate.
Qed.

(** X22.  Given a Headlamp version that [semver.satisfies] rejects for the
    package's compatibility range, [downloadExtractArchive] throws 'Headlamp
    version is not compatible with the plugin' before anything is created or
    requested; the callback, if any, has been told of the check and of
    nothing else. *)
Theorem incompatible_version_stops_download (pkg : ArtifactHubHeadlampPkg) (hv : string)
    (cb : option ProgressCallback) (signal : option AbortSignal) (st : State) :
  fired_at signal (st_clock st) = false ->
  validatePluginName (name pkg) = true ->
  validateArchiveURL (archiveURL pkg) = true ->
  archiveChecksum pkg <> "" ->
  hv <> "" ->
  semver_satisfies hv (versionCompat pkg) = false ->
  let run := downloadExtractArchive (Some pkg) hv cb signal st in
  fst run = Throw (Error "Headlamp version is not compatible with the plugin")
  /\ st_fs (snd run) = st_fs st
  /\ st_actions (snd run) = st_actions st
  /\ st_events (snd run)
     = st_events st
       ++ match cb with
          | Some _ => [info "Checking compatibility with Headlamp version"]
          | None => []
          end.
Proof.
  intros Hf Hn Hu Hc Hhv Hs run.
  assert (Hrun : run = (Throw (Error "Headlamp version is not compatible with the plugin"),
                        snd (notify cb (info "Checking compatibility with Headlamp version") st))).
  { unfold run. apply downloadExtractArchive_early.
    unfold da_validate, checkCancelled. unfold_m.
    rewrite Hf, Hn, Hu, (validateArchiveURL_nonempty _ Hu). simpl.
    apply String.eqb_neq in Hc, Hhv. unfold is_empty. rewrite Hc, Hhv. simpl.
    destruct cb; simpl; now rewrite Hs. }
  rewrite Hrun. destruct cb; simpl; rewrite ?app_nil_r; auto.
Qed.

Lemma bind_eq {A B : Type} (m : M A) (k : A -> M B) (st : State) :
  (m ≫= k) st
  = match m st with
    | (Ok a, s) => k a s
    | (Throw e, s) => (Throw e, s)
    end.
Proof. reflexivity. Qed.

Lemma da_validate_fields (pkg1 pkg2 : ArtifactHubHeadlampPkg) (hv : string)
    (cb : option ProgressCallback) (signal : option AbortSignal) (st : State) :
  name pkg1 = name pkg2 ->
  archiveURL pkg1 = archiveURL pkg2 ->
  archiveChecksum pkg1 = archiveChecksum pkg2 ->
  hv = "" \/ versionCompat pkg1 = versionCompat pkg2 ->
  da_validate (Some pkg1) hv cb signal st
  = match da_validate (Some pkg2) hv cb signal st with
    | (Ok v, s) => (Ok (pkg1, snd v), s)
    | (Throw e, s) => (Throw e, s)
    end.
Proof.
  intros Hn Hu Hc Hv. unfold da_validate. unfold mbind, M_bind, mret, M_ret.
  destruct (checkCancelled signal st) as [[[]|e] s0]; [| reflexivity].
  rewrite Hn, Hu, Hc.
  destruct (negb (validatePluginName (name pkg2))); [reflexivity |].
  destruct (negb (validateArchiveURL (archiveURL pkg2))); [reflexivity |].
  destruct (is_empty (archiveURL pkg2) || is_empty (archiveChecksum pkg2));
    [reflexivity |].
  destruct Hv as [-> | Hv].
  - change (negb (is_empty "")) with false. cbv beta iota.
    destruct (checkCancelled signal s0) as [[[]|e] s2]; reflexivity.
  - rewrite Hv. destruct (negb (is_empty hv)); cbv beta iota.
    + destruct (notify cb (info "Checking compatibility with Headlamp version") s0)
        as [[[]|e] s1]; [| reflexivity].
      destruct (semver_satisfies hv (versionCompat pkg2)).
      * destruct (notify cb (info "Headlamp version is compatible") s1)
          as [[[]|e] s2]; [| reflexivity].
        destruct (checkCancelled signal s2) as [[[]|e] s3]; reflexivity.
      * reflexivity.
    + destruct (checkCancelled signal s0) as [[[]|e] s2]; reflexivity.
Qed.

Lemma downloadExtractArchive_fields (pkg1 pkg2 : ArtifactHubHeadlampPkg) (hv : string)
    (cb : option ProgressCallback) (signal : option AbortSignal) (st : State) :
  name pkg1 = name pkg2 ->
  display_name pkg1 = display_name pkg2 ->
  repository pkg1 = repository pkg2 ->
  version pkg1 = version pkg2 ->
  archiveURL pkg1 = archiveURL pkg2 ->
  archiveChecksum pkg1 = archiveChecksum pkg2 ->
  hv = "" \/ versionCompat pkg1 = versionCompat pkg2 ->
  downloadExtractArchive (Some pkg1) hv cb signal st
  = downloadExtractArchive (Some pkg2) hv cb signal st.
Proof.
  intros Hn Hd Hr Hv Hu Hc Hvc. unfold downloadExtractArchive.
  rewrite (bind_eq (da_validate (Some pkg1) hv cb signal)),
    (bind_eq (da_validate (Some pkg2) hv cb signal)).
  rewrite (da_validate_fields pkg1 pkg2 hv cb signal st Hn Hu Hc Hvc).
  destruct (da_validate (Some pkg2) hv cb signal st) as [[v|e] s] eqn:Ev; [| reflexivity].
  apply da_validate_result in Ev. subst v. cbn [fst snd].
  unfold da_download, da_extract, artifacthubRecord.
  now rewrite Hn, Hd, Hr, Hv, Hu.
Qed.

(** X23.  [downloadExtractArchive] never consults the [distroCompat] of the
    package, and consults its [versionCompat] only when it is given a
    Headlamp version: two packages that differ in those fields only are
    treated alike. *)
Theorem distro_compat_never_consulted (n d : string) (r : Repository) (v u c : string)
    (dc1 dc2 vc1 vc2 : string) (hv : string)
    (cb : option ProgressCallback) (signal : option AbortSignal) (st : State) :
  downloadExtractArchive (Some (mkPkg n d r v u c dc1 vc1)) hv cb signal st
  = downloadExtractArchive (Some (mkPkg n d r v u c dc2 vc1)) hv cb signal st
  /\ downloadExtractArchive (Some (mkPkg n d r v u c dc1 vc1)) "" cb signal st
     = downloadExtractArchive (Some (mkPkg n d r v u c dc2 vc2)) "" cb signal st.
Proof.
  split; apply downloadExtractArchive_fields; auto.
Qed.

(** X24.  A package whose name and archive URL pass validation but whose
    checksum is empty is refused with 'Invalid plugin metadata. Please check
    the plugin details.' before anything is created or requested.  An empty
    archive URL never gets that far: it is refused as an invalid archive
    URL. *)
Theorem metadata_presence_checks (pkg : ArtifactHubHeadlampPkg) (hv : string)
    (cb : option ProgressCallback) (signal : option AbortSignal) (st : State) :
  fired_at signal (st_clock st) = false ->
  validatePluginName (name pkg) = true ->
  (validateArchiveURL (archiveURL pkg) = true -> archiveChecksum pkg = "" ->
   downloadExtractArchive (Some pkg) hv cb signal st
   = (Throw (Error "Invalid plugin metadata. Please check the plugin details."), st))
  /\ (archiveURL pkg = "" ->
      downloadExtractArchive (Some pkg) hv cb signal st
      = (Throw (Error "Invalid plugin/archive-url:"), st)).
Proof.
  intros Hf Hn. split.
  - intros Hu Hc. apply downloadExtractArchive_early.
    unfold da_validate, checkCancelled. unfold_m.
    rewrite Hf, Hn, Hu, Hc. simpl. now rewrite orb_true_r.
  - intros Hu. apply downloadExtractArchive_early.
    rewrite (da_validate_bad_url pkg hv cb signal st Hf Hn);
      rewrite Hu; reflexivity.
Qed.

End Metadata.

(** ** What a failed download leaves behind *)

#[global] Instance kept_frame (k : Path) : Frame (kept k).
Proof. split; unfold kept; auto. Qed.
#[global] Instance kept_act (k : Path) : ActFrame (fun _ => True) (kept k).
Proof. intros st a _ Hk. exact Hk. Qed.
#[global] Instance kept_event (k : Path) : EventFrame (kept k).
Proof. intros st a Hk. exact Hk. Qed.
#[global] Instance kept_tick (k : Path) : TickFrame (kept k).
Proof. intros st Hk. exact Hk. Qed.

Section Leftovers.
Context `{Platform}.

Lemma tarExtract_kept (k cwd : Path) (archBuffer : list Byte.byte) :
  respects (kept k) (tarExtract archBuffer cwd).
Proof.
  intros st r st' E Hk. unfold tarExtract in E. unfold_m. simpl in E.
  assert (Hfs : st_fs st' = fs_unpack (st_fs st) cwd (fst (tar_extract archBuffer)))
    by (destruct (snd (tar_extract archBuffer)); now inversion E).
  rewrite Hfs. now apply fs_unpack_Some.
Qed.

Lemma writeFileSync_kept (k p : Path) (d : FileData) :
  respects (kept k) (writeFileSync p d).
Proof.
  intros st r st' E Hk. unfold writeFileSync in E. unfold_m. simpl in E.
  unfold fs_writeFile in E.
  destruct p as [|x t]; [now inversion E |].
  destruct (is_dir (st_fs st) (removelast (x :: t))); [| now inversion E].
  assert (Hins : forall n, is_Some ((<[x :: t := n]> (st_fs st)) !! k)).
  { intros n. destruct (decide (x :: t = k)) as [<-|Hne].
    - rewrite lookup_insert_eq. eauto.
    - now rewrite lookup_insert_ne. }
  destruct (st_fs st !! (x :: t)) as [[|d']|]; inversion E; subst; simpl;
    first [apply Hins | exact Hk].
Qed.

(** Once the temporary directory could be made, [da_download] leaves it
    and the folder made in it, whatever follows. *)
Lemma da_download_made (pkg : ArtifactHubHeadlampPkg) (cb : option ProgressCallback)
    (signal : option AbortSignal) (st : State)
    (r : Result (option Path * list Byte.byte)) (st' : State) :
  closed_fs (st_fs st) ->
  valid_segment (name pkg) = true ->
  is_dir (st_fs st) os_tmpdir = true ->
  st_fs st !! tempDirOn (st_fs st) = None ->
  da_download pkg cb signal st = (r, st') ->
  st_fs st' = <[tempDirOn (st_fs st) ++ [name pkg] := NDir]>
                (<[tempDirOn (st_fs st) := NDir]> (st_fs st)).
Proof.
  intros Hc Hseg Hd Hfresh E. unfold da_download in E.
  unfold mbind at 1 in E. unfold M_bind at 1 in E. unfold await at 1 in E.
  rewrite mkdtempSync_run in E. unfold fs_mkdtemp in E. fold (tempDirOn (st_fs st)) in E.
  set (tempDir := tempDirOn (st_fs st)) in *.
  rewrite Hd, Hfresh in E. cbn [fst snd] in E.
  rewrite (path_join_segment _ _ Hseg) in E.
  unfold mbind at 1 in E. unfold M_bind at 1 in E.
  rewrite mkdirSync_run in E. unfold tick in E. cbn [st_fs st_clock st_events st_actions] in E.
  assert (Hne : tempDir <> []) by (unfold tempDir, tempDirOn; now destruct os_tmpdir).
  rewrite (fs_mkdir_p_child (<[tempDir := NDir]> (st_fs st)) tempDir (name pkg)) in E.
  2:{ unfold tempDir, tempDirOn. now apply closed_insert_dir. }
  2:{ exact Hne. }
  2:{ apply lookup_insert_eq. }
  2:{ rewrite lookup_insert_ne by (intros Heq; apply (f_equal (@length _)) in Heq;
                                    rewrite length_app in Heq; simpl in Heq; lia).
      now apply closed_fresh. }
  cbn [fst snd] in E.
  assert (Hfs : same_fs _ st')
    by (refine (respects_download_tail same_fs cb _ _ _ _ _ _ _ E);
        intros m; apply respects_notify; frame).
  exact Hfs.
Qed.

(** X25.  No failure is cleaned up after.  Once the metadata has passed its
    checks and the temporary directory could be made, that directory and the
    folder made in it are still there when [downloadExtractArchive] ends,
    however it ends: a failed or empty download, a checksum mismatch, a
    cancellation and a failed extraction all leave them behind. *)
Theorem failed_download_leaves_temp_folder (pkg : ArtifactHubHeadlampPkg) (hv : string)
    (cb : option ProgressCallback) (signal : option AbortSignal)
    (st : State) (v : ArtifactHubHeadlampPkg * string) (st1 : State) :
  closed_fs (st_fs st) ->
  valid_segment (name pkg) = true ->
  da_validate (Some pkg) hv cb signal st = (Ok v, st1) ->
  is_dir (st_fs st) os_tmpdir = true ->
  st_fs st !! tempDirOn (st_fs st) = None ->
  let run := downloadExtractArchive (Some pkg) hv cb signal st in
  st_fs (snd run) !! tempDirOn (st_fs st) = Some NDir
  /\ is_Some (st_fs (snd run) !! (tempDirOn (st_fs st) ++ [name pkg])).
Proof.
  intros Hc Hseg Ev Hd Hfresh run.
  pose proof (da_validate_only_events _ _ _ _ _ _ _ Ev) as (Hfs1 & _).
  pose proof (da_validate_result _ _ _ _ _ _ _ Ev) as ->.
  set (tempDir := tempDirOn (st_fs st)) in *.
  set (t := tempDir ++ [name pkg]).
  assert (Hlen : tempDir <> t).
  { intros Heq. apply (f_equal (@length _)) in Heq. unfold t in Heq.
    rewrite length_app in Heq. simpl in Heq. lia. }
  assert (Hmade : forall fs2,
            fs2 = <[t := NDir]> (<[tempDir := NDir]> (st_fs st)) ->
            fs2 !! tempDir = Some NDir /\ is_Some (fs2 !! t)).
  { intros fs2 ->. split.
    - rewrite lookup_insert_ne by congruence. apply lookup_insert_eq.
    - rewrite lookup_insert_eq. eauto. }
  unfold run, downloadExtractArchive.
  rewrite (bind_eq (da_validate (Some pkg) hv cb signal)), Ev. cbn [fst snd].
  rewrite (bind_eq (da_download pkg cb signal)).
  destruct (da_download pkg cb signal st1) as [[[tf buf]|e] st2] eqn:Ed.
  2:{ apply da_download_made in Ed;
        [rewrite Hfs1 in Ed | now rewrite Hfs1 | exact Hseg
         | now rewrite Hfs1 | now rewrite Hfs1].
      apply Hmade. exact Ed. }
  pose proof Ed as Ed'.
  apply da_download_made in Ed';
    [rewrite Hfs1 in Ed' | now rewrite Hfs1 | exact Hseg
     | now rewrite Hfs1 | now rewrite Hfs1].
  apply da_download_run in Ed as [_ Hok]; [| now rewrite Hfs1 | exact Hseg].
  rewrite Hfs1 in Hok. fold tempDir in Hok. fold t in Hok.
  destruct (Hok tf buf eq_refl) as (-> & _ & _). cbn [fst snd].
  destruct (Hmade _ Ed') as [H1 H2].
  rewrite (bind_eq (da_verify buf _)).
  destruct (da_verify buf (stripChecksumPrefix (archiveChecksum pkg)) st2)
    as [[[]|e] s3] eqn:Ec;
    apply da_verify_run in Ec as [-> _]; [| now split].
  destruct (da_extract pkg (Some t) buf cb signal st2) as [r st'] eqn:Ee. simpl.
  split.
  - rewrite <- H1.
    refine (respects_da_extract (untouched_outside t) cb _ pkg (Some t) buf signal
              _ _ _ _ _ Ee tempDir _).
    + intros m. apply respects_notify; frame.
    + rewrite <- (app_nil_r t) at 2. apply tarExtract_confined.
    + intros d. apply writeFileSync_confined.
    + apply strip_prefix_None. intros q Hq. apply (f_equal (@length _)) in Hq.
      unfold t in Hq. rewrite !length_app in Hq. simpl in Hq. lia.
  - refine (respects_da_extract (kept t) cb _ pkg (Some t) buf signal
              _ _ _ _ _ Ee H2).
    + intros m. apply respects_notify; frame.
    + apply tarExtract_kept.
    + intros d. apply writeFileSync_kept.
Qed.

End Leftovers.

(** ** Reading the body *)

(** X26.  Reading the body (lines 482-485): the loop gives the chunks in the
    order the stream yielded them, after what had been collected, or throws
    the error that ended the stream; one instant passes for each chunk and
    one for the end, and nothing else changes. *)
Theorem read_chunks_collects_in_order (cs : list (list Byte.byte))
    (end_error : option JsError) (archChunks : list (list Byte.byte)) (st : State) :
  read_chunks cs end_error archChunks st
  = (match end_error with
     | Some e => Throw e
     | None => Ok (archChunks ++ cs)
     end,
     mkState (st_fs st) (st_clock st + S (length cs)) (st_events st) (st_actions st)).
Proof.
  revert archChunks st. induction cs as [|c cs IH]; intros acc st; simpl.
  - unfold await. rewrite app_nil_r, Nat.add_1_r.
    destruct end_error; reflexivity.
  - unfold mbind, M_bind, await, mret, M_ret. rewrite IH. simpl.
    rewrite <- app_assoc. simpl. f_equal. f_equal. lia.
Qed.

(** ** The shape of a digest *)

Module SHA256Facts.
Import SHA256.

Lemma round_length (st : list N) (kw : N * N) :
  length st = 8%nat -> length (round st kw) = 8%nat.
Proof.
  intros Hl. do 9 (destruct st as [|? st]; try discriminate). reflexivity.
Qed.

Lemma rounds_length (l : list (N * N)) :
  forall st, length st = 8%nat -> length (fold_left round l st) = 8%nat.
Proof.
  induction l as [|kw l IH]; intros st Hl; simpl; [exact Hl |].
  apply IH. now apply round_length.
Qed.

Lemma compress_length (h block : list N) :
  length h = 8%nat -> length (compress h block) = 8%nat.
Proof.
  intros Hl. unfold compress.
  rewrite length_map, length_combine, rounds_length by exact Hl. rewrite Hl. reflexivity.
Qed.

Lemma digest_words_length (msg : list N) : length (digest_words msg) = 8%nat.
Proof.
  unfold digest_words.
  generalize (blocks (length (words (length (pad msg)) (pad msg)))
                     (words (length (pad msg)) (pad msg))).
  assert (H8 : length H0 = 8%nat) by reflexivity. revert H8. generalize H0.
  intros h Hh l. revert h Hh. induction l as [|b l IH]; intros h Hh; simpl; [exact Hh |].
  apply IH. now apply compress_length.
Qed.

Lemma be_bytes_length (n : nat) : forall x, length (be_bytes n x) = n.
Proof.
  induction n as [|n IH]; intros x; simpl; [reflexivity |].
  rewrite length_app, IH. simpl. lia.
Qed.

Lemma digest_length (msg : list Byte.byte) : length (digest msg) = 32%nat.
Proof.
  unfold digest. pose proof (digest_words_length (map Byte.to_N msg)) as Hl.
  assert (Hf : forall ws, length (flat_map (be_bytes 4) ws) = (4 * length ws)%nat).
  { induction ws as [|w ws IH]; [reflexivity |].
    cbn [flat_map]. rewrite length_app, be_bytes_length, IH. simpl. lia. }
  now rewrite Hf, Hl.
Qed.

Lemma hex_length (bs : list N) : String.length (hex bs) = (2 * length bs)%nat.
Proof. induction bs as [|b bs IH]; simpl; [reflexivity | rewrite IH; lia]. Qed.

Lemma hex_digit_lower (n : N) :
  lower_hex (hex_digit n) = true /\ lower_char (hex_digit n) = hex_digit n.
Proof.
  destruct n as [|p]; [now split |].
  destruct p as [p|p|]; try (now split);
    destruct p as [p|p|]; try (now split);
    destruct p as [p|p|]; try (now split);
    destruct p as [p|p|]; now split.
Qed.

Lemma hex_lower (bs : list N) :
  all_chars lower_hex (hex bs) = true /\ toLowerCase (hex bs) = hex bs.
Proof.
  induction bs as [|b bs [IH1 IH2]]; simpl; [now split |].
  destruct (hex_digit_lower (b / 16)) as [H1 H2].
  destruct (hex_digit_lower (b mod 16)) as [H3 H4].
  rewrite H1, H2, H3, H4, IH1, IH2. now split.
Qed.

End SHA256Facts.

(** X27.  A checksum that passes the comparison of lines 489-493 is made of
    exactly 64 lowercase hexadecimal digits: whatever else the metadata
    declares, once its marker is removed, is a mismatch. *)
Theorem accepted_checksum_shape (archBuffer : list Byte.byte) (checksum : string)
    (st : State) :
  fst (da_verify archBuffer checksum st) = Ok tt ->
  String.length checksum = 64%nat
  /\ all_chars lower_hex checksum = true
  /\ toLowerCase checksum = checksum.
Proof.
  intros E. destruct (da_verify archBuffer checksum st) as [r s] eqn:Ev.
  apply da_verify_run in Ev as [_ Hs]. simpl in E. specialize (Hs E). subst checksum.
  unfold SHA256.sha256_hex.
  rewrite SHA256Facts.hex_length, SHA256Facts.digest_length.
  split; [reflexivity |]. apply SHA256Facts.hex_lower.
Qed.

(** ** The properties above, on the sample platform *)

Lemma closed_fs_check (fs : FS) : closedb fs = true -> closed_fs fs.
Proof.
  intros Hb p x [n Hn]. unfold closedb in Hb. rewrite forallb_forall in Hb.
  specialize (Hb (p ++ [x], n)). simpl in Hb. rewrite removelast_last in Hb.
  apply Hb. apply list_elem_of_In. now apply elem_of_map_to_list.
Qed.

Lemma download_confined_to_temp_witness :
  st_fs (snd (@downloadExtractArchive
                (Sample.platform (Sample.demoPkg Sample.digestLower))
                (Some (Sample.demoPkg Sample.digestLower)) "" None None
                (Sample.start Sample.installedFS)))
    !! (Sample.root ++ ["demo"; "main.js"])
  = Sample.installedFS !! (Sample.root ++ ["demo"; "main.js"]).
Proof.
  refine (proj1 (@download_confined_to_temp
            (Sample.platform (Sample.demoPkg Sample.digestLower))
            (Sample.demoPkg Sample.digestLower) "" None None
            (Sample.start Sample.installedFS) _ _) _ _).
  - apply closed_fs_check. vm_compute. reflexivity.
  - reflexivity.
  - vm_compute. reflexivity.
Defined.

Lemma failed_download_changes_temp_only_witness :
  @PluginManager.update_replace
    (Sample.platform_with [Byte.x01] (Sample.demoPkg Sample.digestLower))
    (Sample.root ++ ["demo"]) (Sample.demoPkg Sample.digestLower) Sample.root ""
    None None (Sample.start Sample.installedFS)
  = (Throw (Error "Checksum mismatch."),
     tick (snd (@downloadExtractArchive
                  (Sample.platform_with [Byte.x01] (Sample.demoPkg Sample.digestLower))
                  (Some (Sample.demoPkg Sample.digestLower)) "" None None
                  (Sample.start Sample.installedFS)))).
Proof.
  refine (proj1 (proj2 (@failed_download_changes_temp_only
            (Sample.platform_with [Byte.x01] (Sample.demoPkg Sample.digestLower))
            (Sample.demoPkg Sample.digestLower) (Sample.root ++ ["demo"]) Sample.root ""
            None None (Sample.start Sample.installedFS)
            (Error "Checksum mismatch.") _ _ _ _))).
  - apply closed_fs_check. vm_compute. reflexivity.
  - reflexivity.
  - vm_compute. reflexivity.
Defined.

Lemma moveDirs_carries_validity_witness :
  fst (checkValidPluginFolder (Sample.root ++ ["demo"])
         (snd (@moveDirs (Sample.platform Sample.stalePkg)
                 Sample.staged (Sample.root ++ ["demo"])
                 (Sample.start Sample.readyFS))))
  = Ok true.
Proof.
  refine (proj1 (@moveDirs_carries_validity (Sample.platform Sample.stalePkg)
            Sample.staged (Sample.root ++ ["demo"])
            (Sample.start Sample.readyFS) _ _ _ _)).
  - reflexivity.
  - vm_compute. reflexivity.
  - vm_compute. reflexivity.
Defined.

Lemma moveDirs_merges_into_destination_witness :
  st_fs (snd (@moveDirs (Sample.platform Sample.stalePkg)
                Sample.staged (Sample.root ++ ["demo"])
                (Sample.start Sample.occupiedFS)))
    !! ((Sample.root ++ ["demo"]) ++ ["old.js"])
  = Some (NFile (Raw "legacy()")).
Proof.
  refine (eq_trans (@moveDirs_merges_into_destination (Sample.platform Sample.stalePkg)
            Sample.staged (Sample.root ++ ["demo"])
            (Sample.start Sample.occupiedFS) _ _ _ ["old.js"]) _).
  - reflexivity.
  - vm_compute. reflexivity.
  - vm_compute. reflexivity.
Defined.


Lemma install_yields_valid_plugin_witness :
  fst (checkValidPluginFolder (Sample.root ++ ["demo"])
         (snd (@PluginManager.installFromPluginPkg
                 (Sample.platform (Sample.demoPkg Sample.digestLower))
                 (Some (Sample.demoPkg Sample.digestLower)) Sample.root "" None None
                 (Sample.start Sample.base))))
  = Ok true.
Proof.
  refine (proj1 (@install_yields_valid_plugin
            (Sample.platform (Sample.demoPkg Sample.digestLower))
            (Sample.demoPkg Sample.digestLower) Sample.root "" None
            (Sample.start Sample.base) _ _ _ _ _ _ _)).
  - apply closed_fs_check. vm_compute. reflexivity.
  - reflexivity.
  - intros archBuffer _. split; [reflexivity |]. split; [vm_compute; eauto |].
    eexists. vm_compute. reflexivity.
  - reflexivity.
  - reflexivity.
  - vm_compute. reflexivity.
Defined.

Lemma update_replaces_folder_content_witness :
  st_fs (snd (@PluginManager.update_replace
                (Sample.platform (Sample.demoPkg Sample.digestLower))
                (Sample.root ++ ["demo"]) (Sample.demoPkg Sample.digestLower)
                Sample.root "" None None (Sample.start Sample.staleFS)))
    !! ((Sample.root ++ ["demo"]) ++ ["old.js"])
  = None.
Proof.
  refine (eq_trans (@update_replaces_folder_content
            (Sample.platform (Sample.demoPkg Sample.digestLower))
            (Sample.root ++ ["demo"]) (Sample.demoPkg Sample.digestLower)
            Sample.root "" None None (Sample.start Sample.staleFS)
            "demo" ["tmp"; "headlamp-plugin-temp-k3x9Qa"; "demo"]
            (snd (@downloadExtractArchive
                    (Sample.platform (Sample.demoPkg Sample.digestLower))
                    (Some (Sample.demoPkg Sample.digestLower)) "" None None
                    (Sample.start Sample.staleFS)))
            _ _ _ _ _ _ _ ["old.js"] _) _).
  - vm_compute. reflexivity.
  - vm_compute. reflexivity.
  - discriminate.
  - reflexivity.
  - reflexivity.
  - reflexivity.
  - discriminate.
  - vm_compute. reflexivity.
Defined.

Lemma incompatible_version_stops_download_witness :
  fst (@downloadExtractArchive (Sample.platform Sample.pickyPkg)
         (Some Sample.pickyPkg) "0.20.0" None None (Sample.start Sample.base))
  = Throw (Error "Headlamp version is not compatible with the plugin").
Proof.
  refine (proj1 (@incompatible_version_stops_download (Sample.platform Sample.pickyPkg)
            Sample.pickyPkg "0.20.0" None None (Sample.start Sample.base)
            _ _ _ _ _ _)).
  - reflexivity.
  - vm_compute. reflexivity.
  - vm_compute. reflexivity.
  - discriminate.
  - discriminate.
  - reflexivity.
Defined.

Lemma metadata_presence_checks_witness :
  @downloadExtractArchive (Sample.platform (Sample.demoPkg ""))
    (Some (Sample.demoPkg "")) "" None None (Sample.start Sample.base)
  = (Throw (Error "Invalid plugin metadata. Please check the plugin details."),
     Sample.start Sample.base).
Proof.
  refine (proj1 (@metadata_presence_checks (Sample.platform (Sample.demoPkg ""))
            (Sample.demoPkg "") "" None None (Sample.start Sample.base) _ _) _ _).
  - reflexivity.
  - vm_compute. reflexivity.
  - vm_compute. reflexivity.
  - reflexivity.
Defined.

Lemma accepted_checksum_shape_witness :
  String.length Sample.digestLower = 64%nat
  /\ all_chars lower_hex Sample.digestLower = true
  /\ toLowerCase Sample.digestLower = Sample.digestLower.
Proof.
  refine (accepted_checksum_shape Sample.tarball Sample.digestLower
            (Sample.start Sample.base) _).
  vm_compute. reflexivity.
Defined.

Lemma install_from_registry_is_listed_witness :
  fst (checkValidPluginFolder (Sample.root ++ ["demo"])
         (snd (@PluginManager.install
                 (Sample.platform (Sample.demoPkg Sample.digestLower))
                 Sample.registryURL Sample.root "" None None
                 (Sample.start Sample.base))))
  = Ok true.
Proof.
  refine (proj1 (@install_from_registry_is_listed
            (Sample.platform (Sample.demoPkg Sample.digestLower))
            Sample.registryURL (Sample.demoPkg Sample.digestLower) Sample.root "" None
            (Sample.start Sample.base)
            (snd (@fetchPluginInfo (Sample.platform (Sample.demoPkg Sample.digestLower))
                    (Some (JStr Sample.registryURL)) None None
                    (Sample.start Sample.base)))
            _ _ _ _ _ _ _ _)).
  - vm_compute. reflexivity.
  - apply closed_fs_check. vm_compute. reflexivity.
  - reflexivity.
  - intros archBuffer _. split; [reflexivity |]. split; [vm_compute; eauto |].
    eexists. vm_compute. reflexivity.
  - reflexivity.
  - reflexivity.
  - vm_compute. reflexivity.
Defined.

Lemma update_keeps_plugin_valid_witness :
  fst (checkValidPluginFolder (Sample.root ++ ["demo"])
         (snd (@PluginManager.update_replace
                 (Sample.platform (Sample.demoPkg Sample.digestLower))
                 (Sample.root ++ ["demo"]) (Sample.demoPkg Sample.digestLower)
                 Sample.root "" None None (Sample.start Sample.staleFS))))
  = Ok true.
Proof.
  refine (@update_keeps_plugin_valid
            (Sample.platform (Sample.demoPkg Sample.digestLower))
            (Sample.root ++ ["demo"]) (Sample.demoPkg Sample.digestLower)
            Sample.root "" None None (Sample.start Sample.staleFS)
            "demo" ["tmp"; "headlamp-plugin-temp-k3x9Qa"; "demo"]
            (snd (@downloadExtractArchive
                    (Sample.platform (Sample.demoPkg Sample.digestLower))
                    (Some (Sample.demoPkg Sample.digestLower)) "" None None
                    (Sample.start Sample.staleFS)))
            (snd (@PluginManager.update_replace
                    (Sample.platform (Sample.demoPkg Sample.digestLower))
                    (Sample.root ++ ["demo"]) (Sample.demoPkg Sample.digestLower)
                    Sample.root "" None None (Sample.start Sample.staleFS)))
            _ _ _ _ _ _ _).
  - vm_compute. reflexivity.
  - vm_compute. reflexivity.
  - discriminate.
  - reflexivity.
  - reflexivity.
  - reflexivity.
  - vm_compute. reflexivity.
Defined.

Lemma failed_download_leaves_temp_folder_witness :
  is_Some
    (st_fs (snd (@downloadExtractArchive
                   (Sample.platform_with [Byte.x01] (Sample.demoPkg Sample.digestLower))
                   (Some (Sample.demoPkg Sample.digestLower)) "" None None
                   (Sample.start Sample.base)))
       !! ["tmp"; "headlamp-plugin-temp-k3x9Qa"; "demo"]).
Proof.
  refine (proj2 (@failed_download_leaves_temp_folder
            (Sample.platform_with [Byte.x01] (Sample.demoPkg Sample.digestLower))
            (Sample.demoPkg Sample.digestLower) "" None None
            (Sample.start Sample.base)
            (Sample.demoPkg Sample.digestLower, Sample.digestLower)
            (Sample.start Sample.base) _ _ _ _ _)).
  - apply closed_fs_check. vm_compute. reflexivity.
  - reflexivity.
  - vm_compute. reflexivity.
  - reflexivity.
  - reflexivity.
Defined.
